(** * R & Python Web IDE: session state, backends and table viewer

    A shallow embedding of the TypeScript sources (the [useWebR] and
    [usePyodide] hooks, [App], [EditorPanel], [RightPanel],
    [PythonRightPanel]) and of the Python and R scripts the hooks send to
    their interpreters, with the properties of the orchestration contract
    checked against them.

    Conventions.
    - A JavaScript string is a Rocq [string], one character per code unit,
      code units below 256.  [number] values are the integers [Z]: the
      sources only compare them, subtract them to compare them, and print
      them.
    - A React component is its state record (with the props it reads); an
      event handler is a function on that record, and an effect is applied
      after the handler when one of its dependencies changed.  An [async]
      function is the sequence of its steps; overlapping calls are not
      modelled.
    - A plain object used as a dictionary keeps its own properties; reading
      a name goes on to [Object.prototype], as in JavaScript.
    - The two interpreters (Pyodide, WebR) are external.  Each is a class of
      operations on an abstract interpreter state, every operation giving
      the new state and a resolved or rejected promise.  Everything the hooks
      and the embedded scripts compute from the answers is defined here.
      The WebR stream readers that run beside [runCode] are left out.
    - The Python scripts run at module level: what they assign is a
      global, and [globals()] is the dictionary they assign into.
      [runPythonAsync] resolves with the value of the last statement of a
      script when that statement is an expression, and with [undefined]
      otherwise.
    - The editor widget calls its [onMount] prop once, with the function it
      was handed on its first render.
    - [Array.prototype.sort] is a stable insertion sort.  ECMAScript fixes
      the result of [sort] only for a consistent comparison function; the
      one of the viewer is not consistent on rows with empty cells. *)

From Stdlib Require Import ZArith String Ascii List Lia Bool Permutation Sorted.
From stdpp Require Import gmap strings list fin_maps pretty.

Set Warnings "-register-all".
Local Open Scope string_scope.
Local Open Scope Z_scope.

(** ** JavaScript values and the primitives the sources use *)

Module Js.

Inductive value : Type :=
| Undefined
| Null
| Bool (b : bool)
| Num (z : Z)
| Str (s : string)
| Arr (items : list value)
| Obj (fields : list (string * value))
| Native (text : string).
(** [Native text] is a value inherited from [Object.prototype] (a built-in
    function, or the prototype object itself); [text] is what [String]
    makes of it. *)

(** Names every plain object inherits from [Object.prototype]. *)
Definition objectPrototypeFunctions : list string :=
  [ "constructor"; "hasOwnProperty"; "isPrototypeOf"; "propertyIsEnumerable";
    "toLocaleString"; "toString"; "valueOf";
    "__defineGetter__"; "__defineSetter__"; "__lookupGetter__"; "__lookupSetter__" ].

Definition inherited (k : string) : option value :=
  if String.eqb k "__proto__" then Some (Native "[object Object]")
  else if existsb (String.eqb k) objectPrototypeFunctions
       then Some (Native ("function " ++ k ++ "() { [native code] }"))
       else None.

Fixpoint assoc (k : string) (fields : list (string * value)) : option value :=
  match fields with
  | [] => None
  | (k', v) :: rest => if String.eqb k k' then Some v else assoc k rest
  end.

(** [o[k]] on a plain object: an own property, else an inherited one, else
    [undefined]. *)
Definition get (k : string) (fields : list (string * value)) : value :=
  match assoc k fields with
  | Some v => v
  | None => match inherited k with Some v => v | None => Undefined end
  end.

Fixpoint replace (k : string) (v : value) (fields : list (string * value))
  : list (string * value) :=
  match fields with
  | [] => [(k, v)]
  | (k', v') :: rest =>
      if String.eqb k k' then (k, v) :: rest else (k', v') :: replace k v rest
  end.

(** [o[k] = v] on a plain object.  Assigning to [__proto__] never creates an
    own property. *)
Definition set (k : string) (v : value) (fields : list (string * value))
  : list (string * value) :=
  if String.eqb k "__proto__" then fields else replace k v fields.

(** [v.k] for a value of any type, for the property names the sources read
    from interpreter output ([type], [names], [values]). *)
Definition prop (k : string) (v : value) : value :=
  match v with
  | Obj fields => get k fields
  | _ => Undefined
  end.

Definition isArray (v : value) : bool :=
  match v with Arr _ => true | _ => false end.

(** [typeof v === 'object'] *)
Definition typeofObject (v : value) : bool :=
  match v with Null | Arr _ | Obj _ => true | Native t => String.eqb t "[object Object]" | _ => false end.

Definition isNull (v : value) : bool :=
  match v with Null => true | _ => false end.

(** [v === 'lit'] *)
Definition isStr (lit : string) (v : value) : bool :=
  match v with Str s => String.eqb s lit | _ => false end.

Definition truthy (v : value) : bool :=
  match v with
  | Undefined | Null => false
  | Bool b => b
  | Num z => negb (z =? 0)
  | Str s => negb (String.eqb s "")
  | Arr _ | Obj _ | Native _ => true
  end.

(** ['k' in v] for an object value. *)
Definition hasProp (k : string) (v : value) : bool :=
  match v with
  | Obj fields =>
      match assoc k fields with
      | Some _ => true
      | None => match inherited k with Some _ => true | None => false end
      end
  | _ => false
  end.

Definition elements (v : value) : list value :=
  match v with Arr items => items | _ => [] end.

(** [a[i]] on an array. *)
Definition index (items : list value) (i : Z) : value :=
  if i <? 0 then Undefined
  else match nth_error items (Z.to_nat i) with Some v => v | None => Undefined end.

(** [v.length] *)
Definition lengthOf (v : value) : value :=
  match v with
  | Arr items => Num (Z.of_nat (List.length items))
  | Str s => Num (Z.of_nat (String.length s))
  | Obj fields => get "length" fields
  | _ => Undefined
  end.

(** [v[i]] for a value of any type. *)
Definition elem (v : value) (i : Z) : value :=
  match v with
  | Arr items => index items i
  | Str s =>
      if (0 <=? i) && (i <? Z.of_nat (String.length s))
      then Str (String.substring (Z.to_nat i) 1 s) else Undefined
  | Obj fields => get (pretty i) fields
  | _ => Undefined
  end.

(** [names.indexOf('lit')] *)
Fixpoint indexOfFrom (lit : string) (items : list value) (i : Z) : Z :=
  match items with
  | [] => -1
  | v :: rest => if isStr lit v then i else indexOfFrom lit rest (i + 1)
  end.

Definition indexOf (lit : string) (items : list value) : Z :=
  indexOfFrom lit items 0.

Fixpoint joinWith (sep : string) (parts : list string) : string :=
  match parts with
  | [] => ""
  | [p] => p
  | p :: rest => p ++ sep ++ joinWith sep rest
  end.

(** [String(v)] *)
Fixpoint toString (v : value) : string :=
  match v with
  | Undefined => "undefined"
  | Null => "null"
  | Bool true => "true"
  | Bool false => "false"
  | Num z => pretty z
  | Str s => s
  | Arr items =>
      joinWith ","
        (List.map (fun x => match x with
                            | Undefined | Null => ""
                            | _ => toString x
                            end) items)
  | Obj _ => "[object Object]"
  | Native text => text
  end.

(** [items.join(sep)] *)
Definition join (sep : string) (items : list value) : string :=
  joinWith sep
    (List.map (fun x => match x with
                        | Undefined | Null => ""
                        | _ => toString x
                        end) items).

(** [toLowerCase] on code units below 256. *)
Definition lowerChar (c : ascii) : ascii :=
  let n := nat_of_ascii c in
  if ((65 <=? n) && (n <=? 90))%nat then ascii_of_nat (n + 32)
  else if ((192 <=? n) && (n <=? 222) && negb (n =? 215))%nat then ascii_of_nat (n + 32)
  else c.

Fixpoint toLowerCase (s : string) : string :=
  match s with
  | EmptyString => EmptyString
  | String c rest => String (lowerChar c) (toLowerCase rest)
  end.

(** [a < b] on strings: code units compared left to right. *)
Fixpoint ltString (a b : string) : bool :=
  match a, b with
  | EmptyString, EmptyString => false
  | EmptyString, String _ _ => true
  | String _ _, EmptyString => false
  | String x a', String y b' =>
      let nx := nat_of_ascii x in
      let ny := nat_of_ascii y in
      if (nx <? ny)%nat then true
      else if (ny <? nx)%nat then false
      else ltString a' b'
  end.

Definition isWhiteSpace (c : ascii) : bool :=
  let n := nat_of_ascii c in
  (((9 <=? n) && (n <=? 13)) || (n =? 32) || (n =? 160))%nat.

Fixpoint trimStart (s : string) : string :=
  match s with
  | EmptyString => EmptyString
  | String c rest => if isWhiteSpace c then trimStart rest else s
  end.

Fixpoint trimEndAux (s : string) : option string :=
  (* [None]: [s] is all white space *)
  match s with
  | EmptyString => None
  | String c rest =>
      match trimEndAux rest with
      | Some r => Some (String c r)
      | None => if isWhiteSpace c then None else Some (String c EmptyString)
      end
  end.

Definition trimEnd (s : string) : string :=
  match trimEndAux s with Some r => r | None => EmptyString end.

Definition trim (s : string) : string := trimEnd (trimStart s).

(** [/^[a-zA-Z0-9_]+$/] and [/^[a-zA-Z0-9_.]+$/] *)
Definition isWordChar (c : ascii) : bool :=
  let n := nat_of_ascii c in
  (((97 <=? n) && (n <=? 122)) || ((65 <=? n) && (n <=? 90))
   || ((48 <=? n) && (n <=? 57)) || (n =? 95))%nat.

Fixpoint allChars (p : ascii -> bool) (s : string) : bool :=
  match s with
  | EmptyString => true
  | String c rest => p c && allChars p rest
  end.

Definition nonEmptyOf (p : ascii -> bool) (s : string) : bool :=
  match s with
  | EmptyString => false
  | _ => allChars p s
  end.

End Js.

Definition newline : string := String (ascii_of_nat 10) EmptyString.

(** [a[i]] on an array of strings: [None] is [undefined]. *)
Definition stringAt (a : list string) (i : Z) : option string :=
  if i <? 0 then None else nth_error a (Z.to_nat i).

(** The first and the last character of a text. *)
Definition firstChar (s : string) : option ascii :=
  match s with
  | EmptyString => None
  | String c _ => Some c
  end.

Fixpoint lastChar (s : string) : option ascii :=
  match s with
  | EmptyString => None
  | String c rest =>
      match rest with
      | EmptyString => Some c
      | String _ _ => lastChar rest
      end
  end.

(** A text with a character that is not white space at each end. *)
Definition trimmed (s : string) : Prop :=
  (exists c, firstChar s = Some c /\ Js.isWhiteSpace c = false)
  /\ (exists c, lastChar s = Some c /\ Js.isWhiteSpace c = false).

(** ** Command history recall *)

Module Recall.

(** The four pieces of state the console input box keeps for its recall.
    [buffer] is [inputValue].  [None] is [undefined], which an array read
    outside its bounds would hand to the setters. *)
Record state : Type := mk {
  buffer : option string;
  commandHistory : list string;
  historyIndex : Z;
  tempUserCode : option string
}.

(** The [ArrowUp] branch. *)
Definition older (s : state) : state :=
  if (Z.of_nat (List.length (commandHistory s)) =? 0) then s
  else
    let temp := if historyIndex s =? -1 then buffer s else tempUserCode s in
    let newIndex :=
      Z.min (historyIndex s + 1) (Z.of_nat (List.length (commandHistory s)) - 1) in
    {| buffer := stringAt (commandHistory s) newIndex;
       commandHistory := commandHistory s;
       historyIndex := newIndex;
       tempUserCode := temp |}.

(** The [ArrowDown] branch. *)
Definition newer (s : state) : state :=
  if historyIndex s =? -1 then s
  else
    let newIndex := historyIndex s - 1 in
    {| buffer := if newIndex <? 0 then tempUserCode s
                 else stringAt (commandHistory s) newIndex;
       commandHistory := commandHistory s;
       historyIndex := newIndex;
       tempUserCode := tempUserCode s |}.

Definition sameText (a b : option string) : bool :=
  match a, b with
  | Some x, Some y => String.eqb x y
  | None, None => true
  | _, _ => false
  end.

(** The effect the panel registers: the cursor is dropped as soon as the
    buffer differs from the entry under it. *)
Definition resetOnMismatch (s : state) : state :=
  if (-1 <? historyIndex s)
     && negb (sameText (buffer s) (stringAt (commandHistory s) (historyIndex s)))
  then {| buffer := buffer s;
          commandHistory := commandHistory s;
          historyIndex := -1;
          tempUserCode := tempUserCode s |}
  else s.

(** [[trimmed, ...prev.filter(c => c !== trimmed)]] *)
Definition pushCommand (trimmed : string) (prev : list string) : list string :=
  trimmed :: List.filter (fun c => negb (String.eqb c trimmed)) prev.

End Recall.

(** The console input box of [RightPanel.tsx]. *)
Module ConsolePanel.
Import Recall.

Inductive key : Type := Enter | ArrowUp | ArrowDown | OtherKey.

(** [handleKeyDown]; the second component is the command handed to the
    backend's [runCode], if any. *)
Definition handleKeyDown (e : key) (s : state) : state * option string :=
  match e with
  | Enter =>
      match buffer s with
      | None => (s, None)
      | Some inputValue =>
          let trimmedCode := Js.trim inputValue in
          if negb (String.eqb trimmedCode "")
          then ({| buffer := Some "";
                   commandHistory := pushCommand trimmedCode (commandHistory s);
                   historyIndex := -1;
                   tempUserCode := Some "" |}, Some trimmedCode)
          else (s, None)
      end
  | ArrowUp => (older s, None)
  | ArrowDown => (newer s, None)
  | OtherKey => (s, None)
  end.

(** [onChange] of the input element. *)
Definition onChange (text : string) (s : state) : state :=
  {| buffer := Some text;
     commandHistory := commandHistory s;
     historyIndex := historyIndex s;
     tempUserCode := tempUserCode s |}.

(** One key press followed by the effect of the next render. *)
Definition press (e : key) (s : state) : state :=
  resetOnMismatch (fst (handleKeyDown e s)).

Definition edit (text : string) (s : state) : state :=
  resetOnMismatch (onChange text s).

(** The state of the first render. *)
Definition initial : state :=
  {| buffer := Some "";
     commandHistory := [];
     historyIndex := -1;
     tempUserCode := Some "" |}.

(** What the user does to the input box. *)
Inductive event : Type :=
| KeyDown (e : key)
| Change (text : string).

Definition step (ev : event) (s : state) : state :=
  match ev with
  | KeyDown e => press e s
  | Change text => edit text s
  end.

(** A sequence of events, first to last. *)
Definition stepAll (events : list event) (s : state) : state :=
  List.fold_left (fun acc ev => step ev acc) events s.

(** The commands handed to [runCode] along a sequence of events, first to
    last. *)
Fixpoint submitted (events : list event) (s : state) : list string :=
  match events with
  | [] => []
  | ev :: rest =>
      (match ev with
       | KeyDown e =>
           match snd (handleKeyDown e s) with
           | Some code => [code]
           | None => []
           end
       | Change _ => []
       end ++ submitted rest (step ev s))%list
  end.

(** The cursor is "none" or points into the history, and neither the input
    nor the draft is [undefined]. *)
Definition inBounds (s : state) : Prop :=
  -1 <= historyIndex s < Z.of_nat (List.length (commandHistory s))
  /\ buffer s <> None /\ tempUserCode s <> None.

(** What every state of the input box satisfies. *)
Definition wellFormed (s : state) : Prop :=
  inBounds s /\ NoDup (commandHistory s) /\ Forall trimmed (commandHistory s).

End ConsolePanel.

(** The editor of [EditorPanel.tsx]. *)
Module EditorPanel.

(** The props the key listeners read. *)
Record props : Type := mkProps {
  code : string;
  commandHistory : list string;
  historyIndex : Z;
  tempUserCode : string
}.

(** A call of one of the setters received as props.  The argument of
    [setCode] is [None] when it is [undefined], which an array read outside
    its bounds gives. *)
Inductive call : Type :=
| SetTempUserCode (code : string)
| SetHistoryIndex (index : Z)
| SetCode (code : option string).

Inductive keyCode : Type := UpArrow | DownArrow | OtherKeyCode.

(** The two [onKeyDown] listeners installed by [handleEditorDidMount]: the
    setter calls each makes, in order.  The listeners are closures of the
    render in which [handleEditorDidMount] was created, and [mounted] are
    the props of that render: the values they compare and pass on are
    those, not the ones of the render on screen. *)
Definition onKeyDownFirst (mounted : props) (e : keyCode) (isFirstLine : bool)
  : list call :=
  match e with
  | UpArrow =>
      if isFirstLine
      then
        if Z.of_nat (List.length (commandHistory mounted)) =? 0 then []
        else
          let newIndex :=
            Z.min (historyIndex mounted + 1)
                  (Z.of_nat (List.length (commandHistory mounted)) - 1) in
          ((if historyIndex mounted =? -1 then [SetTempUserCode (code mounted)] else [])
           ++ [SetHistoryIndex newIndex;
               SetCode (stringAt (commandHistory mounted) newIndex)])%list
      else []
  | _ => []
  end.

Definition onKeyDownSecond (mounted : props) (e : keyCode) (isLastLine : bool)
  : list call :=
  match e with
  | DownArrow =>
      if isLastLine
      then
        if historyIndex mounted =? -1 then []
        else
          let newIndex := historyIndex mounted - 1 in
          [SetHistoryIndex newIndex;
           SetCode (if newIndex <? 0 then Some (tempUserCode mounted)
                    else stringAt (commandHistory mounted) newIndex)]
      else []
  | _ => []
  end.

(** [handleEditorDidMount] is the [onMount] prop of the editor widget,
    which calls it once, when the widget is ready, with the function it was
    handed on its first render.  What a key press does from then on: the
    calls of the first listener, then those of the second. *)
Definition handleEditorDidMount (mounted : props) (e : keyCode)
    (isFirstLine isLastLine : bool) : list call :=
  (onKeyDownFirst mounted e isFirstLine ++ onKeyDownSecond mounted e isLastLine)%list.

End EditorPanel.

(** ** The session store of [App.tsx] *)

Module App.

Inductive Language : Type := r | python.

Definition sameLanguage (a b : Language) : bool :=
  match a, b with
  | r, r | python, python => true
  | _, _ => false
  end.

Record state : Type := mk {
  language : Language;
  rCode : string;
  pythonCode : string;
  editorCode : string;
  commandHistory : list string;
  historyIndex : Z;
  tempUserCode : string
}.

(** The state of the first render, for the two initial scripts of
    [constants.ts]. *)
Definition initial (INITIAL_R_CODE INITIAL_PYTHON_CODE : string) : state :=
  {| language := r;
     rCode := INITIAL_R_CODE;
     pythonCode := INITIAL_PYTHON_CODE;
     editorCode := INITIAL_R_CODE;
     commandHistory := [];
     historyIndex := -1;
     tempUserCode := "" |}.

(** The body of the effect registered with the dependency list
    [[language, rCode, pythonCode]]. *)
Definition syncEffect (s : state) : state :=
  {| language := language s;
     rCode := rCode s;
     pythonCode := pythonCode s;
     editorCode := match language s with r => rCode s | python => pythonCode s end;
     commandHistory := [];
     historyIndex := -1;
     tempUserCode := "" |}.

(** Whether a dependency of that effect differs between two renders. *)
Definition depsChanged (prev next : state) : bool :=
  negb (sameLanguage (language prev) (language next))
  || negb (String.eqb (rCode prev) (rCode next))
  || negb (String.eqb (pythonCode prev) (pythonCode next)).

Definition handleCodeChange (newCode : string) (s : state) : state :=
  {| language := language s;
     rCode := match language s with r => newCode | python => rCode s end;
     pythonCode := match language s with r => pythonCode s | python => newCode end;
     editorCode := newCode;
     commandHistory := commandHistory s;
     historyIndex := historyIndex s;
     tempUserCode := tempUserCode s |}.

(** [handleRun]; the second component is the call made to the active
    backend's [runCode]. *)
Definition handleRun (s : state) : state * option (Language * string) :=
  let trimmedCode := Js.trim (editorCode s) in
  if negb (String.eqb trimmedCode "")
  then ({| language := language s;
           rCode := rCode s;
           pythonCode := pythonCode s;
           editorCode := editorCode s;
           commandHistory := Recall.pushCommand trimmedCode (commandHistory s);
           historyIndex := -1;
           tempUserCode := "" |}, Some (language s, trimmedCode))
  else (s, None).

Definition setLanguage (l : Language) (s : state) : state :=
  {| language := l;
     rCode := rCode s;
     pythonCode := pythonCode s;
     editorCode := editorCode s;
     commandHistory := commandHistory s;
     historyIndex := historyIndex s;
     tempUserCode := tempUserCode s |}.

Definition setHistoryIndex (i : Z) (s : state) : state :=
  {| language := language s;
     rCode := rCode s;
     pythonCode := pythonCode s;
     editorCode := editorCode s;
     commandHistory := commandHistory s;
     historyIndex := i;
     tempUserCode := tempUserCode s |}.

(** The [onChange] prop [EditorPanel] hands to the editor widget, with
    [setCode] bound to [handleCodeChange]; [None] is [undefined]. *)
Definition editorOnChange (value : option string) (s : state) : state :=
  let s1 := if negb (historyIndex s =? -1) then setHistoryIndex (-1) s else s in
  handleCodeChange (match value with
                    | Some v => v
                    | None => ""
                    end) s1.

(** The effect of [EditorPanel], on the props it receives from [App]. *)
Definition panelEffect (s : state) : state :=
  if (-1 <? historyIndex s)
     && negb (Recall.sameText (Some (editorCode s))
                (stringAt (commandHistory s) (historyIndex s)))
  then setHistoryIndex (-1) s
  else s.

(** What the effects make of the state a handler produced: the child's
    effect first, then the parent's when one of its dependencies changed. *)
Definition commit (prev next : state) : state :=
  let afterPanel := panelEffect next in
  if depsChanged prev next then syncEffect afterPanel else afterPanel.

Inductive event : Type :=
| Edit (value : option string)
| Run
| SwitchLanguage (l : Language).

Definition handle (e : event) (s : state) : state :=
  match e with
  | Edit value => editorOnChange value s
  | Run => fst (handleRun s)
  | SwitchLanguage l => setLanguage l s
  end.

Definition step (e : event) (s : state) : state := commit s (handle e s).

(** A sequence of events, first to last. *)
Definition stepAll (events : list event) (s : state) : state :=
  List.fold_left (fun acc e => step e acc) events s.

(** The text of the active language. *)
Definition activeCode (s : state) : string :=
  match language s with r => rCode s | python => pythonCode s end.

Definition isSwitch (e : event) : bool :=
  match e with
  | SwitchLanguage _ => true
  | _ => false
  end.

(** The text kept for language [l]. *)
Definition codeOf (l : Language) (s : state) : string :=
  match l with r => rCode s | python => pythonCode s end.

(** The props [App] hands to [EditorPanel] in the render of state [s]. *)
Definition editorProps (s : state) : EditorPanel.props :=
  {| EditorPanel.code := editorCode s;
     EditorPanel.commandHistory := commandHistory s;
     EditorPanel.historyIndex := historyIndex s;
     EditorPanel.tempUserCode := tempUserCode s |}.

End App.

(** ** Display records shared by the two backends ([types.ts]) *)

Inductive OutputType : Type := input | stdout | stderr | system.

Record ConsoleOutput : Type := mkLine {
  type : OutputType;
  message : string
}.

Record PlotData : Type := mkPlot {
  id : string;
  dataUrl : string
}.

(** A row object: own properties in insertion order. *)
Definition Row : Type := list (string * Js.value).

(** [data] and [columns] are [None] when the property is [undefined].  The
    column names are typed [string[]]; what the R backend stores there is
    whatever the interpreter reported as names. *)
Record TableData : Type := mkTable {
  name : string;
  data : option (list Row);
  columns : option (list Js.value)
}.

(** What an awaited interpreter call does: the interpreter moves to a new
    state, and the promise resolves with a value or rejects with an error
    message. *)
Inductive outcome (A : Type) : Type :=
| Resolved (a : A)
| Rejected (errorMessage : string).
Arguments Resolved {A} a.
Arguments Rejected {A} errorMessage.

(** [`plot-${plotIdCounter++}`] *)
Definition plotId (counter : nat) : string := "plot-" ++ pretty counter.

(** The identifiers of the plots are distinct, and each was drawn from the
    counter before it reached [counter]. *)
Definition freshIds (counter : nat) (plots : list PlotData) : Prop :=
  NoDup (List.map id plots)
  /\ forall plot, In plot plots -> exists n, (n < counter)%nat /\ id plot = plotId n.

(** ** The Python backend ([usePyodide]) *)

Module UsePyodide.

(** *** What the embedded scripts see of the interpreter *)

(** [repr(value)] returns a text, raises an [Exception] (caught by the
    script), or raises something [except Exception] lets through. *)
Inductive ReprOutcome : Type :=
| ReprText (text : string)
| ReprException
| ReprAbort (errorMessage : string).

(** The JSON text [to_json(orient='split')] yields, once parsed. *)
Record SplitJson : Type := mkSplit {
  splitColumns : list string;
  splitIndex : list Js.value;
  splitData : list (list Js.value)
}.

(** The [to_json] attribute of a value: absent; present and yielding a
    split layout; or present with a call or a result that makes the
    viewer's [try] block throw. *)
Inductive ToJson : Type :=
| NoToJson
| ToJsonSplit (parsed : SplitJson)
| ToJsonThrows (errorMessage : string).

Record PyValue : Type := mkValue {
  typeName : string;            (* type(value).__name__ *)
  reprOf : ReprOutcome;         (* repr(value) *)
  isDataFrame : bool;           (* isinstance(value, pd.DataFrame) *)
  isFigure : bool;              (* isinstance(value, Figure) *)
  toJson : ToJson;              (* value.to_json(orient='split') *)
  savefig : outcome string      (* base64 of fig.savefig(buf, format='png') *)
}.

(** One batched message of the stdout or stderr handler. *)
Record Batched : Type := mkBatched {
  stream : OutputType;
  msg : string
}.

Record Ran (S A : Type) : Type := mkRan {
  after : S;
  printed : list Batched;
  result : outcome A
}.
Arguments after {S A} _.
Arguments printed {S A} _.
Arguments result {S A} _.

(** A dictionary in iteration order: [globals()]. *)
Abbreviation dict := (list (string * PyValue)) (only parsing).

(** [x in d] *)
Fixpoint bound (x : string) (d : dict) : bool :=
  match d with
  | [] => false
  | (y, _) :: rest => String.eqb x y || bound x rest
  end.

(** [d[x] = v] for a key that is in [d]: the value is replaced where the
    key stands. *)
Fixpoint rebind (x : string) (v : PyValue) (d : dict) : dict :=
  match d with
  | [] => []
  | (y, w) :: rest =>
      if String.eqb x y then (y, v) :: rest else (y, w) :: rebind x v rest
  end.

(** [d[x] = v]: a new key goes to the end. *)
Definition setItem (x : string) (v : PyValue) (d : dict) : dict :=
  if bound x d then rebind x v d else (d ++ [(x, v)])%list.

(** The interpreter, as far as the hook talks to it.  [runUser] is
    [runPythonAsync] on the submitted source; [closeAll], [renderFigures]
    and [readGlobal] are the interpreter's part in the fixed scripts: closing
    all figures, rendering the open figures in [get_fignums] order, and
    reading one global.  [prepareScope] is the environment script up to its
    loop: the imports and the assignments to [_vars], [_builtins], [_scope]
    and [_vars_to_ignore]; it resolves with [dir(__builtins__)].  Each of
    them can print on the two streams and can reject (an import that
    fails).  [globals] is the module dictionary the scripts run in, in
    iteration order, [assign] an assignment to a global name, and [reprStr]
    the [repr] of a [str].  What the scripts compute from the answers is
    defined below. *)
Class Interpreter : Type := {
  py : Type;
  runUser : string -> py -> Ran py unit;
  closeAll : py -> Ran py unit;
  renderFigures : py -> Ran py (list string);
  prepareScope : py -> Ran py (list string);
  readGlobal : string -> py -> Ran py (option PyValue);
  reprStr : string -> string;
  globals : py -> dict;
  assign : string -> PyValue -> py -> py;
  globals_assign : forall x v p, globals (assign x v p) = setItem x v (globals p)
}.

(** *** The environment script *)

Record PythonEnvObject : Type := mkEnv {
  envType : string;
  envRepr : string;
  is_dataframe : bool;
  is_figure : bool
}.

Definition ignoredNames : list string :=
  [ "__name__"; "__doc__"; "__package__"; "__loader__"; "__spec__";
    "__annotations__"; "__builtins__"; "_vars"; "_builtins"; "_scope";
    "_vars_to_ignore"; "json"; "pd"; "sys"; "pyodide"; "plt"; "Figure" ].

(** [_vars_to_ignore] after [update(_builtins)] *)
Definition _vars_to_ignore (builtins : list string) : list string :=
  ignoredNames ++ builtins.

Definition memberOf (x : string) (l : list string) : bool :=
  existsb (String.eqb x) l.

(** [name.startswith('_')] *)
Definition startsWithUnderscore (x : string) : bool :=
  match x with
  | String c _ => Ascii.eqb c "_"%char
  | EmptyString => false
  end.

(** The condition of the [if] inside the loop. *)
Definition listed (builtins : list string) (x : string) (value : PyValue) : bool :=
  negb (memberOf x (_vars_to_ignore builtins))
  && negb (startsWithUnderscore x)
  && negb (String.eqb (typeName value) "module").

(** [repr_val[:100] + '...'] when [len(repr_val) > 100] *)
Definition capRepr (repr_val : string) : string :=
  if (100 <? String.length repr_val)%nat
  then String.substring 0 100 repr_val ++ "..."
  else repr_val.

(** The [try]/[except] around [repr]: the text, the placeholder for a
    caught exception, or the error the script ends with. *)
Definition repr_val_of (value : PyValue) : outcome string :=
  match reprOf value with
  | ReprText text => Resolved text
  | ReprException => Resolved ("<" ++ typeName value ++ ">")
  | ReprAbort e => Rejected e
  end.

Definition describe (value : PyValue) (repr_val : string) : PythonEnvObject :=
  {| envType := typeName value;
     envRepr := capRepr repr_val;
     is_dataframe := isDataFrame value;
     is_figure := isFigure value |}.

(** The names the loop binds: its two targets and [repr_val].  The script
    runs at module level, so they are globals like any other. *)
Definition loopVariables : list string := ["name"; "value"; "repr_val"].

(** The dictionary [d'] has the keys of [d], each where it was, and the
    values of [d] under every key that is not a loop variable. *)
Definition keptBy (d d' : dict) : Prop :=
  List.map fst d' = List.map fst d
  /\ forall i k v, nth_error d i = Some (k, v) -> ~ In k loopVariables ->
                   nth_error d' i = Some (k, v).

(** *** The hook *)

Section Hook.
Context {I : Interpreter}.

Record state : Type := mk {
  pyodide : option py;          (* the module-level handle *)
  plotIdCounter : nat;
  isLoading : bool;
  isEnvLoading : bool;
  consoleOutput : list ConsoleOutput;
  environment : gmap string PythonEnvObject;
  tableData : option TableData;
  plots : list PlotData
}.

Definition setPyodide (p : option py) (s : state) : state :=
  mk p (plotIdCounter s) (isLoading s) (isEnvLoading s) (consoleOutput s)
     (environment s) (tableData s) (plots s).
Definition setPlotIdCounter (n : nat) (s : state) : state :=
  mk (pyodide s) n (isLoading s) (isEnvLoading s) (consoleOutput s)
     (environment s) (tableData s) (plots s).
Definition setIsEnvLoading (b : bool) (s : state) : state :=
  mk (pyodide s) (plotIdCounter s) (isLoading s) b (consoleOutput s)
     (environment s) (tableData s) (plots s).
Definition setConsoleOutput (c : list ConsoleOutput) (s : state) : state :=
  mk (pyodide s) (plotIdCounter s) (isLoading s) (isEnvLoading s) c
     (environment s) (tableData s) (plots s).
Definition setEnvironment (e : gmap string PythonEnvObject) (s : state) : state :=
  mk (pyodide s) (plotIdCounter s) (isLoading s) (isEnvLoading s) (consoleOutput s)
     e (tableData s) (plots s).
Definition setTableData (t : option TableData) (s : state) : state :=
  mk (pyodide s) (plotIdCounter s) (isLoading s) (isEnvLoading s) (consoleOutput s)
     (environment s) t (plots s).
Definition setPlots (p : list PlotData) (s : state) : state :=
  mk (pyodide s) (plotIdCounter s) (isLoading s) (isEnvLoading s) (consoleOutput s)
     (environment s) (tableData s) p.

(** [setConsoleOutput(prev => [...prev, line])] *)
Definition log (t : OutputType) (m : string) (s : state) : state :=
  setConsoleOutput (consoleOutput s ++ [mkLine t m]) s.

(** The [batched] handlers installed by [setStdout] and [setStderr]:
    an empty message is dropped. *)
Definition batched (b : Batched) (s : state) : state :=
  if String.eqb (msg b) "" then s else log (stream b) (msg b) s.

(** An awaited call on the interpreter held in [pyodide]: the handle now
    denotes the interpreter's new state and the messages printed
    meanwhile are on the console. *)
Definition await {A : Type} (call : py -> Ran py A) (s : state)
  : state * outcome A :=
  match pyodide s with
  | Some p =>
      let ran := call p in
      (List.fold_left (fun acc b => batched b acc) (printed ran)
         (setPyodide (Some (after ran)) s),
       result ran)
  | None => (s, Rejected "pyodide is undefined")
  end.

(** A [str] object. *)
Definition strObject (text : string) : PyValue :=
  {| typeName := "str";
     reprOf := ReprText (reprStr text);
     isDataFrame := false;
     isFigure := false;
     toJson := NoToJson;
     savefig := Rejected "'str' object has no attribute 'savefig'" |}.

Definition changedSize : string :=
  "RuntimeError: dictionary changed size during iteration".

(** The loop [for name, value in _scope.items()], from the item at
    position [pos] on; [vars] is [_vars].  [_scope] is the dictionary of
    globals itself, and [used] is its size when the iteration started: the
    iterator raises as soon as it is asked for an item of a dictionary of
    another size.  [steps] bounds the number of items still to come. *)
Fixpoint forItems (builtins : list string) (used : nat) (steps : nat) (pos : nat)
    (p : py) (vars : gmap string PythonEnvObject)
  : py * outcome (gmap string PythonEnvObject) :=
  if negb (List.length (globals p) =? used)%nat then (p, Rejected changedSize)
  else
    match steps with
    | O => (p, Resolved vars)
    | S steps' =>
        match nth_error (globals p) pos with
        | None => (p, Resolved vars)
        | Some (x, value) =>
            let p1 := assign "value" value (assign "name" (strObject x) p) in
            if listed builtins x value
            then match repr_val_of value with
                 | Resolved repr_val =>
                     let p2 := assign "repr_val" (strObject repr_val) p1 in
                     let p3 :=
                       if (100 <? String.length repr_val)%nat
                       then assign "repr_val"
                              (strObject (String.substring 0 100 repr_val ++ "...")) p2
                       else p2 in
                     forItems builtins used steps' (S pos) p3
                       (<[x := describe value repr_val]> vars)
                 | Rejected e => (p1, Rejected e)
                 end
            else forItems builtins used steps' (S pos) p1 vars
        end
    end.

(** The environment script as a whole: the interpreter after it, what it
    printed, and what [runPythonAsync] resolves with, after [JSON.parse]. *)
Definition inspectScope (p : py) : Ran py (gmap string PythonEnvObject) :=
  let ran := prepareScope p in
  match result ran with
  | Resolved builtins =>
      let used := List.length (globals (after ran)) in
      let done := forItems builtins used used 0 (after ran) ∅ in
      {| after := fst done; printed := printed ran; result := snd done |}
  | Rejected e =>
      {| after := after ran; printed := printed ran; result := Rejected e |}
  end.

Definition updateEnvironment (s : state) : state :=
  match pyodide s with
  | None => s
  | Some _ =>
      let '(s1, envJson) := await inspectScope (setIsEnvLoading true s) in
      let s2 := match envJson with
                | Resolved env => setEnvironment env s1
                | Rejected _ => s1
                end in
      setIsEnvLoading false s2
  end.

(** [newPlots.map(p => ({ id: `plot-${plotIdCounter++}`, dataUrl: ... }))] *)
Fixpoint plotObjectsFrom (counter : nat) (newPlots : list string) : list PlotData :=
  match newPlots with
  | [] => []
  | p :: rest =>
      mkPlot (plotId counter) ("data:image/png;base64," ++ p)
      :: plotObjectsFrom (S counter) rest
  end.

(** The [try] block of [runCode]; a rejected call leaves the rest of the
    block unexecuted. *)
Definition runCodeTry (code : string) (isInteractive : bool) (s : state) : state :=
  let '(s1, closed) :=
    if negb isInteractive then await closeAll s else (s, Resolved tt) in
  match closed with
  | Rejected _ => s1
  | Resolved _ =>
      let '(s2, ran) := await (runUser code) s1 in
      match ran with
      | Rejected _ => s2
      | Resolved _ =>
          let '(s3, plotsJson) := await renderFigures s2 in
          match plotsJson with
          | Rejected _ => s3
          | Resolved newPlots =>
              let plotObjects := plotObjectsFrom (plotIdCounter s3) newPlots in
              let s4 :=
                setPlotIdCounter (plotIdCounter s3 + List.length newPlots)%nat s3 in
              if isInteractive then setPlots plotObjects s4
              else if (0 <? List.length plotObjects)%nat
                   then setPlots (plots s4 ++ plotObjects) s4
                   else s4
          end
      end
  end.

(** [runCode(code, options)], with [isInteractive] the value of
    [options?.isInteractive ?? false]. *)
Definition runCode (code : string) (isInteractive : bool) (s : state) : state :=
  match pyodide s with
  | None => s
  | Some _ =>
      if isLoading s then s
      else updateEnvironment (runCodeTry code isInteractive (log input code s))
  end.

(** The script of [viewObjectByName].  Its last statement is the [if],
    not an expression, so [runPythonAsync] resolves with [undefined] also
    when [to_json] was called and returned its text; a [to_json] that raises
    makes it reject. *)
Definition viewScript (x : string) (p : py) : Ran py (option SplitJson) :=
  let ran := readGlobal x p in
  {| after := after ran;
     printed := printed ran;
     result := match result ran with
               | Resolved (Some value) =>
                   match toJson value with
                   | NoToJson => Resolved None
                   | ToJsonSplit _ => Resolved None
                   | ToJsonThrows e => Rejected e
                   end
               | Resolved None => Resolved None
               | Rejected e => Rejected e
               end |}.

(** [parsed.columns.forEach((col, j) => { rowObj[col] = row[j]; })] *)
Fixpoint fillRow (cols : list string) (j : Z) (row : list Js.value) (rowObj : Row) : Row :=
  match cols with
  | [] => rowObj
  | col :: rest => fillRow rest (j + 1) row (Js.set col (Js.index row j) rowObj)
  end.

(** [parsed.data.map((row, i) => ...)] *)
Fixpoint tableRows (parsed : SplitJson) (i : Z) (rows : list (list Js.value)) : list Row :=
  match rows with
  | [] => []
  | row :: rest =>
      fillRow (splitColumns parsed) 0 row [("#", Js.index (splitIndex parsed) i)]
      :: tableRows parsed (i + 1) rest
  end.

Definition viewObjectByName (x : string) (s : state) : state :=
  match pyodide s with
  | Some _ =>
      if Js.nonEmptyOf Js.isWordChar x
      then
        let '(s1, tableJson) := await (viewScript x) s in
        match tableJson with
        | Resolved (Some parsed) =>
            setTableData
              (Some {| name := x;
                       columns := Some (List.map Js.Str ("#" :: splitColumns parsed));
                       data := Some (tableRows parsed 0 (splitData parsed)) |}) s1
        | Resolved None =>
            log stderr ("Could not view object '" ++ x ++ "': "
                        ++ "Object '" ++ x ++ "' is not a DataFrame or does not exist.") s1
        | Rejected e =>
            log stderr ("Could not view object '" ++ x ++ "': " ++ e) s1
        end
      else log stderr ("Error: Invalid object name for viewer: " ++ x) s
  | None => log stderr ("Error: Invalid object name for viewer: " ++ x) s
  end.

(** The script of [viewPlotByName]: the value of [plot_b64]. *)
Definition plotScript (x : string) (p : py) : Ran py (option string) :=
  let ran := readGlobal x p in
  {| after := after ran;
     printed := printed ran;
     result := match result ran with
               | Resolved (Some value) =>
                   if isFigure value
                   then match savefig value with
                        | Resolved b64 => Resolved (Some b64)
                        | Rejected e => Rejected e
                        end
                   else Resolved None
               | Resolved None => Resolved None
               | Rejected e => Rejected e
               end |}.

Definition viewPlotByName (x : string) (s : state) : state :=
  let notAFigure (s1 : state) :=
    log stderr ("Could not view plot object '" ++ x ++ "': "
                ++ "Object '" ++ x ++ "' is not a Figure or does not exist.") s1 in
  match pyodide s with
  | Some _ =>
      if Js.nonEmptyOf Js.isWordChar x
      then
        let '(s1, b64string) := await (plotScript x) s in
        match b64string with
        | Resolved (Some b64) =>
            if String.eqb b64 "" then notAFigure s1
            else
              setPlots (plots s1 ++ [mkPlot (plotId (plotIdCounter s1))
                                            ("data:image/png;base64," ++ b64)])
                (setPlotIdCounter (S (plotIdCounter s1)) s1)
        | Resolved None => notAFigure s1
        | Rejected e =>
            log stderr ("Could not view plot object '" ++ x ++ "': " ++ e) s1
        end
      else log stderr ("Error: Invalid object name for viewer: " ++ x) s
  | None => log stderr ("Error: Invalid object name for viewer: " ++ x) s
  end.

Definition clearPlots (s : state) : state := setPlots [] s.
Definition clearTable (s : state) : state := setTableData None s.
Definition clearConsole (s : state) : state := setConsoleOutput [] s.

(** The operations the hook returns. *)
Inductive op : Type :=
| RunCode (code : string) (isInteractive : bool)
| ViewObjectByName (x : string)
| ViewPlotByName (x : string)
| ClearPlots
| ClearTable
| ClearConsole.

Definition perform (o : op) (s : state) : state :=
  match o with
  | RunCode code isInteractive => runCode code isInteractive s
  | ViewObjectByName x => viewObjectByName x s
  | ViewPlotByName x => viewPlotByName x s
  | ClearPlots => clearPlots s
  | ClearTable => clearTable s
  | ClearConsole => clearConsole s
  end.

(** A sequence of operations, first to last. *)
Definition performAll (ops : list op) (s : state) : state :=
  List.fold_left (fun acc o => perform o acc) ops s.

(** *** Relations between states

    The console of [s'] is the console of [s] with lines added at the end. *)
Definition extends (s s' : state) : Prop :=
  exists more, consoleOutput s' = (consoleOutput s ++ more)%list.

(** The snapshot [updateEnvironment] leaves when it finds the interpreter
    in state [q]: the result of the script, or the snapshot [old] it had when
    the script raises. *)
Definition refreshedFrom (q : py) (old : gmap string PythonEnvObject)
  : gmap string PythonEnvObject :=
  match result (inspectScope q) with
  | Resolved env => env
  | Rejected _ => old
  end.

(** No entry is named with a leading underscore or describes a module. *)
Definition wellFiltered (env : gmap string PythonEnvObject) : Prop :=
  forall x entry, env !! x = Some entry ->
    startsWithUnderscore x = false /\ envType entry <> "module".

(** Every figure open in the interpreter has its picture among the plots. *)
Definition capturesOpenFigures (s : state) : Prop :=
  forall q pictures picture,
    pyodide s = Some q ->
    result (renderFigures q) = Resolved pictures ->
    In picture pictures ->
    exists plot, In plot (plots s)
                 /\ dataUrl plot = ("data:image/png;base64," ++ picture)%string.

(** No figure is open in the interpreter. *)
Definition figureSetEmpty (s : state) : Prop :=
  forall q, pyodide s = Some q -> result (renderFigures q) = Resolved [].

(** Nothing but the console, the interpreter handle and [isEnvLoading]
    differs between [s] and [s']. *)
Definition keeps (s s' : state) : Prop :=
  plots s' = plots s /\ tableData s' = tableData s
  /\ plotIdCounter s' = plotIdCounter s /\ isLoading s' = isLoading s
  /\ environment s' = environment s /\ extends s s'.

(** The console lines the two [batched] handlers make of what an
    interpreter call prints. *)
Definition shown (out : list Batched) : list ConsoleOutput :=
  List.map (fun b => mkLine (stream b) (msg b))
    (List.filter (fun b => negb (String.eqb (msg b) "")) out).

(** *** Start-up *)

Definition setIsLoading (b : bool) (s : state) : state :=
  mk (pyodide s) (plotIdCounter s) b (isEnvLoading s) (consoleOutput s)
     (environment s) (tableData s) (plots s).

(** The hook before its effect has run: the module-level variables and
    the initial values of the state cells. *)
Definition initial : state := mk None 0 true true [] ∅ None [].

(** What the page provides to start the interpreter: the promise of
    [window.loadPyodide], and [loadPackage(['pandas', 'matplotlib'])] on
    the interpreter it resolves with. *)
Record Loader : Type := mkLoader {
  loadPyodide : outcome py;
  loadPackage : py -> Ran py unit
}.

(** The [catch] block of [initializePyodide]. *)
Definition failedToInitialize (e : string) (s : state) : state :=
  setIsLoading false (log stderr ("Failed to initialize Pyodide: " ++ e) s).

(** [initializePyodide], the body of the effect registered with an empty
    dependency list.  The two stream handlers are installed as soon as the
    interpreter is there. *)
Definition initializePyodide (L : Loader) (s : state) : state :=
  match pyodide s with
  | Some _ => setIsLoading false s
  | None =>
      let s1 := setConsoleOutput [mkLine system "Initializing Pyodide..."]
                  (setIsLoading true s) in
      match loadPyodide L with
      | Rejected e => failedToInitialize e s1
      | Resolved p =>
          let s2 := log system "Loading packages..." (setPyodide (Some p) s1) in
          let '(s3, loaded) := await (loadPackage L) s2 in
          match loaded with
          | Rejected e => failedToInitialize e s3
          | Resolved _ =>
              updateEnvironment
                (log system "Pyodide Initialized. Ready to execute Python code."
                   (setIsLoading false s3))
          end
      end
  end.

(** Whether [runCode] goes past its first line. *)
Definition ready (s : state) : bool :=
  match pyodide s with
  | Some _ => negb (isLoading s)
  | None => false
  end.

End Hook.

End UsePyodide.

(** ** The R backend ([useWebR]) *)

Module UseWebR.

(** A plain object used as a dictionary and filled by [o[k] = v]: its own
    properties, and the object a write to [__proto__] installed as its
    prototype. *)
Record Dict (V : Type) : Type := mkDict {
  own : gmap string V;
  proto : option V
}.
Arguments mkDict {V} own proto.
Arguments own {V} _.
Arguments proto {V} _.

Definition emptyDict {V : Type} : Dict V := mkDict ∅ None.

(** [o[k] = v] for an object [v].  A write to [__proto__] replaces the
    prototype, unless the object has an own property of that name. *)
Definition assign {V : Type} (k : string) (v : V) (o : Dict V) : Dict V :=
  if String.eqb k "__proto__" && negb (bool_decide (is_Some (own o !! k)))
  then mkDict (own o) (Some v)
  else mkDict (<[k := v]> (own o)) (proto o).

(** [o[k] = v] for a string [v]: a primitive written to [__proto__] is
    ignored. *)
Definition assignPrimitive {V : Type} (k : string) (v : V) (o : Dict V) : Dict V :=
  if String.eqb k "__proto__" && negb (bool_decide (is_Some (own o !! k)))
  then o
  else mkDict (<[k := v]> (own o)) (proto o).

(** [{ ...o, [k]: v }]: a new object with the own properties of [o] and an
    own property [k]. *)
Definition spreadWith {V : Type} (k : string) (v : V) (o : Dict V) : Dict V :=
  mkDict (<[k := v]> (own o)) None.

Record EnvObject : Type := mkEnvObject {
  objectType : Js.value;
  class : list Js.value;
  str : string
}.

(** What [rObjectToTable] returns when it does not return [null]. *)
Record Table : Type := mkRTable {
  tData : list Row;
  tColumns : list Js.value
}.

(** What [viewableDataFrames[name]] evaluates to. *)
Inductive Found : Type :=
| FoundTable (t : Table)     (* a stored table *)
| FoundOther                 (* some other truthy value, inherited *)
| FoundNothing.              (* [undefined] *)

Definition fromObjectPrototype (k : string) : Found :=
  match Js.inherited k with
  | Some _ => FoundOther
  | None => FoundNothing
  end.

Definition find (k : string) (o : Dict Table) : Found :=
  match own o !! k with
  | Some t => FoundTable t
  | None =>
      match proto o with
      | Some t =>
          if String.eqb k "__proto__" then FoundTable t
          else if String.eqb k "data" || String.eqb k "columns" then FoundOther
          else fromObjectPrototype k
      | None => fromObjectPrototype k
      end
  end.

(** *** [rObjectToTable] *)

(** [jsObject.type === 'list' && Array.isArray(jsObject.names) &&
    Array.isArray(jsObject.values)] for an object that is not [null]. *)
Definition isRList (v : Js.value) : bool :=
  Js.typeofObject v && negb (Js.isNull v)
  && Js.isStr "list" (Js.prop "type" v)
  && Js.isArray (Js.prop "names" v)
  && Js.isArray (Js.prop "values" v).

(** [x?.values] *)
Definition optValues (x : Js.value) : Js.value :=
  match x with
  | Js.Undefined | Js.Null => Js.Undefined
  | _ => Js.prop "values" x
  end.

(** [x?.length] *)
Definition optLength (x : Js.value) : Js.value :=
  match x with
  | Js.Undefined | Js.Null => Js.Undefined
  | _ => Js.lengthOf x
  end.

(** [i < n] for a number [i] and the value [n] of a [length] property. *)
Definition below (i : Z) (n : Js.value) : bool :=
  match n with
  | Js.Num z => i <? z
  | _ => false
  end.

(** The inner [for] loop: one row. *)
Fixpoint fillRow (i : Z) (cols : list Js.value) (j : Z) (values : list Js.value)
    (row : Row) : Row :=
  match cols with
  | [] => row
  | colName :: rest =>
      let colData := Js.index values j in
      let cell :=
        if Js.truthy colName && Js.truthy (optValues colData)
           && below i (Js.lengthOf (Js.prop "values" colData))
        then Js.elem (Js.prop "values" colData) i
        else Js.Null in
      fillRow i rest (j + 1) values (Js.set (Js.toString colName) cell row)
  end.

(** The outer [for] loop, for the rows [i], [i+1], ... *)
Fixpoint fillRows (count : nat) (i : Z) (cols values : list Js.value) : list Row :=
  match count with
  | O => []
  | S count' => fillRow i cols 0 values [] :: fillRows count' (i + 1) cols values
  end.

Definition rObjectToTable (jsObject : Js.value) : option Table :=
  if negb (isRList jsObject) then None
  else
    let cols := Js.elements (Js.prop "names" jsObject) in
    let values := Js.elements (Js.prop "values" jsObject) in
    if (Z.of_nat (List.length cols) =? 0) || (Z.of_nat (List.length values) =? 0)
    then Some (mkRTable [] cols)
    else
      let nRows :=
        let n := optLength (optValues (Js.index values 0)) in
        if Js.truthy n then n else Js.Num 0 in
      match nRows with
      | Js.Num n =>
          if n =? 0 then Some (mkRTable [] cols)
          else Some (mkRTable (fillRows (Z.to_nat n) 0 cols values) cols)
      | _ => Some (mkRTable [] cols)
      end.

(** *** The interpreter *)

(** The result of [captureR]: the captured output and, for each captured
    image, the data URL of the canvas it is drawn on ([None] when the
    canvas gives no 2d context). *)
Record CaptureResult : Type := mkCapture {
  output : list (string * string);      (* [type] and [data] of each message *)
  images : list (option string)
}.

(** A [view] message on the channel: what [toJs()] makes of the data, and
    the title. *)
Record ViewMessage : Type := mkView {
  viewData : outcome Js.value;
  viewTitle : string
}.

Record Ran (S A : Type) : Type := mkRan {
  after : S;
  viewed : list ViewMessage;
  result : outcome A
}.
Arguments after {S A} _.
Arguments viewed {S A} _.
Arguments result {S A} _.

(** [captureR] runs the wrapped source in the shelter; [inspect] is
    [evalR] on the environment script followed by [toJs()]. *)
Class Interpreter : Type := {
  webr : Type;
  captureR : string -> webr -> Ran webr CaptureResult;
  inspect : webr -> Ran webr Js.value
}.

(** *** The shapes of interpreter values

    What [toJs()] gives for an R list. *)
Definition rList (entries : list (string * Js.value)) : Js.value :=
  Js.Obj [ ("type", Js.Str "list");
           ("names", Js.Arr (List.map (fun e => Js.Str (fst e)) entries));
           ("values", Js.Arr (List.map snd entries)) ].

(** What [toJs()] gives for an atomic vector. *)
Definition rVector (kind : string) (values : list Js.value) : Js.value :=
  Js.Obj [ ("type", Js.Str kind); ("names", Js.Null); ("values", Js.Arr values) ].

(** What [toJs()] gives for the description the environment script builds
    of one binding. *)
Definition details (objectType : string) (classes : list string) (summary : string)
  : Js.value :=
  rList [ ("class", rVector "character" (List.map Js.Str classes));
          ("objectType", rVector "character" [Js.Str objectType]);
          ("str", rVector "character" [Js.Str summary]) ].

(** What [toJs()] gives for a data frame: the list of its columns, each
    a vector with a name, a type and values. *)
Definition dataFrame (cols : list (string * (string * list Js.value))) : Js.value :=
  rList (List.map (fun c => (fst c, rVector (fst (snd c)) (snd (snd c)))) cols).

(** What [toJs()] gives for the list of loaded packages: one version
    string under each name. *)
Definition packageList (pkgs : list (string * string)) : Js.value :=
  rList (List.map (fun p => (fst p, rVector "character" [Js.Str (snd p)])) pkgs).

(** *** The hook *)

Section Hook.
Context {I : Interpreter}.

Record state : Type := mk {
  webR : option webr;          (* the module-level handle *)
  shelter : bool;              (* [shelter.current] is set *)
  plotIdCounter : nat;
  isLoading : bool;
  consoleOutput : list ConsoleOutput;
  environment : Dict EnvObject;
  tableData : option TableData;
  plots : list PlotData;
  packages : Dict string;
  viewableDataFrames : Dict Table
}.

Definition setWebR (w : option webr) (s : state) : state :=
  mk w (shelter s) (plotIdCounter s) (isLoading s) (consoleOutput s)
     (environment s) (tableData s) (plots s) (packages s) (viewableDataFrames s).
Definition setPlotIdCounter (n : nat) (s : state) : state :=
  mk (webR s) (shelter s) n (isLoading s) (consoleOutput s)
     (environment s) (tableData s) (plots s) (packages s) (viewableDataFrames s).
Definition setConsoleOutput (c : list ConsoleOutput) (s : state) : state :=
  mk (webR s) (shelter s) (plotIdCounter s) (isLoading s) c
     (environment s) (tableData s) (plots s) (packages s) (viewableDataFrames s).
Definition setEnvironment (e : Dict EnvObject) (s : state) : state :=
  mk (webR s) (shelter s) (plotIdCounter s) (isLoading s) (consoleOutput s)
     e (tableData s) (plots s) (packages s) (viewableDataFrames s).
Definition setTableData (t : option TableData) (s : state) : state :=
  mk (webR s) (shelter s) (plotIdCounter s) (isLoading s) (consoleOutput s)
     (environment s) t (plots s) (packages s) (viewableDataFrames s).
Definition setPlots (p : list PlotData) (s : state) : state :=
  mk (webR s) (shelter s) (plotIdCounter s) (isLoading s) (consoleOutput s)
     (environment s) (tableData s) p (packages s) (viewableDataFrames s).
Definition setPackages (p : Dict string) (s : state) : state :=
  mk (webR s) (shelter s) (plotIdCounter s) (isLoading s) (consoleOutput s)
     (environment s) (tableData s) (plots s) p (viewableDataFrames s).
Definition setViewableDataFrames (v : Dict Table) (s : state) : state :=
  mk (webR s) (shelter s) (plotIdCounter s) (isLoading s) (consoleOutput s)
     (environment s) (tableData s) (plots s) (packages s) v.

Definition log (t : OutputType) (m : string) (s : state) : state :=
  setConsoleOutput (consoleOutput s ++ [mkLine t m]) s.

(** [{ name, ...table }] *)
Definition tableOf (x : string) (t : Table) : TableData :=
  {| name := x; data := Some (tData t); columns := Some (tColumns t) |}.

Definition handleViewCallback (m : ViewMessage) (s : state) : state :=
  match viewData m with
  | Resolved dataObj =>
      match rObjectToTable dataObj with
      | Some table =>
          setViewableDataFrames
            (spreadWith (viewTitle m) table (viewableDataFrames s))
            (setTableData (Some (tableOf (viewTitle m) table)) s)
      | None => s
      end
  | Rejected _ => s
  end.

(** An awaited call on the interpreter held in [webR], with the [view]
    messages that arrive meanwhile. *)
Definition await {A : Type} (call : webr -> Ran webr A) (s : state)
  : state * outcome A :=
  match webR s with
  | Some w =>
      let ran := call w in
      (List.fold_left (fun acc m => handleViewCallback m acc) (viewed ran)
         (setWebR (Some (after ran)) s),
       result ran)
  | None => (s, Rejected "webR is undefined")
  end.

(** [x && typeof x === 'object' && 'values' in x && Array.isArray(x.values)] *)
Definition hasValues (x : Js.value) : bool :=
  Js.truthy x && Js.typeofObject x && Js.hasProp "values" x
  && Js.isArray (Js.prop "values" x).

(** [typeof x === 'object' && x !== null && 'type' in x && x.type === 'list'
    && 'names' in x && Array.isArray(x.names) && 'values' in x
    && Array.isArray(x.values)] *)
Definition isNamedList (x : Js.value) : bool :=
  Js.typeofObject x && negb (Js.isNull x)
  && Js.hasProp "type" x && Js.isStr "list" (Js.prop "type" x)
  && Js.hasProp "names" x && Js.isArray (Js.prop "names" x)
  && Js.hasProp "values" x && Js.isArray (Js.prop "values" x).

(** [typeof name === 'string' && name] *)
Definition nonEmptyString (x : Js.value) : option string :=
  match x with
  | Js.Str s => if String.eqb s "" then None else Some s
  | _ => None
  end.

(** [details.values[details.names.indexOf(field)]] *)
Definition detail (field : string) (details : Js.value) : Js.value :=
  Js.index (Js.elements (Js.prop "values" details))
           (Js.indexOf field (Js.elements (Js.prop "names" details))).

(** The loop filling [newEnv]: the entries [i], [i+1], ... *)
Fixpoint readEnv (names : list Js.value) (i : Z) (values : list Js.value)
    (newEnv : Dict EnvObject) : Dict EnvObject :=
  match names with
  | [] => newEnv
  | x :: rest =>
      let details := Js.index values i in
      let newEnv' :=
        match nonEmptyString x with
        | Some key =>
            if isNamedList details
            then
              let objectType := detail "objectType" details in
              let class_ := detail "class" details in
              let str := detail "str" details in
              if hasValues objectType && hasValues class_ && hasValues str
              then assign key
                     {| objectType := Js.index (Js.elements (Js.prop "values" objectType)) 0;
                        class := Js.elements (Js.prop "values" class_);
                        str := Js.join " " (Js.elements (Js.prop "values" str)) |}
                     newEnv
              else newEnv
            else newEnv
        | None => newEnv
        end in
      readEnv rest (i + 1) values newEnv'
  end.

(** The loop filling [newPackages]. *)
Fixpoint readPackages (names : list Js.value) (i : Z) (values : list Js.value)
    (newPackages : Dict string) : Dict string :=
  match names with
  | [] => newPackages
  | x :: rest =>
      let versionData := Js.index values i in
      let newPackages' :=
        match nonEmptyString x with
        | Some key =>
            if hasValues versionData
            then match Js.index (Js.elements (Js.prop "values" versionData)) 0 with
                 | Js.Str version => assignPrimitive key version newPackages
                 | _ => newPackages
                 end
            else newPackages
        | None => newPackages
        end in
      readPackages rest (i + 1) values newPackages'
  end.

(** The loop filling [newViewableDataFrames]. *)
Fixpoint readDataFrames (names : list Js.value) (i : Z) (values : list Js.value)
    (frames : Dict Table) : Dict Table :=
  match names with
  | [] => frames
  | x :: rest =>
      let frames' :=
        match rObjectToTable (Js.index values i), x with
        | Some table, Js.Str key => assign key table frames
        | _, _ => frames
        end in
      readDataFrames rest (i + 1) values frames'
  end.

(** The three sections of the script's result.  Each function gives the
    value the hook stores for its section; [old] is kept when the result
    has no such section. *)
Definition envSection (names values : list Js.value) (old : Dict EnvObject)
  : Dict EnvObject :=
  let envIndex := Js.indexOf "env" names in
  if negb (envIndex =? -1)
  then
    let envJs := Js.index values envIndex in
    if isNamedList envJs
    then readEnv (Js.elements (Js.prop "names" envJs)) 0
                 (Js.elements (Js.prop "values" envJs)) emptyDict
    else emptyDict
  else old.

Definition packagesSection (names values : list Js.value) (old : Dict string)
  : Dict string :=
  let packagesIndex := Js.indexOf "packages" names in
  if negb (packagesIndex =? -1)
  then
    let packagesJs := Js.index values packagesIndex in
    if Js.truthy packagesJs && isNamedList packagesJs
    then readPackages (Js.elements (Js.prop "names" packagesJs)) 0
                      (Js.elements (Js.prop "values" packagesJs)) emptyDict
    else old
  else old.

Definition dataframesSection (names values : list Js.value) (old : Dict Table)
  : Dict Table :=
  let dataframesIndex := Js.indexOf "dataframes" names in
  if negb (dataframesIndex =? -1)
  then
    let dfsJs := Js.index values dataframesIndex in
    if Js.truthy dfsJs && isNamedList dfsJs
    then readDataFrames (Js.elements (Js.prop "names" dfsJs)) 0
                        (Js.elements (Js.prop "values" dfsJs)) emptyDict
    else emptyDict
  else old.

(** What [updateEnvironment] does with the value of the script. *)
Definition readResult (resultJs : Js.value) (s : state) : state :=
  if negb (isRList resultJs) then s
  else
    let names := Js.elements (Js.prop "names" resultJs) in
    let values := Js.elements (Js.prop "values" resultJs) in
    setViewableDataFrames (dataframesSection names values (viewableDataFrames s))
      (setPackages (packagesSection names values (packages s))
         (setEnvironment (envSection names values (environment s)) s)).

Definition updateEnvironment (s : state) : state :=
  match webR s with
  | None => s
  | Some _ =>
      let '(s1, resultJs) := await inspect s in
      match resultJs with
      | Resolved v => readResult v s1
      | Rejected _ => s1
      end
  end.

Definition codeToExecute (code : string) : string :=
  newline ++ "      res <- withVisible({" ++ newline
  ++ "        " ++ code ++ newline
  ++ "      });" ++ newline
  ++ "      if (res$visible) {" ++ newline
  ++ "        print(res$value);" ++ newline
  ++ "      }" ++ newline ++ "    ".

(** The [forEach] over [captureResult.output], for one stream. *)
Fixpoint messagesOf (kind : string) (out : list (string * string)) : string :=
  match out with
  | [] => ""
  | (t, d) :: rest =>
      if String.eqb t kind then d ++ newline ++ messagesOf kind rest
      else messagesOf kind rest
  end.

(** The [for] loop over [captureResult.images]. *)
Fixpoint newPlotsFrom (counter : nat) (imgs : list (option string))
  : list PlotData * nat :=
  match imgs with
  | [] => ([], counter)
  | Some url :: rest =>
      let '(more, counter') := newPlotsFrom (S counter) rest in
      (mkPlot (plotId counter) url :: more, counter')
  | None :: rest => newPlotsFrom counter rest
  end.

Definition logIfAny (t : OutputType) (m : string) (s : state) : state :=
  if String.eqb m "" then s else log t m s.

Definition runCode (code : string) (s : state) : state :=
  match webR s with
  | None => s
  | Some _ =>
      if isLoading s || negb (shelter s) then s
      else
        let s0 := log input code s in
        let '(s1, captured) := await (captureR (codeToExecute code)) s0 in
        let s2 :=
          match captured with
          | Resolved captureResult =>
              let stdoutMessages :=
                Js.trimEnd (messagesOf "stdout" (output captureResult)) in
              let stderrMessages :=
                Js.trimEnd (messagesOf "stderr" (output captureResult)) in
              let s1a := logIfAny stdout stdoutMessages s1 in
              let s1b := logIfAny stderr stderrMessages s1a in
              if (0 <? List.length (images captureResult))%nat
              then
                let '(newPlots, counter) :=
                  newPlotsFrom (plotIdCounter s1b) (images captureResult) in
                setPlots (plots s1b ++ newPlots) (setPlotIdCounter counter s1b)
              else s1b
          | Rejected e => log stderr e s1
          end in
        updateEnvironment s2
  end.

Definition viewObjectByName (x : string) (s : state) : state :=
  if negb (Js.nonEmptyOf (fun c => Js.isWordChar c || Ascii.eqb c "."%char) x)
  then log stderr ("Error: Invalid object name for View(): " ++ x) s
  else
    match find x (viewableDataFrames s) with
    | FoundTable t => setTableData (Some (tableOf x t)) s
    | FoundOther => setTableData (Some {| name := x; data := None; columns := None |}) s
    | FoundNothing =>
        log stderr ("Data for object '" ++ x
                    ++ "' not found. It might not be a data.frame or is not in the global environment.") s
    end.

Definition clearPlots (s : state) : state := setPlots [] s.
Definition clearTable (s : state) : state := setTableData None s.
Definition clearConsole (s : state) : state := setConsoleOutput [] s.

Inductive op : Type :=
| RunCode (code : string)
| ViewObjectByName (x : string)
| ClearPlots
| ClearTable
| ClearConsole.

Definition perform (o : op) (s : state) : state :=
  match o with
  | RunCode code => runCode code s
  | ViewObjectByName x => viewObjectByName x s
  | ClearPlots => clearPlots s
  | ClearTable => clearTable s
  | ClearConsole => clearConsole s
  end.

(** A sequence of operations, first to last. *)
Definition performAll (ops : list op) (s : state) : state :=
  List.fold_left (fun acc o => perform o acc) ops s.

(** The snapshot [updateEnvironment] leaves when it finds the interpreter
    in state [w]: the [env] section of the script's value, or the snapshot
    [old] it had when there is none. *)
Definition refreshedFrom (w : webr) (old : Dict EnvObject) : Dict EnvObject :=
  match result (inspect w) with
  | Resolved v =>
      if isRList v
      then envSection (Js.elements (Js.prop "names" v))
                      (Js.elements (Js.prop "values" v)) old
      else old
  | Rejected _ => old
  end.

(** *** Relations between states

    [s'] has the console, the plots and the flags of [s]. *)
Definition keeps (s s' : state) : Prop :=
  consoleOutput s' = consoleOutput s /\ plots s' = plots s
  /\ plotIdCounter s' = plotIdCounter s /\ isLoading s' = isLoading s
  /\ shelter s' = shelter s.

(** The [data] fields of the captured messages of one stream, in order. *)
Definition dataOf (kind : string) (out : list (string * string)) : list string :=
  List.map snd (List.filter (fun m => String.eqb (fst m) kind) out).

(** The console line [runCode] writes for one stream of the captured
    output, if any. *)
Definition capturedLine (t : OutputType) (kind : string) (out : list (string * string))
  : list ConsoleOutput :=
  let text := Js.trimEnd (Js.joinWith newline (dataOf kind out)) in
  if String.eqb text "" then [] else [mkLine t text].

(** *** Start-up *)

Definition setIsLoading (b : bool) (s : state) : state :=
  mk (webR s) (shelter s) (plotIdCounter s) b (consoleOutput s)
     (environment s) (tableData s) (plots s) (packages s) (viewableDataFrames s).
Definition setShelter (b : bool) (s : state) : state :=
  mk (webR s) b (plotIdCounter s) (isLoading s) (consoleOutput s)
     (environment s) (tableData s) (plots s) (packages s) (viewableDataFrames s).

(** The hook before its effect has run. *)
Definition initial : state :=
  mk None false 0 true [] emptyDict None [] emptyDict emptyDict.

(** What the [webr] package provides to start the interpreter:
    [new WebR()], [webR.init()], [new webR.Shelter()] and
    [webR.evalRVoid(code)]. *)
Record Loader : Type := mkLoader {
  newWebR : outcome webr;
  init : webr -> Ran webr unit;
  newShelter : webr -> Ran webr unit;
  evalRVoid : string -> webr -> Ran webr unit
}.

(** An awaited call made before the handler of [view] messages is
    installed. *)
Definition awaitUnheard {A : Type} (call : webr -> Ran webr A) (s : state)
  : state * outcome A :=
  match webR s with
  | Some w => (setWebR (Some (after (call w))) s, result (call w))
  | None => (s, Rejected "webR is undefined")
  end.

(** The [catch] block of [initializeWebR]. *)
Definition failedToInitialize (e : string) (s : state) : state :=
  setIsLoading false (log stderr ("Failed to initialize WebR: " ++ e) s).

(** [initializeWebR], the body of the effect registered with an empty
    dependency list. *)
Definition initializeWebR (L : Loader) (s : state) : state :=
  match webR s with
  | Some _ => setIsLoading false s
  | None =>
      match newWebR L with
      | Rejected e => failedToInitialize e s
      | Resolved w =>
          let s1 := setConsoleOutput [mkLine system "Initializing WebR..."]
                      (setIsLoading true (setWebR (Some w) s)) in
          let '(s2, started) := awaitUnheard (init L) s1 in
          match started with
          | Rejected e => failedToInitialize e s2
          | Resolved _ =>
              let '(s3, sheltered) := awaitUnheard (newShelter L) s2 in
              match sheltered with
              | Rejected e => failedToInitialize e s3
              | Resolved _ =>
                  let s4 := log system "Setting up communication channels..."
                              (setShelter true s3) in
                  let '(s5, shimmed) :=
                    awaitUnheard (evalRVoid L "webr::shim_install()") s4 in
                  match shimmed with
                  | Rejected e => failedToInitialize e s5
                  | Resolved _ =>
                      let '(s6, canvas) :=
                        awaitUnheard
                          (evalRVoid L "webr::canvas(width = 600, height = 500)") s5 in
                      match canvas with
                      | Rejected e => failedToInitialize e s6
                      | Resolved _ =>
                          updateEnvironment
                            (log system "WebR Initialized. Ready to execute R code."
                               (setIsLoading false s6))
                      end
                  end
              end
          end
      end
  end.

(** Whether [runCode] goes past its first line. *)
Definition ready (s : state) : bool :=
  match webR s with
  | Some _ => negb (isLoading s) && shelter s
  | None => false
  end.

End Hook.

End UseWebR.

(** ** The table viewer ([ViewerPanel] of both right panels) *)

(** [items.sort(compareFn)]: the element order a stable insertion sort
    produces.  [compareFn(a, b) <= 0] keeps [a] before [b]. *)
Module ArraySort.

Section Sort.
Context {A : Type} (compareFn : A -> A -> Z).

Fixpoint insert (x : A) (sorted : list A) : list A :=
  match sorted with
  | [] => [x]
  | y :: rest =>
      if compareFn x y <=? 0 then x :: y :: rest else y :: insert x rest
  end.

Definition sort (items : list A) : list A :=
  List.fold_right insert [] items.

End Sort.

End ArraySort.

Module ViewerPanel.

Inductive SortDirection : Type := ascending | descending.

Record SortConfig : Type := mkSort {
  key : option string;
  direction : SortDirection
}.

(** Arrays are objects in memory: [items.sort] rearranges the array it is
    called on, and every holder of that array sees the new order.  The
    memory holds the arrays of rows, each at its location. *)
Abbreviation memory := (list (list Row)) (only parsing).

(** The [tableData] prop as the panel holds it: [data] is the location of
    the array of rows, [None] when the property is [undefined]. *)
Record TableProp : Type := mkProp {
  propName : string;
  propData : option nat;
  propColumns : option (list Js.value)
}.

(** A table of the hooks, handed to the panel: its rows are one array in
    memory. *)
Definition hold (t : TableData) (m : memory) : memory * TableProp :=
  match data t with
  | Some rows => ((m ++ [rows])%list, mkProp (name t) (Some (List.length m)) (columns t))
  | None => (m, mkProp (name t) None (columns t))
  end.

(** The component: the [tableData] prop and the [sortConfig] state. *)
Record panel : Type := mkPanel {
  tableData : option TableProp;
  sortConfig : SortConfig
}.

(** [[...items]]: a new array with the elements of the array at [l]. *)
Definition spread (l : nat) (m : memory) : memory * nat :=
  ((m ++ [match m !! l with Some rows => rows | None => [] end])%list, List.length m).

(** [items.sort(compareFn)] on the array at [l]. *)
Definition sortInPlace (compareFn : Row -> Row -> Z) (l : nat) (m : memory) : memory :=
  match m !! l with
  | Some rows => <[l := ArraySort.sort compareFn rows]> m
  | None => m
  end.

Definition initialSort : SortConfig := mkSort None ascending.

(** [v === null || v === undefined] *)
Definition nullish (v : Js.value) : bool :=
  match v with
  | Js.Null | Js.Undefined => true
  | _ => false
  end.

(** The comparison function handed to [sort]. *)
Definition compareRows (k : string) (d : SortDirection) (a b : Row) : Z :=
  let valA := Js.get k a in
  let valB := Js.get k b in
  if nullish valA then 1
  else if nullish valB then -1
  else
    match valA, valB with
    | Js.Num x, Js.Num y =>
        match d with ascending => x - y | descending => y - x end
    | _, _ =>
        let strA := Js.toLowerCase (Js.toString valA) in
        let strB := Js.toLowerCase (Js.toString valB) in
        if Js.ltString strA strB
        then match d with ascending => -1 | descending => 1 end
        else if Js.ltString strB strA
             then match d with ascending => 1 | descending => -1 end
             else 0
    end.

(** [sortedData]: the location of the array the panel displays, and the
    memory after computing it. *)
Definition sortedData (p : panel) (m : memory) : memory * nat :=
  match tableData p with
  | Some t =>
      match propData t with
      | Some l =>
          let '(m1, sortableItems) := spread l m in
          match key (sortConfig p) with
          | Some k =>
              (sortInPlace (compareRows k (direction (sortConfig p))) sortableItems m1,
               sortableItems)
          | None => (m1, sortableItems)
          end
      | None => ((m ++ [[]])%list, List.length m)
      end
  | None => ((m ++ [[]])%list, List.length m)
  end.

(** The rows the panel displays. *)
Definition displayed (p : panel) (m : memory) : list Row :=
  match fst (sortedData p m) !! snd (sortedData p m) with
  | Some rows => rows
  | None => []
  end.

Definition sameKey (a : option string) (b : string) : bool :=
  match a with
  | Some x => String.eqb x b
  | None => false
  end.

Definition requestSort (k : string) (p : panel) : panel :=
  let d :=
    if sameKey (key (sortConfig p)) k
       && match direction (sortConfig p) with ascending => true | descending => false end
    then descending
    else ascending in
  {| tableData := tableData p; sortConfig := mkSort (Some k) d |}.

(** *** The order the rows are meant to be in *)

(** [a] may stand before [b] when sorting in direction [d]: by number when
    both are numbers, otherwise by their lower-cased texts. *)
Definition precedes (d : SortDirection) (a b : Js.value) : Prop :=
  match a, b with
  | Js.Num x, Js.Num y =>
      match d with ascending => x <= y | descending => y <= x end
  | _, _ =>
      let strA := Js.toLowerCase (Js.toString a) in
      let strB := Js.toLowerCase (Js.toString b) in
      match d with
      | ascending => Js.ltString strB strA = false
      | descending => Js.ltString strA strB = false
      end
  end.

(** Row [a] may be displayed directly above row [b]. *)
Definition above (k : string) (d : SortDirection) (a b : Row) : Prop :=
  nullish (Js.get k b) = true
  \/ (nullish (Js.get k a) = false /\ nullish (Js.get k b) = false
      /\ precedes d (Js.get k a) (Js.get k b)).

(** The column [k] holds numbers only, apart from empty cells. *)
Definition numericColumn (k : string) (rows : list Row) : Prop :=
  Forall (fun row => nullish (Js.get k row) = true
                     \/ exists z, Js.get k row = Js.Num z) rows.

(** The column [k] holds no number. *)
Definition textColumn (k : string) (rows : list Row) : Prop :=
  Forall (fun row => forall z, Js.get k row <> Js.Num z) rows.

End ViewerPanel.

(** ** The plot viewer ([PlotPanel] of both right panels) *)

Module PlotPanel.

(** The two panels differ in the name of the exported file and in the
    arrow keys, which only the R panel handles. *)
Inductive flavour : Type := RPlots | PythonPlots.

(** The component: the [plots] prop and the [currentPlotIndex] state. *)
Record panel : Type := mk {
  plots : list PlotData;
  currentPlotIndex : Z
}.

Definition count (p : panel) : Z := Z.of_nat (List.length (plots p)).

(** The body of the effect registered with [[plots.length]]. *)
Definition lengthEffect (p : panel) : panel :=
  if 0 <? count p then mk (plots p) (count p - 1) else p.

(** The first render of a panel that is handed [plots], and its effect. *)
Definition mount (plots : list PlotData) : panel := lengthEffect (mk plots 0).

(** A later render with the [plots] prop at [newPlots]; the effect runs
    when the length differs from the one of the render before. *)
Definition render (newPlots : list PlotData) (p : panel) : panel :=
  let p' := mk newPlots (currentPlotIndex p) in
  if Nat.eqb (List.length newPlots) (List.length (plots p)) then p' else lengthEffect p'.

Definition handleNextPlot (p : panel) : panel :=
  mk (plots p) (Z.min (currentPlotIndex p + 1) (count p - 1)).

Definition handlePrevPlot (p : panel) : panel :=
  mk (plots p) (Z.max (currentPlotIndex p - 1) 0).

Inductive key : Type := ArrowRight | ArrowLeft | OtherKey.

(** [handleKeyDown] of the R panel. *)
Definition handleKeyDown (e : key) (p : panel) : panel :=
  if count p <=? 1 then p
  else match e with
       | ArrowRight => handleNextPlot p
       | ArrowLeft => handlePrevPlot p
       | OtherKey => p
       end.

(** [plots[currentPlotIndex]] *)
Definition currentPlot (p : panel) : option PlotData :=
  if currentPlotIndex p <? 0 then None
  else nth_error (plots p) (Z.to_nat (currentPlotIndex p)).

(** [handleExportPlot]: the [download] and the [href] of the link that is
    clicked, if any. *)
Definition handleExportPlot (f : flavour) (p : panel) : option (string * string) :=
  match currentPlot p with
  | Some plot =>
      Some (match f with RPlots => "R-plot-" | PythonPlots => "python-plot-" end
            ++ pretty (currentPlotIndex p + 1) ++ ".png",
            dataUrl plot)
  | None => None
  end.

(** What the user and the parent do to a mounted panel.  The panel draws
    its controls only when there is a plot, the two arrow buttons only when
    there are several; an arrow button at its end of the list is disabled.
    The [Clear Plots] button calls [onClear], after which the parent hands
    down an empty list. *)
Inductive event : Type :=
| Render (newPlots : list PlotData)
| ClickNext
| ClickPrev
| KeyDown (e : key)
| ClickClear.

Definition step (f : flavour) (ev : event) (p : panel) : panel :=
  match ev with
  | Render newPlots => render newPlots p
  | ClickNext =>
      if (1 <? count p) && negb (currentPlotIndex p =? count p - 1)
      then handleNextPlot p else p
  | ClickPrev =>
      if (1 <? count p) && negb (currentPlotIndex p =? 0)
      then handlePrevPlot p else p
  | KeyDown e =>
      match f with
      | RPlots => if 0 <? count p then handleKeyDown e p else p
      | PythonPlots => p
      end
  | ClickClear =>
      if 0 <? count p then render [] (mk (plots p) 0) else p
  end.

(** A sequence of events, first to last. *)
Definition stepAll (f : flavour) (events : list event) (p : panel) : panel :=
  List.fold_left (fun acc ev => step f ev acc) events p.

(** There is no plot, or the index is the index of a plot. *)
Definition inRange (p : panel) : Prop :=
  plots p = [] \/ 0 <= currentPlotIndex p < count p.

End PlotPanel.

(** ** The console input of [PythonRightPanel] *)

Module PythonConsolePanel.

Inductive key : Type := Enter | OtherKey.

(** [handleKeyDown]: the new [inputValue] and the text handed to
    [runCode], if any. *)
Definition handleKeyDown (e : key) (inputValue : string) : string * option string :=
  match e with
  | Enter =>
      if negb (String.eqb (Js.trim inputValue) "")
      then ("", Some inputValue)
      else (inputValue, None)
  | OtherKey => (inputValue, None)
  end.

Section Wired.
Context {I : UsePyodide.Interpreter}.

(** The panel on top of the hook.  [runCode] is called with the text
    alone, so [options] is [undefined] and [isInteractive] is [false]. *)
Definition press (e : key) (inputValue : string) (s : UsePyodide.state)
  : string * UsePyodide.state :=
  match handleKeyDown e inputValue with
  | (next, Some code) => (next, UsePyodide.runCode code false s)
  | (next, None) => (next, s)
  end.

End Wired.

End PythonConsolePanel.

(** ** Two small interpreters

    Instances of the two interpreter classes, used to run the hooks on
    concrete sessions. *)

(** A source text of several lines. *)
Definition program (lines : list string) : string := Js.joinWith newline lines.

Fixpoint splitLinesFrom (current : string) (s : string) : list string :=
  match s with
  | EmptyString => [current]
  | String c rest =>
      if Ascii.eqb c (ascii_of_nat 10) then current :: splitLinesFrom "" rest
      else splitLinesFrom (current ++ String c EmptyString) rest
  end.

Definition splitLines (s : string) : list string := splitLinesFrom "" s.

Module ToyPython.
Import UsePyodide.

(** Global bindings, the names of the builtins, and the numbers of the
    open figures in increasing order. *)
Record toy : Type := mkToy {
  scope : list (string * PyValue);
  builtins : list string;
  openFigures : list nat
}.

Fixpoint openFigure (n : nat) (figs : list nat) : list nat :=
  match figs with
  | [] => [n]
  | m :: rest =>
      if (n =? m)%nat then figs
      else if (n <? m)%nat then n :: figs
      else m :: openFigure n rest
  end.

Definition setFigures (figs : list nat) (t : toy) : toy :=
  mkToy (scope t) (builtins t) figs.

(** The picture of figure [n], base64-encoded. *)
Definition picture (n : nat) : string := "PNG" ++ pretty n.

Inductive effect : Type :=
| Goes (t : toy) (out : list Batched)
| Raises (t : toy) (e : string).

(** One statement.  Anything that is not listed does nothing. *)
Definition statement (line : string) (t : toy) : effect :=
  if String.eqb line "plt.figure(1)" then Goes (setFigures (openFigure 1 (openFigures t)) t) []
  else if String.eqb line "plt.figure(2)" then Goes (setFigures (openFigure 2 (openFigures t)) t) []
  else if String.eqb line "plt.plot([3, 1, 2])"
       then Goes (match openFigures t with
                  | [] => setFigures [1%nat] t
                  | _ => t
                  end) []
  else if String.eqb line "print('hello')" then Goes t [mkBatched stdout "hello"]
  else if String.eqb line "raise ValueError('boom')" then Raises t "ValueError: boom"
  else Goes t [].

Fixpoint statements (lines : list string) (t : toy) (out : list Batched)
  : Ran toy unit :=
  match lines with
  | [] => mkRan _ _ t out (Resolved tt)
  | line :: rest =>
      match statement line t with
      | Goes t' more => statements rest t' (out ++ more)
      | Raises t' e => mkRan _ _ t' out (Rejected e)
      end
  end.

Fixpoint lookup (x : string) (bindings : list (string * PyValue)) : option PyValue :=
  match bindings with
  | [] => None
  | (y, v) :: rest => if String.eqb x y then Some v else lookup x rest
  end.

#[export] Instance interpreter : Interpreter := {|
  py := toy;
  runUser code t := statements (splitLines code) t [];
  closeAll t := mkRan _ _ (setFigures [] t) [] (Resolved tt);
  renderFigures t := mkRan _ _ t [] (Resolved (List.map picture (openFigures t)));
  prepareScope t := mkRan _ _ t [] (Resolved (builtins t));
  readGlobal x t := mkRan _ _ t [] (Resolved (lookup x (scope t)));
  reprStr text := "'" ++ text ++ "'";
  globals t := scope t;
  assign x v t := mkToy (setItem x v (scope t)) (builtins t) (openFigures t);
  globals_assign x v t := eq_refl
|}.

Definition plain (typeName repr : string) : PyValue :=
  mkValue typeName (ReprText repr) false false NoToJson (Rejected "not a figure").

(** [pd.DataFrame({'a': [1, 2], 'b': [3, 4]})] *)
Definition frame : PyValue :=
  mkValue "DataFrame" (ReprText "   a  b") true false
    (ToJsonSplit (mkSplit ["a"; "b"] [Js.Num 0; Js.Num 1]
                    [[Js.Num 1; Js.Num 3]; [Js.Num 2; Js.Num 4]]))
    (Rejected "not a figure").

(** A value whose [repr] raises [RuntimeError]. *)
Definition broken : PyValue :=
  mkValue "Broken" ReprException false false NoToJson (Rejected "not a figure").

(** A string of [n] letters. *)
Fixpoint letters (n : nat) : string :=
  match n with
  | O => EmptyString
  | S n' => String "a"%char (letters n')
  end.

(** A session before its first refresh. *)
Definition fresh : toy :=
  mkToy [ ("__name__", plain "str" "'__main__'");
          ("np", plain "module" "<module 'numpy'>");
          ("x", plain "int" "5");
          ("df", frame);
          ("long", plain "str" (letters 101));
          ("bad", broken);
          ("_tmp", plain "int" "1") ]
        ["print"; "len"; "abs"]
        [].

(** The same session later on, when the environment script has bound its
    loop variables. *)
Definition session : toy :=
  mkToy (scope fresh
         ++ [ ("name", plain "str" "'_tmp'");
              ("value", plain "int" "1");
              ("repr_val", plain "str" "'<Broken>'") ])%list
        (builtins fresh)
        [].

(** The hook once the interpreter is loaded, with an empty console. *)
Definition ready (t : toy) : state :=
  UsePyodide.mk (Some t) 0 false false [] ∅ None [].

(** A page on which the interpreter loads, printing one message while the
    packages are fetched. *)
Definition loader : Loader :=
  mkLoader (Resolved session)
           (fun t => mkRan _ _ t [mkBatched stdout "Loading pandas, matplotlib"]
                       (Resolved tt)).

(** A page on which [loadPyodide] fails. *)
Definition offline : Loader :=
  mkLoader (Rejected "Failed to fetch") (fun t => mkRan _ _ t [] (Resolved tt)).

(** A page on which the interpreter loads and the packages do not. *)
Definition noPackages : Loader :=
  mkLoader (Resolved session)
           (fun t => mkRan _ _ t [] (Rejected "No known package with name 'pandas'")).

(** A figure whose picture is [AAAA]. *)
Definition figure : PyValue :=
  mkValue "Figure" (ReprText "<Figure size 640x480 with 1 Axes>") false true NoToJson
    (Resolved "AAAA").

(** A session holding the figure [fig] and the number [x]. *)
Definition gallery : toy :=
  mkToy [ ("fig", figure); ("x", plain "int" "5") ] [] [].

End ToyPython.

Module ToyR.
Import UseWebR.

(** The value the environment script evaluates to. *)
Record toy : Type := mkToy {
  report : Js.value
}.

Definition runs (code : string) (source : string) : bool :=
  String.eqb code (codeToExecute source).

Definition picture : string := "data:image/png;base64,AAAA".

Definition capture (code : string) (t : toy) : Ran toy CaptureResult :=
  if runs code "plot(1:10)"
  then mkRan _ _ t [] (Resolved (mkCapture [] [Some picture]))
  else if runs code "print('hello')"
  then mkRan _ _ t [] (Resolved (mkCapture [("stdout", "[1] 'hello'")] []))
  else if runs code "plot(1:10); stop('boom')"
  then mkRan _ _ t [] (Rejected "Error: boom")
  else mkRan _ _ t [] (Resolved (mkCapture [] [])).

#[export] Instance interpreter : Interpreter := {|
  webr := toy;
  captureR := capture;
  inspect t := mkRan _ _ t [] (Resolved (report t))
|}.

(** [data.frame(a = c(1, 2), b = c(3, 4))] *)
Definition frame : Js.value :=
  rList [ ("a", rVector "double" [Js.Num 1; Js.Num 2]);
          ("b", rVector "double" [Js.Num 3; Js.Num 4]) ].

(** A session holding the data frame [df]. *)
Definition session : toy :=
  mkToy (rList [ ("env", rList [ ("df", details "variable" ["data.frame"]
                                          "'data.frame': 2 obs. of  2 variables:") ]);
                 ("packages", rList [ ("base", rVector "character" [Js.Str "4.4.1"]) ]);
                 ("dataframes", rList [ ("df", frame) ]) ]).

(** A session holding a string [x] whose summary line has 120 characters. *)
Definition wordy : toy :=
  mkToy (rList [ ("env", rList [ ("x", details "variable" ["character"]
                                          (ToyPython.letters 120)) ]);
                 ("packages", rList []);
                 ("dataframes", rList []) ]).

Definition ready (t : toy) : state :=
  UseWebR.mk (Some t) true 0 false [] emptyDict None [] emptyDict emptyDict.

Definition quiet (t : toy) : Ran toy unit := mkRan _ _ t [] (Resolved tt).

(** A page on which every step of the start-up succeeds. *)
Definition loader : Loader :=
  mkLoader (Resolved session) quiet quiet (fun _ => quiet).

(** A page on which [webR.init()] fails. *)
Definition noInit : Loader :=
  mkLoader (Resolved session) (fun t => mkRan _ _ t [] (Rejected "init failed"))
           quiet (fun _ => quiet).

(** A page on which the shim cannot be installed. *)
Definition noShim : Loader :=
  mkLoader (Resolved session) quiet quiet
           (fun code t => if String.eqb code "webr::shim_install()"
                          then mkRan _ _ t [] (Rejected "shim failed")
                          else quiet t).

End ToyR.

(** * Properties *)

Local Open Scope list_scope.

(** ** History recall *)

Section RecallFacts.
Import Recall.

Variable step_older step_newer : state -> state.
Hypothesis step_older_eq : forall s, step_older s = resetOnMismatch (older s).
Hypothesis step_newer_eq : forall s, step_newer s = resetOnMismatch (newer s).

Lemma sameText_refl (a : option string) : sameText a a = true.
Proof. destruct a as [x|]; simpl; [apply String.eqb_refl | reflexivity]. Qed.

(** When the buffer shows the entry under the cursor the effect is idle. *)
Lemma resetOnMismatch_idle (s : state) :
  buffer s = stringAt (commandHistory s) (historyIndex s) ->
  resetOnMismatch s = s.
Proof.
  intros Hb. unfold resetOnMismatch.
  rewrite Hb, sameText_refl. simpl. rewrite andb_false_r. reflexivity.
Qed.

Lemma resetOnMismatch_none (s : state) :
  historyIndex s = -1 -> resetOnMismatch s = s.
Proof. intros Hi. unfold resetOnMismatch. rewrite Hi. reflexivity. Qed.

(** After [k+1] steps towards the oldest entry the cursor is [k], clamped
    at the last index, and the draft holds the starting buffer. *)
Lemma older_steps (h : list string) (b t : option string) (k : nat) :
  h <> [] ->
  Nat.iter (S k) step_older (mk b h (-1) t)
  = mk (stringAt h (Z.min (Z.of_nat k) (Z.of_nat (List.length h) - 1)))
       h (Z.min (Z.of_nat k) (Z.of_nat (List.length h) - 1)) b.
Proof.
  intros Hne.
  assert (Hlen : 0 < Z.of_nat (List.length h)) by (destruct h; [congruence | simpl; lia]).
  induction k as [|k IH].
  - simpl. rewrite step_older_eq. unfold older. simpl.
    destruct (Z.of_nat (List.length h) =? 0) eqn:E; [lia|].
    rewrite resetOnMismatch_idle by reflexivity.
    replace (Z.min (-1 + 1) (Z.of_nat (List.length h) - 1)) with
      (Z.min 0 (Z.of_nat (List.length h) - 1)) by reflexivity.
    reflexivity.
  - rewrite Nat.iter_succ, IH, step_older_eq. unfold older. simpl.
    destruct (Z.of_nat (List.length h) =? 0) eqn:E; [lia|].
    set (i := Z.min (Z.of_nat k) (Z.of_nat (List.length h) - 1)).
    assert (Hi : (i =? -1) = false) by (apply Z.eqb_neq; lia).
    rewrite Hi.
    assert (Hnext : Z.min (i + 1) (Z.of_nat (List.length h) - 1)
                    = Z.min (Z.of_nat (S k)) (Z.of_nat (List.length h) - 1)) by lia.
    rewrite Hnext.
    rewrite resetOnMismatch_idle by reflexivity. reflexivity.
Qed.

(** From cursor [i], [i+1] steps towards the newest entry bring the draft
    back, and further steps change nothing. *)
Lemma newer_steps (h : list string) (b : option string) (i k : nat) :
  (i < k)%nat ->
  Nat.iter k step_newer (mk (stringAt h (Z.of_nat i)) h (Z.of_nat i) b)
  = mk b h (-1) b.
Proof.
  revert k. induction i as [|i IH]; intros k Hk.
  - destruct k as [|k]; [lia|]. rewrite Nat.iter_succ_r.
    rewrite step_newer_eq. unfold newer. simpl.
    rewrite resetOnMismatch_none by reflexivity.
    clear Hk. induction k as [|k IHk]; [reflexivity|].
    rewrite Nat.iter_succ, IHk, step_newer_eq. unfold newer. simpl.
    apply resetOnMismatch_none. reflexivity.
  - destruct k as [|k]; [lia|]. rewrite Nat.iter_succ_r.
    rewrite step_newer_eq. unfold newer. simpl historyIndex. simpl commandHistory.
    simpl tempUserCode.
    assert (E1 : (Z.of_nat (S i) =? -1) = false) by (apply Z.eqb_neq; lia).
    assert (E2 : (Z.of_nat (S i) - 1 <? 0) = false) by (apply Z.ltb_ge; lia).
    rewrite E1, E2.
    replace (Z.of_nat (S i) - 1) with (Z.of_nat i) by lia.
    rewrite resetOnMismatch_idle by reflexivity.
    apply IH. lia.
Qed.

Lemma round_trip_generic (h : list string) (b : string) (t : option string) (k : nat) :
  let s0 := mk (Some b) h (-1) t in
  let s2 := Nat.iter k step_newer (Nat.iter k step_older s0) in
  buffer s2 = Some b /\ historyIndex s2 = -1 /\ commandHistory s2 = h.
Proof.
  simpl. destruct k as [|k]; [simpl; auto|].
  destruct h as [|c h'].
  - (* empty history: neither key does anything *)
    assert (Hup : forall n, Nat.iter n step_older (mk (Some b) [] (-1) t)
                            = mk (Some b) [] (-1) t).
    { induction n as [|n IHn]; [reflexivity|].
      rewrite Nat.iter_succ, IHn, step_older_eq. reflexivity. }
    assert (Hdown : forall n, Nat.iter n step_newer (mk (Some b) [] (-1) t)
                              = mk (Some b) [] (-1) t).
    { induction n as [|n IHn]; [reflexivity|].
      rewrite Nat.iter_succ, IHn, step_newer_eq. reflexivity. }
    rewrite Hup, Hdown. simpl. auto.
  - rewrite older_steps by discriminate.
    set (n := List.length (c :: h')).
    assert (Hn : (0 < n)%nat) by (subst n; simpl; lia).
    replace (Z.min (Z.of_nat k) (Z.of_nat n - 1))
      with (Z.of_nat (Nat.min k (n - 1))) by lia.
    rewrite newer_steps by lia. simpl. auto.
Qed.

End RecallFacts.

(** X24.  In the console input box of the R panel, for every command
    history, every starting buffer and every number of steps [k]: from a
    cursor at "none", [k] steps towards older entries followed by [k] steps
    towards newer entries leave the buffer exactly as it was before the
    navigation, the cursor at "none" (-1) and the history as it was.  On the
    way, the first step stores the unsaved buffer in the draft slot and the
    cursor stays clamped at the oldest entry. *)
Theorem console_recall_round_trip
    (h : list string) (b : string) (t : option string) (k : nat) :
  let s0 := Recall.mk (Some b) h (-1) t in
  let console := Nat.iter k (ConsolePanel.press ConsolePanel.ArrowDown)
                   (Nat.iter k (ConsolePanel.press ConsolePanel.ArrowUp) s0) in
  (Recall.buffer console = Some b /\ Recall.historyIndex console = -1
   /\ Recall.commandHistory console = h)
  /\ (forall j, h <> [] ->
        let up := Nat.iter (S j) (ConsolePanel.press ConsolePanel.ArrowUp) s0 in
        Recall.tempUserCode up = Some b
        /\ Recall.historyIndex up = Z.min (Z.of_nat j) (Z.of_nat (List.length h) - 1)
        /\ Recall.buffer up = stringAt h (Recall.historyIndex up)).
Proof.
  intros s0 console.
  split.
  { exact (round_trip_generic (ConsolePanel.press ConsolePanel.ArrowUp)
             (ConsolePanel.press ConsolePanel.ArrowDown)
             (fun s => eq_refl) (fun s => eq_refl) h b t k). }
  intros j Hne up. subst up s0.
  rewrite (older_steps (ConsolePanel.press ConsolePanel.ArrowUp) (fun s => eq_refl))
    by assumption.
  repeat split; reflexivity.
Qed.

(** X24, on a history of two commands: three steps up reach the oldest
    entry and stay there, three steps down bring the draft back. *)
Lemma console_recall_round_trip_witness :
  let s0 := Recall.mk (Some "dra") ["x <- 2"; "x <- 1"] (-1) (Some "") in
  let up := Nat.iter 3 (ConsolePanel.press ConsolePanel.ArrowUp) s0 in
  let back := Nat.iter 3 (ConsolePanel.press ConsolePanel.ArrowDown) up in
  ["x <- 2"; "x <- 1"] <> []
  /\ Recall.tempUserCode up = Some "dra"
  /\ Recall.historyIndex up = 1
  /\ Recall.buffer up = Some "x <- 1"
  /\ Recall.buffer back = Some "dra"
  /\ Recall.historyIndex back = -1.
Proof.
  split; [discriminate|].
  destruct (console_recall_round_trip ["x <- 2"; "x <- 1"] "dra" (Some "") 3)
    as ((Hb & Hi & _) & Hup).
  destruct (Hup 2%nat ltac:(discriminate)) as (Ht & Hc & Hbuf).
  split; [exact Ht|]. split; [exact Hc|]. split; [exact Hbuf|].
  split; [exact Hb | exact Hi].
Defined.

(** C3.  In the editor the recall does not take place.  The two arrow-key
    listeners are created once, in the first render of [EditorPanel], whose
    props are those of the first render of [App]: an empty history and the
    cursor at "none".  So, whatever the history holds later, [UpArrow] on
    the first line and [DownArrow] on the last line call no setter: no draft
    is stored, the cursor does not move and the buffer is not replaced.
    After one [Run] of [x <- 1], listeners reading the props on screen would
    store the draft, put the cursor on entry 0 and show that entry; the
    installed ones do nothing. *)
Theorem editor_arrow_keys_read_the_first_render :
  (forall INITIAL_R_CODE INITIAL_PYTHON_CODE e isFirstLine isLastLine,
      EditorPanel.handleEditorDidMount
        (App.editorProps (App.initial INITIAL_R_CODE INITIAL_PYTHON_CODE))
        e isFirstLine isLastLine = [])
  /\ let first := App.initial "x <- 1" "print(1)" in
     let s := App.step App.Run first in
     App.commandHistory s = ["x <- 1"]
     /\ App.historyIndex s = -1
     /\ EditorPanel.handleEditorDidMount (App.editorProps s)
          EditorPanel.UpArrow true true
        = [ EditorPanel.SetTempUserCode "x <- 1";
            EditorPanel.SetHistoryIndex 0;
            EditorPanel.SetCode (Some "x <- 1") ]
     /\ EditorPanel.handleEditorDidMount (App.editorProps first)
          EditorPanel.UpArrow true true
        = [].
Proof.
  split.
  - intros rc pc e isFirstLine isLastLine.
    destruct e, isFirstLine, isLastLine; reflexivity.
  - repeat split.
Qed.

(** ** Texts *)

Lemma length_append (a b : string) :
  String.length (a ++ b)%string = (String.length a + String.length b)%nat.
Proof. induction a as [|c a IH]; simpl; [reflexivity | rewrite IH; reflexivity]. Qed.

Lemma length_substring_prefix (m : nat) (s : string) :
  String.length (String.substring 0 m s) = Nat.min m (String.length s).
Proof.
  revert s. induction m as [|m IH]; intros s.
  - destruct s; reflexivity.
  - destruct s as [|c s]; simpl; [reflexivity | rewrite IH; reflexivity].
Qed.

Lemma memberOf_In (x : string) (l : list string) :
  UsePyodide.memberOf x l = true <-> In x l.
Proof.
  unfold UsePyodide.memberOf. rewrite existsb_exists. split.
  - intros (y & Hy & E). apply String.eqb_eq in E. subst. exact Hy.
  - intros H. exists x. split; [exact H | apply String.eqb_refl].
Qed.

(** ** The environment script of the Python backend *)

Section EnvironmentScript.
Import UsePyodide.

(** What the representation of a stored entry can be. *)
Lemma capRepr_cases (t : string) :
  (String.length t <= 100 /\ capRepr t = t)%nat
  \/ (100 < String.length t
      /\ capRepr t = (String.substring 0 100 t ++ "...")%string
      /\ String.length (capRepr t) = 103)%nat.
Proof.
  unfold capRepr. destruct (100 <? String.length t)%nat eqn:E.
  - right. apply Nat.ltb_lt in E. repeat split; [exact E|].
    rewrite length_append, length_substring_prefix.
    change (String.length "...") with 3%nat. lia.
  - left. apply Nat.ltb_ge in E. split; [exact E | reflexivity].
Qed.

End EnvironmentScript.

(** ** Dictionaries *)

Section Dictionaries.
Import UsePyodide.

Lemma bound_In (x : string) (d : list (string * PyValue)) :
  bound x d = true <-> In x (List.map fst d).
Proof.
  induction d as [|[y w] d IH]; simpl; [split; [discriminate | contradiction]|].
  rewrite orb_true_iff, IH, String.eqb_eq. split; intros [H|H]; auto.
Qed.

Lemma rebind_keys (x : string) (v : PyValue) (d : list (string * PyValue)) :
  List.map fst (rebind x v d) = List.map fst d.
Proof.
  induction d as [|[y w] d IH]; simpl; [reflexivity|].
  destruct (String.eqb x y); simpl; [reflexivity | rewrite IH; reflexivity].
Qed.

Lemma rebind_other (x : string) (v : PyValue) (d : list (string * PyValue)) :
  forall i k w, nth_error d i = Some (k, w) -> k <> x ->
                nth_error (rebind x v d) i = Some (k, w).
Proof.
  induction d as [|[y u] d IH]; intros i k w Hi Hk; simpl in *; [destruct i; discriminate|].
  destruct i as [|i]; simpl in *.
  - inversion Hi; subst. destruct (String.eqb x k) eqn:E; [|reflexivity].
    apply String.eqb_eq in E. congruence.
  - destruct (String.eqb x y); simpl; [exact Hi | apply IH; assumption].
Qed.

Lemma setItem_length (x : string) (v : PyValue) (d : list (string * PyValue)) :
  List.length (setItem x v d)
  = if bound x d then List.length d else S (List.length d).
Proof.
  unfold setItem. destruct (bound x d).
  - rewrite <- (length_map fst), rebind_keys, length_map. reflexivity.
  - rewrite length_app. simpl. lia.
Qed.

Lemma setItem_length_ge (x : string) (v : PyValue) (d : list (string * PyValue)) :
  (List.length d <= List.length (setItem x v d))%nat.
Proof. rewrite setItem_length. destruct (bound x d); lia. Qed.

(** An assignment that leaves the size alone was to a key of the
    dictionary: the keys stay where they are, and so do the values under
    the other keys. *)
Lemma setItem_kept (x : string) (v : PyValue) (d : list (string * PyValue)) :
  List.length (setItem x v d) = List.length d ->
  bound x d = true
  /\ List.map fst (setItem x v d) = List.map fst d
  /\ forall i k w, nth_error d i = Some (k, w) -> k <> x ->
                   nth_error (setItem x v d) i = Some (k, w).
Proof.
  rewrite setItem_length. unfold setItem. destruct (bound x d); [|lia].
  intros _. split; [reflexivity|]. split; [apply rebind_keys|].
  intros i k w. apply rebind_other.
Qed.

End Dictionaries.

(** ** The loop of the environment script *)

Section Loop.
Import UsePyodide.
Context {I : Interpreter}.

Lemma keptBy_refl (d : list (string * PyValue)) : keptBy d d.
Proof. split; [reflexivity | auto]. Qed.

Lemma assign_length_ge (k : string) (v : PyValue) (p : py) :
  (List.length (globals p) <= List.length (globals (assign k v p)))%nat.
Proof. rewrite globals_assign. apply setItem_length_ge. Qed.

(** An assignment to a loop variable that leaves the size of the
    dictionary alone. *)
Lemma assign_kept (d0 : list (string * PyValue)) (k : string) (v : PyValue) (p : py) :
  In k loopVariables ->
  List.length (globals (assign k v p)) = List.length (globals p) ->
  keptBy d0 (globals p) ->
  keptBy d0 (globals (assign k v p)) /\ bound k d0 = true.
Proof.
  intros Hk Hlen [Hkeys Hvals]. rewrite globals_assign in *.
  destruct (setItem_kept k v (globals p) Hlen) as (Hb & Hkeys' & Hvals').
  split.
  - split; [congruence|].
    intros i x w Hi Hx. apply Hvals'; [apply Hvals; assumption|].
    intros ->. exact (Hx Hk).
  - apply bound_In. rewrite <- Hkeys. apply bound_In. exact Hb.
Qed.

Lemma forItems_eq (builtins : list string) (used steps pos : nat) (p : py)
    (vars : gmap string PythonEnvObject) :
  forItems builtins used steps pos p vars
  = if negb (List.length (globals p) =? used)%nat then (p, Rejected changedSize)
    else
      match steps with
      | O => (p, Resolved vars)
      | S steps' =>
          match nth_error (globals p) pos with
          | None => (p, Resolved vars)
          | Some (x, value) =>
              let p1 := assign "value" value (assign "name" (strObject x) p) in
              if listed builtins x value
              then match repr_val_of value with
                   | Resolved repr_val =>
                       let p2 := assign "repr_val" (strObject repr_val) p1 in
                       let p3 :=
                         if (100 <? String.length repr_val)%nat
                         then assign "repr_val"
                                (strObject (String.substring 0 100 repr_val ++ "...")) p2
                         else p2 in
                       forItems builtins used steps' (S pos) p3
                         (<[x := describe value repr_val]> vars)
                   | Rejected e => (p1, Rejected e)
                   end
              else forItems builtins used steps' (S pos) p1 vars
          end
      end.
Proof. destruct steps; reflexivity. Qed.

(** The loop ends normally only on a dictionary of the size it started
    with. *)
Lemma forItems_checks (builtins : list string) (used steps pos : nat) (p q : py)
    (vars env : gmap string PythonEnvObject) :
  forItems builtins used steps pos p vars = (q, Resolved env) ->
  List.length (globals p) = used.
Proof.
  rewrite forItems_eq.
  destruct (List.length (globals p) =? used)%nat eqn:E; simpl; [|discriminate].
  intros _. apply Nat.eqb_eq. exact E.
Qed.

(** The two targets of the [for] statement, when the loop goes on to end
    normally: both were keys of the dictionary. *)
Lemma targets_kept (d0 : list (string * PyValue)) (used : nat) (x : string)
    (value : PyValue) (p : py) :
  let p1 := assign "value" value (assign "name" (strObject x) p) in
  List.length (globals p) = used ->
  List.length (globals p1) = used ->
  keptBy d0 (globals p) ->
  keptBy d0 (globals p1) /\ bound "name" d0 = true /\ bound "value" d0 = true.
Proof.
  intros p1 Hp Hp1 Hk. subst p1.
  pose proof (assign_length_ge "name" (strObject x) p) as G1.
  pose proof (assign_length_ge "value" value (assign "name" (strObject x) p)) as G2.
  destruct (assign_kept d0 "name" (strObject x) p) as [K1 B1];
    [simpl; auto | lia | exact Hk |].
  destruct (assign_kept d0 "value" value (assign "name" (strObject x) p)) as [K2 B2];
    [simpl; auto | lia | exact K1 |].
  auto.
Qed.

(** The assignments to [repr_val], likewise. *)
Lemma repr_val_kept (d0 : list (string * PyValue)) (used : nat) (repr_val : string)
    (p1 : py) :
  let p2 := assign "repr_val" (strObject repr_val) p1 in
  let p3 := if (100 <? String.length repr_val)%nat
            then assign "repr_val"
                   (strObject (String.substring 0 100 repr_val ++ "...")) p2
            else p2 in
  List.length (globals p1) = used ->
  List.length (globals p3) = used ->
  keptBy d0 (globals p1) ->
  keptBy d0 (globals p3) /\ bound "repr_val" d0 = true.
Proof.
  intros p2 p3 Hp1 Hp3 Hk. subst p3 p2.
  pose proof (assign_length_ge "repr_val" (strObject repr_val) p1) as G1.
  destruct (100 <? String.length repr_val)%nat.
  - pose proof (assign_length_ge "repr_val"
                  (strObject (String.substring 0 100 repr_val ++ "..."))
                  (assign "repr_val" (strObject repr_val) p1)) as G2.
    destruct (assign_kept d0 "repr_val" (strObject repr_val) p1) as [K1 B1];
      [simpl; auto | lia | exact Hk |].
    destruct (assign_kept d0 "repr_val"
                (strObject (String.substring 0 100 repr_val ++ "..."))
                (assign "repr_val" (strObject repr_val) p1)) as [K2 _];
      [simpl; auto | lia | exact K1 |].
    auto.
  - apply (assign_kept d0 "repr_val" (strObject repr_val) p1); [simpl; auto | lia | exact Hk].
Qed.

(** The sizes along one round of the loop never go down. *)
Lemma round_length_ge (x : string) (value : PyValue) (p : py) :
  (List.length (globals p)
   <= List.length (globals (assign "value" value (assign "name" (strObject x) p))))%nat.
Proof.
  pose proof (assign_length_ge "name" (strObject x) p).
  pose proof (assign_length_ge "value" value (assign "name" (strObject x) p)). lia.
Qed.

Lemma repr_val_length_ge (repr_val : string) (p1 : py) :
  let p2 := assign "repr_val" (strObject repr_val) p1 in
  let p3 := if (100 <? String.length repr_val)%nat
            then assign "repr_val"
                   (strObject (String.substring 0 100 repr_val ++ "...")) p2
            else p2 in
  (List.length (globals p1) <= List.length (globals p3))%nat.
Proof.
  intros p2 p3. subst p3 p2.
  pose proof (assign_length_ge "repr_val" (strObject repr_val) p1).
  destruct (100 <? String.length repr_val)%nat; [|assumption].
  pose proof (assign_length_ge "repr_val"
                (strObject (String.substring 0 100 repr_val ++ "..."))
                (assign "repr_val" (strObject repr_val) p1)). lia.
Qed.

(** What a loop that ends normally did.  The dictionary [d0] it started on
    kept its keys and, under every key but the loop variables, its values;
    if there was an item to visit, [name] and [value] were keys of [d0];
    and every entry of the result was in [_vars] before, or describes the
    value the loop read at some position at or after [pos], under the key
    [d0] has there, in a dictionary that had [repr_val] as a key. *)
Lemma forItems_resolved (builtins : list string) (d0 : list (string * PyValue))
    (used : nat) :
  List.length d0 = used ->
  forall (steps pos : nat) (p q : py) (vars env : gmap string PythonEnvObject),
    forItems builtins used steps pos p vars = (q, Resolved env) ->
    keptBy d0 (globals p) ->
    keptBy d0 (globals q)
    /\ ((pos < used)%nat -> (0 < steps)%nat ->
        bound "name" d0 = true /\ bound "value" d0 = true)
    /\ forall x entry,
         env !! x = Some entry ->
         vars !! x = Some entry
         \/ (bound "repr_val" d0 = true
             /\ exists i value repr_val,
                  (pos <= i)%nat
                  /\ nth_error (List.map fst d0) i = Some x
                  /\ listed builtins x value = true
                  /\ repr_val_of value = Resolved repr_val
                  /\ entry = describe value repr_val
                  /\ (~ In x loopVariables -> nth_error d0 i = Some (x, value))
                  /\ exists p', keptBy d0 (globals p')
                                /\ nth_error (globals p') i = Some (x, value)).
Proof.
  intros Hused. induction steps as [|steps IH]; intros pos p q vars env Hrun Hk.
  - pose proof (forItems_checks _ _ _ _ _ _ _ _ Hrun) as Hlen.
    rewrite forItems_eq in Hrun. rewrite Hlen, Nat.eqb_refl in Hrun. simpl in Hrun.
    inversion Hrun; subst. split; [exact Hk|]. split; [lia | auto].
  - pose proof (forItems_checks _ _ _ _ _ _ _ _ Hrun) as Hlen.
    rewrite forItems_eq in Hrun. rewrite Hlen, Nat.eqb_refl in Hrun. simpl in Hrun.
    destruct (nth_error (globals p) pos) as [[x value]|] eqn:Hpos.
    2:{ inversion Hrun; subst. split; [exact Hk|]. split; [|auto].
        intros Hlt _. apply nth_error_None in Hpos. lia. }
    assert (Hkey : nth_error (List.map fst d0) pos = Some x).
    { destruct Hk as [Hkeys _]. rewrite <- Hkeys, nth_error_map, Hpos. reflexivity. }
    assert (Hval : ~ In x loopVariables -> nth_error d0 pos = Some (x, value)).
    { intros Hx. destruct Hk as [_ Hvals].
      rewrite nth_error_map in Hkey.
      destruct (nth_error d0 pos) as [[k w]|] eqn:E; [|discriminate].
      simpl in Hkey. inversion Hkey; subst k.
      pose proof (Hvals pos x w E Hx) as H. rewrite Hpos in H. inversion H. reflexivity. }
    pose proof (round_length_ge x value p) as G1.
    destruct (listed builtins x value) eqn:Hl.
    + destruct (repr_val_of value) as [repr_val|e] eqn:Hr; [|discriminate].
      pose proof (forItems_checks _ _ _ _ _ _ _ _ Hrun) as Hlen3.
      pose proof (repr_val_length_ge repr_val
                    (assign "value" value (assign "name" (strObject x) p))) as G2.
      cbv zeta in G2.
      assert (Hlen1 : List.length
                        (globals (assign "value" value (assign "name" (strObject x) p)))
                      = used) by lia.
      destruct (targets_kept d0 used x value p Hlen Hlen1 Hk) as (K1 & Bn & Bv).
      destruct (repr_val_kept d0 used repr_val _ Hlen1 Hlen3 K1) as (K3 & Br).
      destruct (IH _ _ _ _ _ Hrun K3) as (Kq & _ & Hentries).
      split; [exact Kq|]. split; [auto|].
      intros y entry Hget.
      destruct (Hentries y entry Hget)
        as [Hin | (_ & i & v & t & Hi & H1 & H2 & H3 & H4 & H5 & H6)].
      * destruct (decide (x = y)) as [->|Hne].
        -- rewrite lookup_insert_eq in Hin. inversion Hin; subst entry.
           right. split; [exact Br|]. exists pos, value, repr_val.
           split; [lia|]. split; [exact Hkey|]. split; [exact Hl|].
           split; [exact Hr|]. split; [reflexivity|]. split; [exact Hval|].
           exists p. split; [exact Hk | exact Hpos].
        -- rewrite lookup_insert_ne in Hin by exact Hne. left. exact Hin.
      * right. split; [exact Br|]. exists i, v, t.
        split; [lia|]. auto 10.
    + pose proof (forItems_checks _ _ _ _ _ _ _ _ Hrun) as Hlen1.
      destruct (targets_kept d0 used x value p Hlen Hlen1 Hk) as (K1 & Bn & Bv).
      destruct (IH _ _ _ _ _ Hrun K1) as (Kq & _ & Hentries).
      split; [exact Kq|]. split; [auto|].
      intros y entry Hget.
      destruct (Hentries y entry Hget)
        as [Hin | (Br & i & v & t & Hi & H1 & H2 & H3 & H4 & H5 & H6)]; [left; exact Hin|].
      right. split; [exact Br|]. exists i, v, t.
      split; [lia|]. auto 10.
Qed.

End Loop.

Lemma nth_error_lookup {A : Type} (l : list A) (i : nat) : nth_error l i = l !! i.
Proof.
  revert i. induction l as [|a l IH]; intros [|i]; simpl; try reflexivity. apply IH.
Qed.

Section LoopResult.
Import UsePyodide.
Context {I : Interpreter}.

(** A name that is no key from position [pos] on keeps the entry it had,
    or stays without one. *)
Lemma forItems_untouched (builtins : list string) (d0 : list (string * PyValue))
    (used : nat) (x : string) :
  List.length d0 = used ->
  forall (steps pos : nat) (p q : py) (vars env : gmap string PythonEnvObject),
    forItems builtins used steps pos p vars = (q, Resolved env) ->
    keptBy d0 (globals p) ->
    (forall i, (pos <= i)%nat -> nth_error (List.map fst d0) i <> Some x) ->
    env !! x = vars !! x.
Proof.
  intros Hused. induction steps as [|steps IH]; intros pos p q vars env Hrun Hk Hnot.
  - pose proof (forItems_checks _ _ _ _ _ _ _ _ Hrun) as Hlen.
    rewrite forItems_eq in Hrun. rewrite Hlen, Nat.eqb_refl in Hrun. simpl in Hrun.
    inversion Hrun; subst. reflexivity.
  - pose proof (forItems_checks _ _ _ _ _ _ _ _ Hrun) as Hlen.
    rewrite forItems_eq in Hrun. rewrite Hlen, Nat.eqb_refl in Hrun. simpl in Hrun.
    destruct (nth_error (globals p) pos) as [[y value]|] eqn:Hpos.
    2:{ inversion Hrun; subst. reflexivity. }
    assert (Hyx : y <> x).
    { intros ->. apply (Hnot pos (le_n _)).
      destruct Hk as [Hkeys _]. rewrite <- Hkeys, nth_error_map, Hpos. reflexivity. }
    assert (Hnext : forall i, (S pos <= i)%nat -> nth_error (List.map fst d0) i <> Some x).
    { intros i Hi. apply Hnot. lia. }
    pose proof (round_length_ge y value p) as G1.
    destruct (listed builtins y value) eqn:Hl.
    + destruct (repr_val_of value) as [repr_val|e] eqn:Hr; [|discriminate].
      pose proof (forItems_checks _ _ _ _ _ _ _ _ Hrun) as Hlen3.
      pose proof (repr_val_length_ge repr_val
                    (assign "value" value (assign "name" (strObject y) p))) as G2.
      cbv zeta in G2.
      assert (Hlen1 : List.length
                        (globals (assign "value" value (assign "name" (strObject y) p)))
                      = used) by lia.
      destruct (targets_kept d0 used y value p Hlen Hlen1 Hk) as (K1 & _).
      destruct (repr_val_kept d0 used repr_val _ Hlen1 Hlen3 K1) as (K3 & _).
      rewrite (IH _ _ _ _ _ Hrun K3 Hnext). apply lookup_insert_ne. exact Hyx.
    + pose proof (forItems_checks _ _ _ _ _ _ _ _ Hrun) as Hlen1.
      destruct (targets_kept d0 used y value p Hlen Hlen1 Hk) as (K1 & _).
      apply (IH _ _ _ _ _ Hrun K1 Hnext).
Qed.

(** A loop that ends normally has listed every binding that passes the
    filter, from position [pos] on, the loop variables apart. *)
Lemma forItems_lists (builtins : list string) (d0 : list (string * PyValue))
    (used : nat) :
  List.length d0 = used ->
  NoDup (List.map fst d0) ->
  forall (steps pos : nat) (p q : py) (vars env : gmap string PythonEnvObject),
    forItems builtins used steps pos p vars = (q, Resolved env) ->
    keptBy d0 (globals p) ->
    (used <= pos + steps)%nat ->
    forall i x value,
      (pos <= i)%nat ->
      nth_error d0 i = Some (x, value) ->
      ~ In x loopVariables ->
      listed builtins x value = true ->
      exists repr_val, repr_val_of value = Resolved repr_val
                       /\ env !! x = Some (describe value repr_val).
Proof.
  intros Hused Hnd. induction steps as [|steps IH];
    intros pos p q vars env Hrun Hk Hsteps i x value Hi Hd0 Hx Hl.
  - assert (i < List.length d0)%nat by (apply nth_error_Some; congruence). lia.
  - pose proof (forItems_checks _ _ _ _ _ _ _ _ Hrun) as Hlen.
    rewrite forItems_eq in Hrun. rewrite Hlen, Nat.eqb_refl in Hrun. simpl in Hrun.
    assert (Hi' : (i < used)%nat).
    { subst used. apply nth_error_Some. congruence. }
    destruct (nth_error (globals p) pos) as [[y w]|] eqn:Hpos.
    2:{ apply nth_error_None in Hpos. lia. }
    pose proof (round_length_ge y w p) as G1.
    assert (Hhere : i = pos -> y = x /\ w = value).
    { intros ->. destruct Hk as [_ Hvals].
      pose proof (Hvals pos x value Hd0 Hx) as H. rewrite Hpos in H.
      inversion H. auto. }
    assert (Hlater : forall j, (S i <= j)%nat -> nth_error (List.map fst d0) j <> Some x).
    { intros j Hj E.
      assert (Ei : nth_error (List.map fst d0) i = Some x)
        by (rewrite nth_error_map, Hd0; reflexivity).
      rewrite nth_error_lookup in E, Ei.
      pose proof (NoDup_lookup _ _ _ _ Hnd E Ei). lia. }
    destruct (listed builtins y w) eqn:Hlisted.
    + destruct (repr_val_of w) as [repr_val|e] eqn:Hr; [|discriminate].
      pose proof (forItems_checks _ _ _ _ _ _ _ _ Hrun) as Hlen3.
      pose proof (repr_val_length_ge repr_val
                    (assign "value" w (assign "name" (strObject y) p))) as G2.
      cbv zeta in G2.
      assert (Hlen1 : List.length
                        (globals (assign "value" w (assign "name" (strObject y) p)))
                      = used) by lia.
      destruct (targets_kept d0 used y w p Hlen Hlen1 Hk) as (K1 & _).
      destruct (repr_val_kept d0 used repr_val _ Hlen1 Hlen3 K1) as (K3 & _).
      destruct (decide (i = pos)) as [E|E].
      * destruct (Hhere E) as [-> ->]. subst i.
        exists repr_val. split; [exact Hr|].
        rewrite (forItems_untouched builtins d0 used x Hused _ _ _ _ _ _ Hrun K3 Hlater).
        apply lookup_insert_eq.
      * apply (IH _ _ _ _ _ Hrun K3 ltac:(lia) i x value ltac:(lia) Hd0 Hx Hl).
    + pose proof (forItems_checks _ _ _ _ _ _ _ _ Hrun) as Hlen1.
      destruct (targets_kept d0 used y w p Hlen Hlen1 Hk) as (K1 & _).
      destruct (decide (i = pos)) as [E|E].
      * destruct (Hhere E) as [-> ->]. congruence.
      * apply (IH _ _ _ _ _ Hrun K1 ltac:(lia) i x value ltac:(lia) Hd0 Hx Hl).
Qed.

(** The loop ends early, with an error, as soon as one of its assignments
    adds a key to the dictionary. *)
Lemma forItems_grown (builtins : list string) (used steps pos : nat) (p : py)
    (vars : gmap string PythonEnvObject) :
  (used < List.length (globals p))%nat ->
  forItems builtins used steps pos p vars = (p, Rejected changedSize).
Proof.
  intros H. rewrite forItems_eq.
  destruct (List.length (globals p) =? used)%nat eqn:E; [|reflexivity].
  apply Nat.eqb_eq in E. lia.
Qed.

(** The script as a whole.  It resolves only if its set-up did and the
    loop found [name] and [value] among the keys of a dictionary that is not
    empty, and it lists something only if [repr_val] was a key as well. *)
Lemma inspectScope_resolved (p : py) (env : gmap string PythonEnvObject) :
  result (inspectScope p) = Resolved env ->
  exists builtins,
    result (prepareScope p) = Resolved builtins
    /\ let d0 := globals (after (prepareScope p)) in
       keptBy d0 (globals (after (inspectScope p)))
       /\ (d0 <> [] -> bound "name" d0 = true /\ bound "value" d0 = true)
       /\ (env <> ∅ -> bound "repr_val" d0 = true)
       /\ (forall x entry,
             env !! x = Some entry ->
             exists i value repr_val,
               nth_error (List.map fst d0) i = Some x
               /\ listed builtins x value = true
               /\ repr_val_of value = Resolved repr_val
               /\ entry = describe value repr_val
               /\ (~ In x loopVariables -> nth_error d0 i = Some (x, value))
               /\ exists p', keptBy d0 (globals p')
                             /\ nth_error (globals p') i = Some (x, value))
       /\ (NoDup (List.map fst d0) ->
           forall x value,
             In (x, value) d0 -> ~ In x loopVariables ->
             listed builtins x value = true ->
             exists repr_val, repr_val_of value = Resolved repr_val
                              /\ env !! x = Some (describe value repr_val)).
Proof.
  unfold inspectScope.
  destruct (result (prepareScope p)) as [builtins|e] eqn:Hprep; simpl; [|discriminate].
  set (d0 := globals (after (prepareScope p))).
  destruct (forItems builtins (List.length d0) (List.length d0) 0 (after (prepareScope p)) ∅)
    as [q res] eqn:Hrun. simpl. intros ->.
  exists builtins. split; [reflexivity|].
  destruct (forItems_resolved builtins d0 _ eq_refl _ _ _ _ _ _ Hrun (keptBy_refl d0))
    as (Kq & Hfirst & Hentries).
  split; [exact Kq|]. split; [|split; [|split]].
  - intros Hne. apply Hfirst; destruct d0; simpl; try congruence; lia.
  - intros Hne.
    destruct (map_choose env Hne) as (x & entry & Hget).
    destruct (Hentries x entry Hget) as [H | [H _]]; [|exact H].
    rewrite lookup_empty in H. discriminate.
  - intros x entry Hget.
    destruct (Hentries x entry Hget) as [H | (_ & i & v & t & _ & H)].
    + rewrite lookup_empty in H. discriminate.
    + exists i, v, t. exact H.
  - intros Hnd x value Hin Hx Hl.
    apply In_nth_error in Hin. destruct Hin as [i Hi].
    apply (forItems_lists builtins d0 _ eq_refl Hnd _ _ _ _ _ _ Hrun (keptBy_refl d0)
             ltac:(lia) i x value ltac:(lia) Hi Hx Hl).
Qed.

(** What the script prints is what its set-up prints. *)
Lemma inspectScope_printed (p : py) :
  printed (inspectScope p) = printed (prepareScope p).
Proof. unfold inspectScope. destruct (result (prepareScope p)); reflexivity. Qed.

(** In a session where [name] or [value] is not bound yet, the script
    raises: the first item the loop takes binds both. *)
Lemma inspectScope_first_refresh (p : py) :
  let d0 := globals (after (prepareScope p)) in
  d0 <> [] ->
  bound "name" d0 = false \/ bound "value" d0 = false ->
  exists e, result (inspectScope p) = Rejected e.
Proof.
  intros d0 Hne Hunbound.
  destruct (result (inspectScope p)) as [env|e] eqn:Hrun; [|exists e; reflexivity].
  destruct (inspectScope_resolved p env Hrun) as (builtins & _ & _ & Hb & _).
  destruct (Hb Hne) as [Bn Bv]. fold d0 in Bn, Bv.
  destruct Hunbound; congruence.
Qed.

(** In a session where [repr_val] is not bound yet, the script raises or
    lists nothing. *)
Lemma inspectScope_second_refresh (p : py) (env : gmap string PythonEnvObject) :
  bound "repr_val" (globals (after (prepareScope p))) = false ->
  result (inspectScope p) = Resolved env ->
  env = ∅.
Proof.
  intros Hunbound Hrun.
  destruct (inspectScope_resolved p env Hrun) as (builtins & _ & _ & _ & Hr & _).
  destruct (decide (env = ∅)) as [E|E]; [exact E|].
  specialize (Hr E). congruence.
Qed.

End LoopResult.

(** ** The Python hook: what each step leaves alone *)

Section PythonHook.
Import UsePyodide.
Context {I : Interpreter}.

Lemma py_extends_refl (s : state) : extends s s.
Proof. exists []. symmetry. apply app_nil_r. Qed.

Lemma py_extends_trans (a b c : state) : extends a b -> extends b c -> extends a c.
Proof.
  intros [m1 H1] [m2 H2]. exists (m1 ++ m2). rewrite H2, H1. symmetry. apply app_assoc.
Qed.

Lemma py_keeps_refl (s : state) : keeps s s.
Proof. unfold keeps. repeat split. apply py_extends_refl. Qed.

Lemma py_keeps_trans (a b c : state) : keeps a b -> keeps b c -> keeps a c.
Proof.
  unfold keeps. intros (A1 & A2 & A3 & A4 & A5 & A6) (B1 & B2 & B3 & B4 & B5 & B6).
  repeat split; try congruence. eapply py_extends_trans; eassumption.
Qed.

Lemma py_log_keeps (t : OutputType) (m : string) (s : state) :
  keeps s (log t m s) /\ pyodide (log t m s) = pyodide s.
Proof. unfold keeps, log. simpl. repeat split. exists [mkLine t m]. reflexivity. Qed.

Lemma py_batched_keeps (b : Batched) (s : state) :
  keeps s (batched b s) /\ pyodide (batched b s) = pyodide s.
Proof.
  unfold batched. destruct (String.eqb (msg b) "").
  - split; [apply py_keeps_refl | reflexivity].
  - apply py_log_keeps.
Qed.

Lemma py_printed_keeps (out : list Batched) (s : state) :
  keeps s (List.fold_left (fun acc b => batched b acc) out s)
  /\ pyodide (List.fold_left (fun acc b => batched b acc) out s) = pyodide s.
Proof.
  revert s. induction out as [|b out IH]; intros s; simpl.
  - split; [apply py_keeps_refl | reflexivity].
  - destruct (IH (batched b s)) as [K P]. destruct (py_batched_keeps b s) as [K0 P0].
    split; [eapply py_keeps_trans; eassumption | congruence].
Qed.

Lemma py_await_spec {A : Type} (call : py -> Ran py A) (s : state) (p : py) :
  pyodide s = Some p ->
  keeps s (fst (await call s))
  /\ pyodide (fst (await call s)) = Some (after (call p))
  /\ snd (await call s) = result (call p).
Proof.
  intros Hp. unfold await. rewrite Hp. simpl.
  destruct (py_printed_keeps (printed (call p)) (setPyodide (Some (after (call p))) s))
    as [K P].
  split; [|split; [rewrite P; reflexivity | reflexivity]].
  destruct K as (K1 & K2 & K3 & K4 & K5 & K6).
  unfold keeps. repeat split; assumption.
Qed.

(** [updateEnvironment] runs the script on the interpreter it finds and
    replaces the snapshot by the script's result when there is one. *)
Lemma py_updateEnvironment_spec (s : state) (p : py) :
  pyodide s = Some p ->
  let s' := updateEnvironment s in
  plots s' = plots s /\ tableData s' = tableData s
  /\ plotIdCounter s' = plotIdCounter s /\ isLoading s' = isLoading s
  /\ extends s s'
  /\ pyodide s' = Some (after (inspectScope p))
  /\ environment s' = match result (inspectScope p) with
                      | Resolved env => env
                      | Rejected _ => environment s
                      end.
Proof.
  intros Hp. unfold updateEnvironment. rewrite Hp.
  assert (Hp' : pyodide (setIsEnvLoading true s) = Some p) by exact Hp.
  destruct (py_await_spec inspectScope _ _ Hp') as ((K1 & K2 & K3 & K4 & K5 & K6) & P & R).
  destruct (await inspectScope (setIsEnvLoading true s)) as [s1 envJson]. simpl in *.
  subst envJson.
  destruct (result (inspectScope p)) as [env|e]; simpl; repeat split; auto.
Qed.

Lemma plotObjectsFrom_length (counter : nat) (newPlots : list string) :
  List.length (plotObjectsFrom counter newPlots) = List.length newPlots.
Proof.
  revert counter. induction newPlots as [|x rest IH]; intros counter; simpl;
    [reflexivity | rewrite IH; reflexivity].
Qed.

Lemma plotObjectsFrom_app (counter : nat) (a b : list string) :
  plotObjectsFrom counter (a ++ b)
  = (plotObjectsFrom counter a ++ plotObjectsFrom (counter + List.length a) b)%list.
Proof.
  revert counter. induction a as [|x a IH]; intros counter; simpl.
  - rewrite Nat.add_0_r. reflexivity.
  - rewrite IH. replace (S counter + List.length a)%nat
      with (counter + S (List.length a))%nat by lia. reflexivity.
Qed.

(** The [try] block of [runCode], step by step. *)
Lemma runCodeTry_spec (code : string) (isInteractive : bool) (s : state) (p : py) :
  pyodide s = Some p ->
  let before := if negb isInteractive then closeAll p
                else mkRan _ _ p [] (Resolved tt) in
  let exec := runUser code (after before) in
  let drawn := renderFigures (after exec) in
  let mid := runCodeTry code isInteractive s in
  tableData mid = tableData s /\ isLoading mid = isLoading s
  /\ environment mid = environment s /\ extends s mid
  /\ match result before with
     | Rejected _ => pyodide mid = Some (after before) /\ plots mid = plots s
                     /\ plotIdCounter mid = plotIdCounter s
     | Resolved _ =>
         match result exec with
         | Rejected _ => pyodide mid = Some (after exec) /\ plots mid = plots s
                         /\ plotIdCounter mid = plotIdCounter s
         | Resolved _ =>
             pyodide mid = Some (after drawn)
             /\ match result drawn with
                | Rejected _ => plots mid = plots s
                                /\ plotIdCounter mid = plotIdCounter s
                | Resolved newPlots =>
                    plots mid
                    = ((if isInteractive then [] else plots s)
                       ++ plotObjectsFrom (plotIdCounter s) newPlots)%list
                    /\ plotIdCounter mid
                       = (plotIdCounter s + List.length newPlots)%nat
                end
         end
     end.
Proof.
  intros Hp before exec drawn mid. subst mid. unfold runCodeTry.
  assert (H0 : exists s1, (if negb isInteractive then await closeAll s
                           else (s, Resolved tt)) = (s1, result before)
                          /\ keeps s s1 /\ pyodide s1 = Some (after before)).
  { subst before. destruct isInteractive; simpl.
    - exists s. repeat split; auto. apply py_keeps_refl.
    - destruct (py_await_spec closeAll s p Hp) as (K & P & R).
      exists (fst (await closeAll s)). rewrite <- R. split; [|auto].
      destruct (await closeAll s); reflexivity. }
  destruct H0 as (s1 & E1 & K1 & P1). rewrite E1.
  destruct (result before) as [[]|e0].
  2:{ destruct K1 as (A1 & A2 & A3 & A4 & A5 & A6). repeat split; auto. }
  destruct (py_await_spec (runUser code) s1 _ P1) as (K2 & P2 & R2).
  destruct (await (runUser code) s1) as [s2 ran]. simpl in K2, P2, R2. subst ran.
  fold exec in P2 |- *.
  pose proof (py_keeps_trans _ _ _ K1 K2) as K12.
  destruct (result exec) as [[]|e1].
  2:{ destruct K12 as (A1 & A2 & A3 & A4 & A5 & A6). repeat split; auto. }
  destruct (py_await_spec renderFigures s2 _ P2) as (K3 & P3 & R3).
  destruct (await renderFigures s2) as [s3 plotsJson]. simpl in K3, P3, R3.
  subst plotsJson. fold drawn in P3 |- *.
  pose proof (py_keeps_trans _ _ _ K12 K3) as K.
  destruct K as (A1 & A2 & A3 & A4 & A5 & A6).
  destruct (result drawn) as [newPlots|e2].
  2:{ repeat split; auto. }
  rewrite A3.
  destruct isInteractive.
  - simpl. repeat split; auto.
  - rewrite plotObjectsFrom_length.
    destruct newPlots as [|x rest]; simpl.
    + rewrite app_nil_r. repeat split; auto.
    + rewrite A1. repeat split; auto.
Qed.

End PythonHook.

(** ** The R hook: what each step leaves alone *)

Section RHook.
Import UseWebR.
Context {I : Interpreter}.

Lemma r_keeps_refl (s : state) : keeps s s.
Proof. unfold keeps. repeat split. Qed.

Lemma r_keeps_trans (a b c : state) : keeps a b -> keeps b c -> keeps a c.
Proof.
  unfold keeps. intros (A1 & A2 & A3 & A4 & A5) (B1 & B2 & B3 & B4 & B5).
  repeat split; congruence.
Qed.

Lemma r_handleViewCallback_keeps (m : ViewMessage) (s : state) :
  keeps s (handleViewCallback m s)
  /\ webR (handleViewCallback m s) = webR s
  /\ environment (handleViewCallback m s) = environment s.
Proof.
  unfold handleViewCallback. destruct (viewData m) as [dataObj|e].
  - destruct (rObjectToTable dataObj); unfold keeps; simpl; repeat split.
  - unfold keeps. repeat split.
Qed.

Lemma r_viewed_keeps (msgs : list ViewMessage) (s : state) :
  let s' := List.fold_left (fun acc m => handleViewCallback m acc) msgs s in
  keeps s s' /\ webR s' = webR s /\ environment s' = environment s.
Proof.
  revert s. induction msgs as [|m msgs IH]; intros s; simpl.
  - split; [apply r_keeps_refl | split; reflexivity].
  - destruct (IH (handleViewCallback m s)) as (K & W & E).
    destruct (r_handleViewCallback_keeps m s) as (K0 & W0 & E0).
    split; [eapply r_keeps_trans; eassumption | split; congruence].
Qed.

Lemma r_await_spec {A : Type} (call : webr -> Ran webr A) (s : state) (w : webr) :
  webR s = Some w ->
  keeps s (fst (await call s))
  /\ webR (fst (await call s)) = Some (after (call w))
  /\ environment (fst (await call s)) = environment s
  /\ snd (await call s) = result (call w).
Proof.
  intros Hw. unfold await. rewrite Hw. simpl.
  destruct (r_viewed_keeps (viewed (call w)) (setWebR (Some (after (call w))) s))
    as (K & W & E).
  split; [exact K | split; [rewrite W; reflexivity | split; [rewrite E|]; reflexivity]].
Qed.

Lemma r_readResult_keeps (v : Js.value) (s : state) :
  keeps s (readResult v s) /\ webR (readResult v s) = webR s.
Proof.
  unfold readResult. destruct (negb (isRList v)); unfold keeps; simpl; repeat split.
Qed.

(** [updateEnvironment] evaluates the script on the interpreter it finds and
    stores the [env] section of its value. *)
Lemma r_updateEnvironment_spec (s : state) (w : webr) :
  webR s = Some w ->
  let s' := updateEnvironment s in
  keeps s s'
  /\ webR s' = Some (after (inspect w))
  /\ environment s'
     = match result (inspect w) with
       | Resolved v =>
           if isRList v
           then envSection (Js.elements (Js.prop "names" v))
                           (Js.elements (Js.prop "values" v)) (environment s)
           else environment s
       | Rejected _ => environment s
       end.
Proof.
  intros Hw. unfold updateEnvironment. rewrite Hw.
  destruct (r_await_spec inspect s w Hw) as (K & W & E & R).
  destruct (await inspect s) as [s1 resultJs]. simpl in *. subst resultJs.
  destruct (result (inspect w)) as [v|e].
  - destruct (r_readResult_keeps v s1) as (K1 & W1).
    split; [eapply r_keeps_trans; eassumption | split; [congruence|]].
    unfold readResult. destruct (isRList v); simpl; congruence.
  - auto.
Qed.

Lemma newPlotsFrom_counter (counter : nat) (imgs : list (option string)) :
  snd (newPlotsFrom counter imgs)
  = (counter + List.length (fst (newPlotsFrom counter imgs)))%nat.
Proof.
  revert counter. induction imgs as [|[url|] rest IH]; intros counter; simpl.
  - lia.
  - specialize (IH (S counter)). destruct (newPlotsFrom (S counter) rest). simpl in *. lia.
  - apply IH.
Qed.

(** [runCode] on a backend that is ready. *)
Lemma r_runCode_spec (code : string) (s : state) (w : webr) :
  webR s = Some w -> isLoading s = false -> shelter s = true ->
  let ran := captureR (codeToExecute code) w in
  let s' := runCode code s in
  webR s' = Some (after (inspect (after ran)))
  /\ environment s'
     = match result (inspect (after ran)) with
       | Resolved v =>
           if isRList v
           then envSection (Js.elements (Js.prop "names" v))
                           (Js.elements (Js.prop "values" v)) (environment s)
           else environment s
       | Rejected _ => environment s
       end
  /\ match result ran with
     | Rejected e =>
         plots s' = plots s
         /\ consoleOutput s'
            = consoleOutput s ++ [mkLine input code; mkLine stderr e]
     | Resolved captureResult =>
         plots s' = plots s ++ fst (newPlotsFrom (plotIdCounter s) (images captureResult))
         /\ exists more, consoleOutput s' = consoleOutput s ++ mkLine input code :: more
     end.
Proof.
  intros Hw Hl Hs ran s'. subst s'. unfold runCode. rewrite Hw, Hl, Hs. simpl.
  assert (Hw0 : webR (log input code s) = Some w) by exact Hw.
  destruct (r_await_spec (captureR (codeToExecute code)) _ w Hw0) as (K & W & E & R).
  destruct (await (captureR (codeToExecute code)) (log input code s)) as [s1 captured].
  simpl in K, W, E, R. subst captured. fold ran in W |- *.
  destruct K as (K1 & K2 & K3 & K4 & K5). simpl in K1, K2, K3, K4, K5, E.
  destruct (result ran) as [captureResult|e].
  - set (s1a := logIfAny stdout _ s1).
    set (s1b := logIfAny stderr _ s1a).
    assert (Ha : plots s1b = plots s /\ plotIdCounter s1b = plotIdCounter s
                 /\ webR s1b = Some (after ran) /\ environment s1b = environment s
                 /\ exists more, consoleOutput s1b
                                 = consoleOutput s ++ mkLine input code :: more).
    { subst s1b s1a. unfold logIfAny.
      destruct (String.eqb _ "") ; destruct (String.eqb _ ""); simpl;
        rewrite ?K1; repeat split; auto.
      - exists []. reflexivity.
      - eexists. rewrite <- app_assoc. reflexivity.
      - eexists. rewrite <- app_assoc. reflexivity.
      - eexists. rewrite <- !app_assoc. reflexivity. }
    destruct Ha as (P & C & W1 & E1 & M).
    destruct (0 <? List.length (images captureResult))%nat eqn:Hn.
    + destruct (newPlotsFrom (plotIdCounter s1b) (images captureResult))
        as [newPlots counter] eqn:Hnew.
      match goal with |- context [updateEnvironment ?m] => set (mid := m) end.
      assert (Wm : webR mid = Some (after ran)) by exact W1.
      destruct (r_updateEnvironment_spec mid _ Wm) as ((U1 & U2 & U3 & U4 & U5) & UW & UE).
      split; [exact UW|]. split; [rewrite UE; subst mid; simpl; rewrite E1; reflexivity|].
      split.
      * rewrite U2. subst mid. simpl. rewrite P, <- C, Hnew. reflexivity.
      * rewrite U1. subst mid. simpl. exact M.
    + destruct (r_updateEnvironment_spec s1b _ W1) as ((U1 & U2 & U3 & U4 & U5) & UW & UE).
      split; [exact UW|]. split; [rewrite UE, E1; reflexivity|].
      split.
      * rewrite U2, P. apply Nat.ltb_ge in Hn.
        destruct (images captureResult); [simpl; symmetry; apply app_nil_r | simpl in Hn; lia].
      * rewrite U1. exact M.
  - assert (Wm : webR (log stderr e s1) = Some (after ran)) by exact W.
    destruct (r_updateEnvironment_spec _ _ Wm) as ((U1 & U2 & U3 & U4 & U5) & UW & UE).
    split; [exact UW|]. split; [rewrite UE; simpl; rewrite E; reflexivity|].
    split.
    + rewrite U2. simpl. exact K2.
    + rewrite U1. simpl. rewrite K1, <- app_assoc. reflexivity.
Qed.

End RHook.

(** ** Running code *)

Section PythonRun.
Import UsePyodide.
Context {I : Interpreter}.

(** [runCode] on a backend that is ready. *)
Lemma py_runCode_spec (code : string) (isInteractive : bool) (s : state) (p : py) :
  pyodide s = Some p -> isLoading s = false ->
  let before := if negb isInteractive then closeAll p
                else mkRan _ _ p [] (Resolved tt) in
  let exec := runUser code (after before) in
  let drawn := renderFigures (after exec) in
  let s' := runCode code isInteractive s in
  tableData s' = tableData s /\ isLoading s' = false
  /\ (exists more, consoleOutput s' = consoleOutput s ++ mkLine input code :: more)
  /\ exists q,
       pyodide s' = Some (after (inspectScope q))
       /\ environment s' = refreshedFrom q (environment s)
       /\ match result before with
          | Rejected _ => q = after before /\ plots s' = plots s
                          /\ plotIdCounter s' = plotIdCounter s
          | Resolved _ =>
              match result exec with
              | Rejected _ => q = after exec /\ plots s' = plots s
                              /\ plotIdCounter s' = plotIdCounter s
              | Resolved _ =>
                  q = after drawn
                  /\ match result drawn with
                     | Rejected _ => plots s' = plots s
                                     /\ plotIdCounter s' = plotIdCounter s
                     | Resolved newPlots =>
                         plots s'
                         = (if isInteractive then [] else plots s)
                           ++ plotObjectsFrom (plotIdCounter s) newPlots
                         /\ plotIdCounter s'
                            = (plotIdCounter s + List.length newPlots)%nat
                     end
              end
          end.
Proof.
  intros Hp Hl before exec drawn s'. subst s'. unfold runCode. rewrite Hp, Hl.
  assert (Hp0 : pyodide (log input code s) = Some p) by exact Hp.
  pose proof (runCodeTry_spec code isInteractive (log input code s) p Hp0) as H.
  simpl in H. fold before exec drawn in H.
  set (mid := runCodeTry code isInteractive (log input code s)) in *.
  destruct H as (T & L & E & [more X] & H).
  assert (Hq : exists q, pyodide mid = Some q
             /\ match result before with
                | Rejected _ => q = after before /\ plots mid = plots s
                                /\ plotIdCounter mid = plotIdCounter s
                | Resolved _ =>
                    match result exec with
                    | Rejected _ => q = after exec /\ plots mid = plots s
                                    /\ plotIdCounter mid = plotIdCounter s
                    | Resolved _ =>
                        q = after drawn
                        /\ match result drawn with
                           | Rejected _ => plots mid = plots s
                                           /\ plotIdCounter mid = plotIdCounter s
                           | Resolved newPlots =>
                               plots mid
                               = (if isInteractive then [] else plots s)
                                 ++ plotObjectsFrom (plotIdCounter s) newPlots
                               /\ plotIdCounter mid
                                  = (plotIdCounter s + List.length newPlots)%nat
                           end
                    end
                end).
  { destruct (result before) as [[]|e0].
    - destruct (result exec) as [[]|e1].
      + destruct H as (Q & H). exists (after drawn). auto.
      + destruct H as (Q & H). exists (after exec). auto.
    - destruct H as (Q & H). exists (after before). auto. }
  destruct Hq as (q & Q & Hq).
  destruct (py_updateEnvironment_spec mid q Q) as (U1 & U2 & U3 & U4 & [more' U5] & U6 & U7).
  split; [congruence|]. split; [congruence|].
  split.
  { exists (more ++ more'). rewrite U5, X. simpl. rewrite <- !app_assoc. reflexivity. }
  exists q. split; [exact U6|].
  split; [unfold refreshedFrom; rewrite U7, E; reflexivity|].
  rewrite U1, U3. exact Hq.
Qed.

End PythonRun.

(** C1 (as amended).  For every [runCode] call on an initialized backend,
    whether executing the source succeeds or raises: every console line
    present before the call is still there, followed by the echoed input, and
    the environment snapshot is refreshed from the interpreter as the run
    left it.  The plot collection is refreshed only when the execution
    succeeds (appended to by a script run and by the R backend, replaced by
    an interactive Python run); when the execution raises, the plot
    collection is exactly what it was before the call. *)
Theorem runCode_refreshes_environment_keeps_output :
  (forall (P : UsePyodide.Interpreter) (code : string) (isInteractive : bool)
          (s : UsePyodide.state) (p : UsePyodide.py),
      UsePyodide.pyodide s = Some p -> UsePyodide.isLoading s = false ->
      let before := if negb isInteractive then UsePyodide.closeAll p
                    else UsePyodide.mkRan _ _ p [] (Resolved tt) in
      let exec := UsePyodide.runUser code (UsePyodide.after before) in
      let drawn := UsePyodide.renderFigures (UsePyodide.after exec) in
      let s' := UsePyodide.runCode code isInteractive s in
      (exists more, UsePyodide.consoleOutput s'
                    = UsePyodide.consoleOutput s ++ mkLine input code :: more)
      /\ (exists q, UsePyodide.environment s'
                    = UsePyodide.refreshedFrom q (UsePyodide.environment s))
      /\ (forall e, UsePyodide.result before = Resolved tt ->
                    UsePyodide.result exec = Rejected e ->
                    UsePyodide.plots s' = UsePyodide.plots s
                    /\ UsePyodide.environment s'
                       = UsePyodide.refreshedFrom (UsePyodide.after exec)
                           (UsePyodide.environment s))
      /\ (forall newPlots, UsePyodide.result before = Resolved tt ->
                    UsePyodide.result exec = Resolved tt ->
                    UsePyodide.result drawn = Resolved newPlots ->
                    UsePyodide.plots s'
                    = (if isInteractive then [] else UsePyodide.plots s)
                      ++ UsePyodide.plotObjectsFrom (UsePyodide.plotIdCounter s) newPlots
                    /\ UsePyodide.environment s'
                       = UsePyodide.refreshedFrom (UsePyodide.after drawn)
                           (UsePyodide.environment s)))
  /\ (forall (R : UseWebR.Interpreter) (code : string) (s : UseWebR.state)
             (w : UseWebR.webr),
      UseWebR.webR s = Some w -> UseWebR.isLoading s = false ->
      UseWebR.shelter s = true ->
      let ran := UseWebR.captureR (UseWebR.codeToExecute code) w in
      let s' := UseWebR.runCode code s in
      (exists more, UseWebR.consoleOutput s'
                    = UseWebR.consoleOutput s ++ mkLine input code :: more)
      /\ UseWebR.environment s'
         = UseWebR.refreshedFrom (UseWebR.after ran) (UseWebR.environment s)
      /\ (forall e, UseWebR.result ran = Rejected e ->
                    UseWebR.plots s' = UseWebR.plots s)
      /\ (forall captureResult, UseWebR.result ran = Resolved captureResult ->
                    UseWebR.plots s'
                    = UseWebR.plots s
                      ++ fst (UseWebR.newPlotsFrom (UseWebR.plotIdCounter s)
                                (UseWebR.images captureResult)))).
Proof.
  split.
  - intros P code isInteractive s p Hp Hl before exec drawn s'.
    destruct (py_runCode_spec code isInteractive s p Hp Hl)
      as (_ & _ & Hc & q & _ & He & H).
    fold before exec drawn s' in Hc, He, H.
    split; [exact Hc|]. split; [exists q; exact He|]. split.
    + intros e Hb Hx. rewrite Hb, Hx in H. destruct H as (-> & Hplots & _). auto.
    + intros newPlots Hb Hx Hd. rewrite Hb, Hx, Hd in H.
      destruct H as (-> & Hplots & _). auto.
  - intros R code s w Hw Hl Hs ran s'.
    destruct (r_runCode_spec code s w Hw Hl Hs) as (_ & He & H).
    fold ran s' in He, H.
    split; [|split; [exact He|split]].
    + destruct (UseWebR.result ran) as [c|e].
      * destruct H as (_ & Hm). exact Hm.
      * destruct H as (_ & Hm). exists [mkLine stderr e]. exact Hm.
    + intros e Hx. rewrite Hx in H. apply H.
    + intros c Hx. rewrite Hx in H. apply H.
Qed.

(** C1, an initialized backend of each flavor running a source that raises. *)
Lemma runCode_refreshes_environment_keeps_output_witness :
  let s := ToyPython.ready ToyPython.session in
  let s' := UsePyodide.runCode
              (program ["plt.figure(1)"; "raise ValueError('boom')"]) false s in
  let t := ToyR.ready ToyR.session in
  let t' := UseWebR.runCode "plot(1:10); stop('boom')" t in
  (UsePyodide.pyodide s = Some ToyPython.session /\ UsePyodide.isLoading s = false
   /\ UsePyodide.plots s' = UsePyodide.plots s)
  /\ (UseWebR.webR t = Some ToyR.session /\ UseWebR.isLoading t = false
      /\ UseWebR.shelter t = true /\ UseWebR.plots t' = UseWebR.plots t).
Proof.
  destruct runCode_refreshes_environment_keeps_output as [Hpy Hr].
  split.
  - split; [reflexivity|]. split; [reflexivity|].
    destruct (Hpy ToyPython.interpreter
                (program ["plt.figure(1)"; "raise ValueError('boom')"]) false
                (ToyPython.ready ToyPython.session) ToyPython.session
                eq_refl eq_refl) as (_ & _ & Hfail & _).
    exact (proj1 (Hfail "ValueError: boom" eq_refl eq_refl)).
  - split; [reflexivity|]. split; [reflexivity|]. split; [reflexivity|].
    destruct (Hr ToyR.interpreter "plot(1:10); stop('boom')"
                (ToyR.ready ToyR.session) ToyR.session eq_refl eq_refl eq_refl)
      as (_ & _ & Hfail & _).
    exact (Hfail "Error: boom" eq_refl).
Defined.

(** C1 as stated fails: a script that opens a figure and then raises leaves
    the figure open in the interpreter and the plot collection empty, so the
    plot collection is not refreshed after a failure. *)
Lemma failed_run_does_not_refresh_plots :
  let s := ToyPython.ready ToyPython.session in
  let s' := UsePyodide.runCode
              (program ["plt.figure(1)"; "raise ValueError('boom')"]) false s in
  UsePyodide.plots s' = []
  /\ (exists q, UsePyodide.pyodide s' = Some q
                /\ UsePyodide.result (UsePyodide.renderFigures q) = Resolved ["PNG1"])
  /\ ~ UsePyodide.capturesOpenFigures s'.
Proof.
  split; [reflexivity|]. split.
  - eexists. split; [vm_compute; reflexivity | vm_compute; reflexivity].
  - intros H.
    assert (Hq : exists q,
               UsePyodide.pyodide
                 (UsePyodide.runCode
                    (program ["plt.figure(1)"; "raise ValueError('boom')"]) false
                    (ToyPython.ready ToyPython.session)) = Some q
               /\ UsePyodide.result (UsePyodide.renderFigures q) = Resolved ["PNG1"])
      by (eexists; split; vm_compute; reflexivity).
    destruct Hq as (q & Hq & Hdrawn).
    destruct (H q ["PNG1"] "PNG1" Hq Hdrawn (or_introl eq_refl)) as (plot & Hin & _).
    exact Hin.
Qed.

(** ** Plot capture of the Python backend *)

(** C2 (as amended).  A script run first closes every figure, then appends
    one record per figure open after the execution, in the interpreter's
    order, and leaves those figures open; so a script leaving two figures
    followed by a script leaving one gives three more records, in submission
    order.  An interactive run closes nothing and replaces the plot list by
    one record per figure open after the execution, so a statement after
    which one figure is open yields a plot list of length one. *)
Theorem python_plot_capture :
  forall (P : UsePyodide.Interpreter) (s : UsePyodide.state) (p : UsePyodide.py),
    UsePyodide.pyodide s = Some p -> UsePyodide.isLoading s = false ->
    (* one script *)
    (forall code newPlots,
        let exec := UsePyodide.runUser code
                      (UsePyodide.after (UsePyodide.closeAll p)) in
        let drawn := UsePyodide.renderFigures (UsePyodide.after exec) in
        let s' := UsePyodide.runCode code false s in
        UsePyodide.result (UsePyodide.closeAll p) = Resolved tt ->
        UsePyodide.result exec = Resolved tt ->
        UsePyodide.result drawn = Resolved newPlots ->
        UsePyodide.plots s'
        = UsePyodide.plots s
          ++ UsePyodide.plotObjectsFrom (UsePyodide.plotIdCounter s) newPlots
        /\ UsePyodide.pyodide s'
           = Some (UsePyodide.after
                     (UsePyodide.inspectScope (UsePyodide.after drawn))))
    (* two scripts *)
    /\ (forall first second a b c,
        let exec1 := UsePyodide.runUser first
                       (UsePyodide.after (UsePyodide.closeAll p)) in
        let drawn1 := UsePyodide.renderFigures (UsePyodide.after exec1) in
        let p' := UsePyodide.after
                    (UsePyodide.inspectScope (UsePyodide.after drawn1)) in
        let exec2 := UsePyodide.runUser second
                       (UsePyodide.after (UsePyodide.closeAll p')) in
        let drawn2 := UsePyodide.renderFigures (UsePyodide.after exec2) in
        let n := UsePyodide.plotIdCounter s in
        UsePyodide.result (UsePyodide.closeAll p) = Resolved tt ->
        UsePyodide.result exec1 = Resolved tt ->
        UsePyodide.result drawn1 = Resolved [a; b] ->
        UsePyodide.result (UsePyodide.closeAll p') = Resolved tt ->
        UsePyodide.result exec2 = Resolved tt ->
        UsePyodide.result drawn2 = Resolved [c] ->
        UsePyodide.plots
          (UsePyodide.runCode second false (UsePyodide.runCode first false s))
        = UsePyodide.plots s
          ++ [ mkPlot (plotId n) ("data:image/png;base64," ++ a)%string;
               mkPlot (plotId (S n)) ("data:image/png;base64," ++ b)%string;
               mkPlot (plotId (S (S n))) ("data:image/png;base64," ++ c)%string ])
    (* one interactive statement *)
    /\ (forall code newPlots,
        let exec := UsePyodide.runUser code p in
        let drawn := UsePyodide.renderFigures (UsePyodide.after exec) in
        let s' := UsePyodide.runCode code true s in
        UsePyodide.result exec = Resolved tt ->
        UsePyodide.result drawn = Resolved newPlots ->
        UsePyodide.plots s'
        = UsePyodide.plotObjectsFrom (UsePyodide.plotIdCounter s) newPlots
        /\ List.length (UsePyodide.plots s') = List.length newPlots).
Proof.
  intros P s p Hp Hl.
  assert (Script : forall code newPlots,
             let exec := UsePyodide.runUser code
                           (UsePyodide.after (UsePyodide.closeAll p)) in
             let drawn := UsePyodide.renderFigures (UsePyodide.after exec) in
             let s' := UsePyodide.runCode code false s in
             UsePyodide.result (UsePyodide.closeAll p) = Resolved tt ->
             UsePyodide.result exec = Resolved tt ->
             UsePyodide.result drawn = Resolved newPlots ->
             UsePyodide.plots s'
             = UsePyodide.plots s
               ++ UsePyodide.plotObjectsFrom (UsePyodide.plotIdCounter s) newPlots
             /\ UsePyodide.pyodide s'
                = Some (UsePyodide.after
                          (UsePyodide.inspectScope (UsePyodide.after drawn)))
             /\ UsePyodide.isLoading s' = false
             /\ UsePyodide.plotIdCounter s'
                = (UsePyodide.plotIdCounter s + List.length newPlots)%nat).
  { intros code newPlots exec drawn s' Hb Hx Hd.
    destruct (py_runCode_spec code false s p Hp Hl) as (_ & L & _ & q & Q & _ & H).
    simpl in H. fold exec drawn s' in H, Q, L. rewrite Hb, Hx, Hd in H.
    destruct H as (-> & H1 & H2). auto. }
  split; [|split].
  - intros code newPlots exec drawn s' Hb Hx Hd.
    destruct (Script code newPlots Hb Hx Hd) as (H1 & H2 & _). auto.
  - intros first second a b c exec1 drawn1 p' exec2 drawn2 n Hb1 Hx1 Hd1 Hb2 Hx2 Hd2.
    destruct (Script first [a; b] Hb1 Hx1 Hd1) as (P1 & Q1 & L1 & C1).
    fold exec1 drawn1 p' in Q1.
    destruct (py_runCode_spec second false _ p' Q1 L1) as (_ & _ & _ & q & _ & _ & H).
    simpl in H. fold exec2 drawn2 in H. rewrite Hb2, Hx2, Hd2 in H.
    destruct H as (_ & H & _). rewrite H, P1, C1. simpl.
    rewrite <- app_assoc. simpl. subst n.
    replace (UsePyodide.plotIdCounter s + 2)%nat
      with (S (S (UsePyodide.plotIdCounter s))) by lia.
    reflexivity.
  - intros code newPlots exec drawn s' Hx Hd.
    destruct (py_runCode_spec code true s p Hp Hl) as (_ & _ & _ & q & _ & _ & H).
    simpl in H. fold exec drawn s' in H. rewrite Hx, Hd in H.
    destruct H as (_ & H & _). simpl in H. rewrite H.
    split; [reflexivity | apply plotObjectsFrom_length].
Qed.

(** C2, on a session: a script drawing two figures, a script drawing one,
    and an interactive statement drawing twice on the same figure. *)
Lemma python_plot_capture_witness :
  let s := ToyPython.ready ToyPython.session in
  let twoThenOne :=
    UsePyodide.runCode (program ["plt.figure(1)"])false
      (UsePyodide.runCode (program ["plt.figure(1)"; "plt.figure(2)"]) false s) in
  let redrawn :=
    UsePyodide.runCode
      (program ["plt.plot([3, 1, 2])"; "plt.plot([3, 1, 2])"]) true s in
  UsePyodide.pyodide s = Some ToyPython.session /\ UsePyodide.isLoading s = false
  /\ UsePyodide.plots twoThenOne
     = [ mkPlot "plot-0" "data:image/png;base64,PNG1";
         mkPlot "plot-1" "data:image/png;base64,PNG2";
         mkPlot "plot-2" "data:image/png;base64,PNG1" ]
  /\ List.length (UsePyodide.plots redrawn) = 1%nat.
Proof.
  split; [reflexivity|]. split; [reflexivity|].
  destruct (python_plot_capture ToyPython.interpreter
              (ToyPython.ready ToyPython.session) ToyPython.session eq_refl eq_refl)
    as (_ & Htwo & Hone).
  split.
  - exact (Htwo (program ["plt.figure(1)"; "plt.figure(2)"]) (program ["plt.figure(1)"])
             "PNG1" "PNG2" "PNG1" eq_refl eq_refl eq_refl eq_refl eq_refl eq_refl).
  - exact (proj2 (Hone (program ["plt.plot([3, 1, 2])"; "plt.plot([3, 1, 2])"])
                    ["PNG1"] eq_refl eq_refl)).
Defined.

(** C2 as stated fails: after a script run the figures it drew are still
    open, and an interactive run that draws nothing then shows them again. *)
Lemma script_run_leaves_figures_open :
  let s := ToyPython.ready ToyPython.session in
  let s' := UsePyodide.runCode (program ["plt.figure(1)"; "plt.figure(2)"]) false s in
  ~ UsePyodide.figureSetEmpty s'
  /\ List.length (UsePyodide.plots (UsePyodide.runCode "x = 1" true s')) = 2%nat.
Proof.
  split; [|vm_compute; reflexivity].
  intros H.
  assert (Hq : exists q,
             UsePyodide.pyodide
               (UsePyodide.runCode (program ["plt.figure(1)"; "plt.figure(2)"]) false
                  (ToyPython.ready ToyPython.session)) = Some q
             /\ UsePyodide.result (UsePyodide.renderFigures q) = Resolved ["PNG1"; "PNG2"])
    by (eexists; split; vm_compute; reflexivity).
  destruct Hq as (q & Hq & Hdrawn).
  specialize (H q Hq). rewrite Hdrawn in H. discriminate H.
Qed.

(** ** The console only grows *)

Section PythonConsole.
Import UsePyodide.
Context {I : Interpreter}.

Lemma py_viewObjectByName_extends (x : string) (s : state) :
  extends s (viewObjectByName x s).
Proof.
  unfold viewObjectByName.
  destruct (pyodide s) as [p|] eqn:Hp; [|apply py_log_keeps].
  destruct (Js.nonEmptyOf Js.isWordChar x); [|apply py_log_keeps].
  destruct (py_await_spec (viewScript x) s p Hp) as (K & _ & _).
  destruct (await (viewScript x) s) as [s1 tableJson]. simpl in K.
  destruct K as (_ & _ & _ & _ & _ & K).
  destruct tableJson as [[parsed|]|e].
  - exact K.
  - eapply py_extends_trans; [exact K | apply py_log_keeps].
  - eapply py_extends_trans; [exact K | apply py_log_keeps].
Qed.

Lemma py_viewPlotByName_extends (x : string) (s : state) :
  extends s (viewPlotByName x s).
Proof.
  unfold viewPlotByName.
  destruct (pyodide s) as [p|] eqn:Hp; [|apply py_log_keeps].
  destruct (Js.nonEmptyOf Js.isWordChar x); [|apply py_log_keeps].
  destruct (py_await_spec (plotScript x) s p Hp) as (K & _ & _).
  destruct (await (plotScript x) s) as [s1 b64string]. simpl in K.
  destruct K as (_ & _ & _ & _ & _ & K).
  destruct b64string as [[b64|]|e].
  - destruct (String.eqb b64 "").
    + eapply py_extends_trans; [exact K | apply py_log_keeps].
    + exact K.
  - eapply py_extends_trans; [exact K | apply py_log_keeps].
  - eapply py_extends_trans; [exact K | apply py_log_keeps].
Qed.

Lemma py_runCode_extends (code : string) (isInteractive : bool) (s : state) :
  extends s (runCode code isInteractive s).
Proof.
  destruct (pyodide s) as [p|] eqn:Hp.
  - destruct (isLoading s) eqn:Hl.
    + unfold runCode. rewrite Hp, Hl. apply py_extends_refl.
    + destruct (py_runCode_spec code isInteractive s p Hp Hl) as (_ & _ & [more H] & _).
      exists (mkLine input code :: more). exact H.
  - unfold runCode. rewrite Hp. apply py_extends_refl.
Qed.

Lemma py_perform_extends (o : op) (s : state) :
  o <> ClearConsole -> extends s (perform o s).
Proof.
  intros Ho. destruct o; simpl.
  - apply py_runCode_extends.
  - apply py_viewObjectByName_extends.
  - apply py_viewPlotByName_extends.
  - exists []. symmetry. apply app_nil_r.
  - exists []. symmetry. apply app_nil_r.
  - congruence.
Qed.

Lemma py_extends_length (s s' : state) :
  extends s s' -> (List.length (consoleOutput s) <= List.length (consoleOutput s'))%nat.
Proof. intros [more H]. rewrite H, length_app. lia. Qed.

End PythonConsole.

Section RConsole.
Import UseWebR.
Context {I : Interpreter}.

Lemma r_perform_extends (o : op) (s : state) :
  o <> ClearConsole ->
  exists more, consoleOutput (perform o s) = consoleOutput s ++ more.
Proof.
  intros Ho. destruct o; simpl.
  - destruct (webR s) as [w|] eqn:Hw.
    + destruct (isLoading s) eqn:Hl; [|destruct (shelter s) eqn:Hs].
      * unfold runCode. rewrite Hw, Hl. exists []. symmetry. apply app_nil_r.
      * destruct (r_runCode_spec code s w Hw Hl Hs) as (_ & _ & H).
        destruct (result (captureR (codeToExecute code) w)) as [c|e].
        -- destruct H as (_ & more & H). eexists. exact H.
        -- destruct H as (_ & H). eexists. exact H.
      * unfold runCode. rewrite Hw, Hl, Hs. exists []. symmetry. apply app_nil_r.
    + unfold runCode. rewrite Hw. exists []. symmetry. apply app_nil_r.
  - unfold viewObjectByName. destruct (negb _).
    + eexists. reflexivity.
    + destruct (find x (viewableDataFrames s)).
      * exists []. symmetry. apply app_nil_r.
      * exists []. symmetry. apply app_nil_r.
      * eexists. reflexivity.
  - exists []. symmetry. apply app_nil_r.
  - exists []. symmetry. apply app_nil_r.
  - congruence.
Qed.

End RConsole.

(** C8.  In every sequence of operations on either backend, each operation
    other than [clearConsole] (every [runCode] call in particular) leaves the
    console at least as long as it found it, and [clearConsole] leaves it
    empty: [clearConsole] is the only operation after which the console can
    be shorter. *)
Theorem console_grows_except_on_clear :
  (forall (P : UsePyodide.Interpreter) (ops : list UsePyodide.op)
          (o : UsePyodide.op) (s : UsePyodide.state),
      let s1 := UsePyodide.performAll ops s in
      let s2 := UsePyodide.perform o s1 in
      (forall code isInteractive, o = UsePyodide.RunCode code isInteractive ->
         (List.length (UsePyodide.consoleOutput s1)
          <= List.length (UsePyodide.consoleOutput s2))%nat)
      /\ (o = UsePyodide.ClearConsole -> UsePyodide.consoleOutput s2 = [])
      /\ ((List.length (UsePyodide.consoleOutput s2)
           < List.length (UsePyodide.consoleOutput s1))%nat ->
          o = UsePyodide.ClearConsole))
  /\ (forall (R : UseWebR.Interpreter) (ops : list UseWebR.op)
             (o : UseWebR.op) (s : UseWebR.state),
      let s1 := UseWebR.performAll ops s in
      let s2 := UseWebR.perform o s1 in
      (forall code, o = UseWebR.RunCode code ->
         (List.length (UseWebR.consoleOutput s1)
          <= List.length (UseWebR.consoleOutput s2))%nat)
      /\ (o = UseWebR.ClearConsole -> UseWebR.consoleOutput s2 = [])
      /\ ((List.length (UseWebR.consoleOutput s2)
           < List.length (UseWebR.consoleOutput s1))%nat ->
          o = UseWebR.ClearConsole)).
Proof.
  split.
  - intros P ops o s s1 s2. subst s2. split; [|split].
    + intros code isInteractive ->. apply py_extends_length, py_runCode_extends.
    + intros ->. reflexivity.
    + intros Hlt. destruct o; try reflexivity; exfalso;
        match type of Hlt with
        | context [UsePyodide.perform ?o' s1] =>
            assert (Hne : o' <> UsePyodide.ClearConsole) by discriminate;
            pose proof (py_extends_length s1 _ (py_perform_extends o' s1 Hne)) as H;
            lia
        end.
  - intros R ops o s s1 s2. subst s2. split; [|split].
    + intros code ->.
      destruct (r_perform_extends (UseWebR.RunCode code) s1 ltac:(discriminate))
        as [more H].
      rewrite H, length_app. lia.
    + intros ->. reflexivity.
    + intros Hlt. destruct o; try reflexivity; exfalso;
        match type of Hlt with
        | context [UseWebR.perform ?o' s1] =>
            assert (Hne : o' <> UseWebR.ClearConsole) by discriminate;
            destruct (r_perform_extends o' s1 Hne) as [more H];
            rewrite H, length_app in Hlt; lia
        end.
Qed.

(** C8, on a session of each flavor: two runs, then a clear. *)
Lemma console_grows_except_on_clear_witness :
  let s := UsePyodide.performAll
             [UsePyodide.RunCode "print('hello')" false;
              UsePyodide.RunCode "raise ValueError('boom')" true]
             (ToyPython.ready ToyPython.session) in
  let t := UseWebR.performAll
             [UseWebR.RunCode "print('hello')"; UseWebR.RunCode "plot(1:10)"]
             (ToyR.ready ToyR.session) in
  (List.length (UsePyodide.consoleOutput s) = 3%nat
   /\ UsePyodide.consoleOutput (UsePyodide.perform UsePyodide.ClearConsole s) = []
   /\ (List.length (UsePyodide.consoleOutput s)
       <= List.length (UsePyodide.consoleOutput
                         (UsePyodide.perform (UsePyodide.RunCode "x = 1" false) s)))%nat)
  /\ (List.length (UseWebR.consoleOutput t) = 3%nat
      /\ UseWebR.consoleOutput (UseWebR.perform UseWebR.ClearConsole t) = []
      /\ (List.length (UseWebR.consoleOutput t)
          <= List.length (UseWebR.consoleOutput
                            (UseWebR.perform (UseWebR.RunCode "x <- 1") t)))%nat).
Proof.
  destruct console_grows_except_on_clear as [Hpy Hr].
  split.
  - split; [reflexivity|].
    destruct (Hpy ToyPython.interpreter
                [UsePyodide.RunCode "print('hello')" false;
                 UsePyodide.RunCode "raise ValueError('boom')" true]
                UsePyodide.ClearConsole (ToyPython.ready ToyPython.session))
      as (_ & Hclear & _).
    split; [exact (Hclear eq_refl)|].
    destruct (Hpy ToyPython.interpreter
                [UsePyodide.RunCode "print('hello')" false;
                 UsePyodide.RunCode "raise ValueError('boom')" true]
                (UsePyodide.RunCode "x = 1" false) (ToyPython.ready ToyPython.session))
      as (Hrun & _).
    exact (Hrun "x = 1" false eq_refl).
  - split; [reflexivity|].
    destruct (Hr ToyR.interpreter
                [UseWebR.RunCode "print('hello')"; UseWebR.RunCode "plot(1:10)"]
                UseWebR.ClearConsole (ToyR.ready ToyR.session))
      as (_ & Hclear & _).
    split; [exact (Hclear eq_refl)|].
    destruct (Hr ToyR.interpreter
                [UseWebR.RunCode "print('hello')"; UseWebR.RunCode "plot(1:10)"]
                (UseWebR.RunCode "x <- 1") (ToyR.ready ToyR.session))
      as (Hrun & _).
    exact (Hrun "x <- 1" eq_refl).
Defined.

(** ** The environment snapshot of the Python backend *)

Section PythonEnvironment.
Import UsePyodide.
Context {I : Interpreter}.

Lemma listed_facts (builtins : list string) (x : string) (value : PyValue) :
  listed builtins x value = true ->
  startsWithUnderscore x = false /\ ~ In x builtins /\ ~ In x ignoredNames
  /\ typeName value <> "module".
Proof.
  unfold listed. rewrite !andb_true_iff, !negb_true_iff.
  intros ((Hm & Hu) & Ht). split; [exact Hu|].
  assert (Hnot : ~ In x (_vars_to_ignore builtins)).
  { intros Hin. apply memberOf_In in Hin. congruence. }
  unfold _vars_to_ignore in Hnot. rewrite in_app_iff in Hnot.
  split; [tauto|]. split; [tauto|].
  apply String.eqb_neq. exact Ht.
Qed.

End PythonEnvironment.

Section PythonSnapshot.
Import UsePyodide.
Context {I : Interpreter}.

Lemma inspectScope_wellFiltered (p : py) (old : gmap string PythonEnvObject) :
  wellFiltered old -> wellFiltered (refreshedFrom p old).
Proof.
  intros Hold. unfold refreshedFrom.
  destruct (result (inspectScope p)) as [env|e] eqn:Hrun; [|exact Hold].
  destruct (inspectScope_resolved p env Hrun) as (builtins & _ & _ & _ & _ & Hentries & _).
  intros x entry Hget.
  destruct (Hentries x entry Hget) as (i & value & repr_val & _ & Hl & _ & -> & _).
  destruct (listed_facts _ _ _ Hl) as (Hu & _ & _ & Ht). simpl. auto.
Qed.

Lemma py_perform_environment (o : op) (s : state) :
  environment (perform o s) = environment s
  \/ exists q, environment (perform o s) = refreshedFrom q (environment s).
Proof.
  destruct o; simpl.
  - destruct (pyodide s) as [p|] eqn:Hp;
      [destruct (isLoading s) eqn:Hl|].
    + left. unfold runCode. rewrite Hp, Hl. reflexivity.
    + destruct (py_runCode_spec code isInteractive s p Hp Hl)
        as (_ & _ & _ & q & _ & He & _).
      right. exists q. exact He.
    + left. unfold runCode. rewrite Hp. reflexivity.
  - left. unfold viewObjectByName.
    destruct (pyodide s) as [p|] eqn:Hp; [|reflexivity].
    destruct (Js.nonEmptyOf Js.isWordChar x); [|reflexivity].
    destruct (py_await_spec (viewScript x) s p Hp) as ((_ & _ & _ & _ & K & _) & _ & _).
    destruct (await (viewScript x) s) as [s1 tableJson]. simpl in K.
    destruct tableJson as [[parsed|]|e]; exact K.
  - left. unfold viewPlotByName.
    destruct (pyodide s) as [p|] eqn:Hp; [|reflexivity].
    destruct (Js.nonEmptyOf Js.isWordChar x); [|reflexivity].
    destruct (py_await_spec (plotScript x) s p Hp) as ((_ & _ & _ & _ & K & _) & _ & _).
    destruct (await (plotScript x) s) as [s1 b64string]. simpl in K.
    destruct b64string as [[b64|]|e]; [destruct (String.eqb b64 "")| |]; exact K.
  - left. reflexivity.
  - left. reflexivity.
  - left. reflexivity.
Qed.

Lemma py_performAll_wellFiltered (ops : list op) (s : state) :
  wellFiltered (environment s) -> wellFiltered (environment (performAll ops s)).
Proof.
  revert s. induction ops as [|o ops IH]; intros s Hw; [exact Hw|].
  simpl. apply IH.
  destruct (py_perform_environment o s) as [E | [q E]]; rewrite E.
  - exact Hw.
  - apply inspectScope_wellFiltered. exact Hw.
Qed.

End PythonSnapshot.

(** X25.  A refresh of the Python environment either leaves the snapshot
    as it was (the script raised) or replaces it by a snapshot in which no
    name has a leading underscore, is a builtin name or one of the names the
    script sets aside, and no entry describes a module; so no snapshot
    reached from the empty one ever holds an underscore name or a module.
    When the script ends normally, a binding that passes the filter and
    whose [repr] raises an [Exception] is in the snapshot with the
    placeholder made of its type name between angle brackets, cut like every
    other representation (so it is exactly that placeholder for a type name
    of at most 98 characters). *)
Theorem python_environment_is_filtered :
  forall (P : UsePyodide.Interpreter) (s : UsePyodide.state) (p : UsePyodide.py),
    UsePyodide.pyodide s = Some p ->
    let s' := UsePyodide.updateEnvironment s in
    let d0 := UsePyodide.globals (UsePyodide.after (UsePyodide.prepareScope p)) in
    (* every refresh *)
    (UsePyodide.environment s' = UsePyodide.environment s
     \/ exists builtins,
          UsePyodide.result (UsePyodide.prepareScope p) = Resolved builtins
          /\ forall x entry,
               UsePyodide.environment s' !! x = Some entry ->
               UsePyodide.startsWithUnderscore x = false
               /\ ~ In x builtins
               /\ ~ In x UsePyodide.ignoredNames
               /\ UsePyodide.envType entry <> "module")
    (* every state of a session *)
    /\ (forall ops,
          UsePyodide.wellFiltered (UsePyodide.environment s) ->
          UsePyodide.wellFiltered
            (UsePyodide.environment (UsePyodide.performAll ops s)))
    (* a repr that raises *)
    /\ (forall env,
          UsePyodide.result (UsePyodide.inspectScope p) = Resolved env ->
          NoDup (List.map fst d0) ->
          forall builtins x value,
            UsePyodide.result (UsePyodide.prepareScope p) = Resolved builtins ->
            In (x, value) d0 ->
            ~ In x UsePyodide.loopVariables ->
            UsePyodide.listed builtins x value = true ->
            UsePyodide.reprOf value = UsePyodide.ReprException ->
            exists entry,
              UsePyodide.environment s' !! x = Some entry
              /\ UsePyodide.envType entry = UsePyodide.typeName value
              /\ UsePyodide.envRepr entry
                 = UsePyodide.capRepr ("<" ++ UsePyodide.typeName value ++ ">")%string
              /\ ((String.length (UsePyodide.typeName value) <= 98)%nat ->
                  UsePyodide.envRepr entry
                  = ("<" ++ UsePyodide.typeName value ++ ">")%string)).
Proof.
  intros P s p Hp s' d0.
  destruct (py_updateEnvironment_spec s p Hp) as (_ & _ & _ & _ & _ & _ & He).
  fold s' in He. split; [|split].
  - destruct (UsePyodide.result (UsePyodide.inspectScope p)) as [env|e] eqn:Hrun;
      [|left; exact He].
    destruct (inspectScope_resolved p env Hrun) as (builtins & Hb & _ & _ & _ & Hentries & _).
    right. exists builtins. split; [exact Hb|].
    intros x entry Hget. rewrite He in Hget.
    destruct (Hentries x entry Hget) as (i & value & repr_val & _ & Hl & _ & -> & _).
    destruct (listed_facts _ _ _ Hl) as (Hu & Hnb & Hni & Ht). simpl. auto.
  - intros ops. apply py_performAll_wellFiltered.
  - intros env Hrun Hnd builtins x value Hb Hin Hx Hl Hr.
    rewrite Hrun in He.
    destruct (inspectScope_resolved p env Hrun) as (builtins' & Hb' & _ & _ & _ & _ & Hlists).
    rewrite Hb in Hb'. inversion Hb'; subst builtins'.
    destruct (Hlists Hnd x value Hin Hx Hl) as (repr_val & Hv & Hget).
    unfold UsePyodide.repr_val_of in Hv. rewrite Hr in Hv. inversion Hv; subst repr_val.
    eexists. split; [rewrite He; exact Hget|]. simpl.
    split; [reflexivity|]. split; [reflexivity|].
    intros Hlen.
    destruct (capRepr_cases ("<" ++ UsePyodide.typeName value ++ ">")%string)
      as [[_ E] | [Hbig _]]; [exact E|].
    rewrite !length_append in Hbig. simpl in Hbig. lia.
Qed.

(** X25, on a session with a private name, a module and a value whose
    [repr] raises. *)
Lemma python_environment_is_filtered_witness :
  let s := ToyPython.ready ToyPython.session in
  let env := UsePyodide.environment (UsePyodide.updateEnvironment s) in
  UsePyodide.pyodide s = Some ToyPython.session
  /\ env !! "_tmp" = None /\ env !! "np" = None
  /\ exists entry, env !! "bad" = Some entry
                   /\ UsePyodide.envRepr entry = "<Broken>".
Proof.
  split; [reflexivity|]. split; [vm_compute; reflexivity|].
  split; [vm_compute; reflexivity|].
  destruct (python_environment_is_filtered ToyPython.interpreter
              (ToyPython.ready ToyPython.session) ToyPython.session eq_refl)
    as (_ & _ & Hbad).
  assert (Hnd : NoDup (List.map fst (ToyPython.scope ToyPython.session))).
  { apply (bool_decide_unpack _). vm_compute. exact I. }
  assert (Hrun : exists env,
             UsePyodide.result (@UsePyodide.inspectScope ToyPython.interpreter ToyPython.session)
             = Resolved env)
    by (eexists; vm_compute; reflexivity).
  destruct Hrun as [env Hrun].
  assert (Hin : In ("bad", ToyPython.broken) (ToyPython.scope ToyPython.session))
    by (simpl; tauto).
  assert (Hx : ~ In "bad" UsePyodide.loopVariables)
    by (simpl; intros [H|[H|[H|[]]]]; discriminate).
  destruct (Hbad env Hrun Hnd (ToyPython.builtins ToyPython.session)
                 "bad" ToyPython.broken eq_refl Hin Hx eq_refl eq_refl)
    as (entry & Hget & _ & _ & Hshort).
  exists entry. split; [exact Hget|].
  apply Hshort. simpl. lia.
Defined.

(** C10.  In a session that has not been refreshed before, the refresh is
    aborted and the object whose [repr] raises is not in the snapshot.  The
    loop runs at module level over [globals()] itself: its first round binds
    [name] and [value], two new keys, and when the loop asks for the next
    item the dictionary has changed size, so the script raises and the
    snapshot stays empty.  The second refresh gets as far as the first
    binding it lists, binds [repr_val] and is aborted in the same way.  Only
    the third refresh lists the object, with its placeholder, together with
    the three variables of the script itself. *)
Theorem python_refresh_aborts_in_a_new_session :
  let s0 := ToyPython.ready ToyPython.fresh in
  let s1 := UsePyodide.updateEnvironment s0 in
  let s2 := UsePyodide.updateEnvironment s1 in
  let s3 := UsePyodide.updateEnvironment s2 in
  In ("bad", ToyPython.broken) (@UsePyodide.globals ToyPython.interpreter ToyPython.fresh)
  /\ UsePyodide.listed (ToyPython.builtins ToyPython.fresh) "bad" ToyPython.broken = true
  /\ UsePyodide.reprOf ToyPython.broken = UsePyodide.ReprException
  /\ UsePyodide.result (@UsePyodide.inspectScope ToyPython.interpreter ToyPython.fresh)
     = Rejected UsePyodide.changedSize
  /\ UsePyodide.environment s1 = ∅
  /\ UsePyodide.environment s2 = ∅
  /\ UsePyodide.environment s3 !! "bad"
     = Some (UsePyodide.mkEnv "Broken" "<Broken>" false false)
  /\ UsePyodide.environment s3 !! "name" <> None
  /\ UsePyodide.environment s3 !! "value" <> None
  /\ UsePyodide.environment s3 !! "repr_val" <> None.
Proof.
  split; [simpl; tauto|].
  split; [reflexivity|]. split; [reflexivity|].
  split; [vm_compute; reflexivity|].
  split; [vm_compute; reflexivity|].
  split; [vm_compute; reflexivity|].
  split; [vm_compute; reflexivity|].
  split; [vm_compute; discriminate|].
  split; vm_compute; discriminate.
Qed.

(** ** The textual representation of environment entries *)

Section REnvironment.
Import UseWebR.
Context {I : Interpreter}.

Lemma index_after (pre : list Js.value) (v : Js.value) (rest : list Js.value) :
  Js.index (pre ++ v :: rest) (Z.of_nat (List.length pre)) = v.
Proof.
  unfold Js.index.
  destruct (Z.of_nat (List.length pre) <? 0) eqn:E; [apply Z.ltb_lt in E; lia|].
  rewrite Nat2Z.id. rewrite nth_error_app2 by lia.
  rewrite Nat.sub_diag. reflexivity.
Qed.

(** The entries [readEnv] goes through, as [toJs()] lays them out: the
    names in one array, the descriptions in another. *)
Lemma readEnv_untouched (entries : list (string * Js.value)) :
  forall (pre : list Js.value) (acc : Dict EnvObject) (key : string),
    ~ In key (List.map fst entries) ->
    own (readEnv (List.map (fun e => Js.Str (fst e)) entries)
                 (Z.of_nat (List.length pre))
                 (pre ++ List.map snd entries) acc) !! key
    = own acc !! key.
Proof.
  induction entries as [|[k v] entries IH]; intros pre acc key Hnot; simpl; [reflexivity|].
  assert (Hk : k <> key) by (intros ->; apply Hnot; left; reflexivity).
  assert (Hrest : ~ In key (List.map fst entries)) by (intros H; apply Hnot; right; exact H).
  replace (Z.of_nat (List.length pre) + 1) with (Z.of_nat (List.length (pre ++ [v])))
    by (rewrite length_app; simpl; lia).
  replace (pre ++ v :: List.map snd entries) with ((pre ++ [v]) ++ List.map snd entries)
    by (rewrite <- app_assoc; reflexivity).
  rewrite IH by exact Hrest.
  destruct (String.eqb k "") eqn:Ek; [reflexivity|].
  destruct (isNamedList _); [|reflexivity].
  destruct (hasValues _ && hasValues _ && hasValues _); [|reflexivity].
  unfold assign. destruct (String.eqb k "__proto__" && _); simpl; [reflexivity|].
  apply lookup_insert_ne. exact Hk.
Qed.

(** A binding described by the script is stored under its name with the
    summary line as reported. *)
Lemma readEnv_stores (entries : list (string * Js.value)) :
  forall (pre : list Js.value) (acc : Dict EnvObject)
         (key kind : string) (classes : list string) (summary : string),
    NoDup (List.map fst entries) ->
    In (key, details kind classes summary) entries ->
    key <> "" -> key <> "__proto__" ->
    own (readEnv (List.map (fun e => Js.Str (fst e)) entries)
                 (Z.of_nat (List.length pre))
                 (pre ++ List.map snd entries) acc) !! key
    = Some {| objectType := Js.Str kind;
              class := List.map Js.Str classes;
              str := summary |}.
Proof.
  induction entries as [|[k v] entries IH];
    intros pre acc key kind classes summary Hnd Hin Hne Hnp; simpl in *; [contradiction|].
  apply NoDup_cons in Hnd. destruct Hnd as [Hfresh Hnd].
  replace (Z.of_nat (List.length pre) + 1) with (Z.of_nat (List.length (pre ++ [v])))
    by (rewrite length_app; simpl; lia).
  replace (pre ++ v :: List.map snd entries) with ((pre ++ [v]) ++ List.map snd entries)
    by (rewrite <- app_assoc; reflexivity).
  destruct Hin as [Heq | Hin].
  - inversion Heq; subst k v.
    rewrite readEnv_untouched by (rewrite <- list_elem_of_In; exact Hfresh).
    rewrite <- app_assoc. simpl. rewrite index_after.
    apply String.eqb_neq in Hne. rewrite Hne.
    unfold assign. apply String.eqb_neq in Hnp. rewrite Hnp. simpl.
    apply lookup_insert_eq.
  - apply IH; assumption.
Qed.

End REnvironment.

(** C7 (as amended).  In a refreshed Python snapshot every entry carries the
    text the script obtained for the value bound to its name (its [repr], or
    the placeholder when [repr] raises), in full when that has at most 100
    characters, and otherwise its first 100 characters followed by three
    dots, 103 characters in all.  The value is the one the name is bound to
    in the dictionary of globals when the loop reads it: a dictionary with
    the keys of the scope the script goes through and, the three variables
    of the script itself apart, its values.  So the value is the binding of
    the name in the scope; for the three variables of the script, which it
    lists as well, it is the value the variable holds when the loop comes to
    it.  The R backend stores, for every binding the script describes, the
    summary line the interpreter reports as it is, whatever its length. *)
Theorem environment_representation :
  (forall (P : UsePyodide.Interpreter) (s : UsePyodide.state) (p : UsePyodide.py)
          (env : gmap string UsePyodide.PythonEnvObject),
      UsePyodide.pyodide s = Some p ->
      UsePyodide.result (UsePyodide.inspectScope p) = Resolved env ->
      UsePyodide.environment (UsePyodide.updateEnvironment s) = env
      /\ forall x entry,
           env !! x = Some entry ->
           exists value full q,
             UsePyodide.keptBy
               (UsePyodide.globals (UsePyodide.after (UsePyodide.prepareScope p)))
               (UsePyodide.globals q)
             /\ In (x, value) (UsePyodide.globals q)
             /\ (~ In x UsePyodide.loopVariables ->
                 In (x, value)
                    (UsePyodide.globals (UsePyodide.after (UsePyodide.prepareScope p))))
             /\ UsePyodide.envType entry = UsePyodide.typeName value
             /\ UsePyodide.repr_val_of value = Resolved full
             /\ ((String.length full <= 100)%nat
                 /\ UsePyodide.envRepr entry = full
                 \/ (100 < String.length full)%nat
                    /\ UsePyodide.envRepr entry
                       = (String.substring 0 100 full ++ "...")%string
                    /\ String.length (UsePyodide.envRepr entry) = 103%nat))
  /\ (forall (R : UseWebR.Interpreter) (s : UseWebR.state) (w : UseWebR.webr)
             (entries : list (string * Js.value)) (packagesJs dataframesJs : Js.value)
             (key kind : string) (classes : list string) (summary : string),
      UseWebR.webR s = Some w ->
      UseWebR.result (UseWebR.inspect w)
      = Resolved (UseWebR.rList [("env", UseWebR.rList entries);
                                 ("packages", packagesJs);
                                 ("dataframes", dataframesJs)]) ->
      NoDup (List.map fst entries) ->
      In (key, UseWebR.details kind classes summary) entries ->
      key <> "" -> key <> "__proto__" ->
      UseWebR.own (UseWebR.environment (UseWebR.updateEnvironment s)) !! key
      = Some {| UseWebR.objectType := Js.Str kind;
                UseWebR.class := List.map Js.Str classes;
                UseWebR.str := summary |}).
Proof.
  split.
  - intros P s p env Hp Hrun.
    destruct (py_updateEnvironment_spec s p Hp) as (_ & _ & _ & _ & _ & _ & He).
    rewrite Hrun in He. split; [exact He|].
    intros x entry Hget.
    destruct (inspectScope_resolved p env Hrun)
      as (builtins & _ & _ & _ & _ & Hentries & _).
    destruct (Hentries x entry Hget)
      as (i & value & full & _ & _ & Hv & -> & Hin & q & Hq & Hread).
    exists value, full, q.
    split; [exact Hq|]. split; [exact (nth_error_In _ i Hread)|].
    split; [intros Hx; apply (nth_error_In _ i); apply Hin; exact Hx|].
    split; [reflexivity|]. split; [exact Hv|]. simpl.
    destruct (capRepr_cases full) as [[H1 H2] | (H1 & H2 & H3)]; auto.
  - intros R s w entries packagesJs dataframesJs key kind classes summary
           Hw Hrun Hnd Hin Hne Hnp.
    destruct (r_updateEnvironment_spec s w Hw) as (_ & _ & He).
    rewrite Hrun in He. rewrite He.
    change (UseWebR.own
              (UseWebR.readEnv (List.map (fun e => Js.Str (fst e)) entries)
                 (Z.of_nat (List.length (@nil Js.value)))
                 ([] ++ List.map snd entries) UseWebR.emptyDict) !! key
            = Some {| UseWebR.objectType := Js.Str kind;
                      UseWebR.class := List.map Js.Str classes;
                      UseWebR.str := summary |}).
    apply readEnv_stores; assumption.
Qed.

(** C7, on a Python session and on an R session whose summary line has 120
    characters. *)
Lemma environment_representation_witness :
  let s := ToyPython.ready ToyPython.session in
  let env := UsePyodide.environment (UsePyodide.updateEnvironment s) in
  let t := ToyR.ready ToyR.wordy in
  (UsePyodide.pyodide s = Some ToyPython.session
   /\ exists entry, env !! "x" = Some entry /\ UsePyodide.envRepr entry = "5")
  /\ UseWebR.webR t = Some ToyR.wordy
  /\ exists entry,
       UseWebR.own (UseWebR.environment (UseWebR.updateEnvironment t)) !! "x"
       = Some entry
       /\ String.length (UseWebR.str entry) = 120%nat.
Proof.
  destruct environment_representation as [Hpy Hr].
  split.
  - split; [reflexivity|].
    assert (Hrun : exists env,
               UsePyodide.result
                 (@UsePyodide.inspectScope ToyPython.interpreter ToyPython.session)
               = Resolved env
               /\ env !! "x" = Some (UsePyodide.mkEnv "int" "5" false false))
      by (eexists; split; vm_compute; reflexivity).
    destruct Hrun as (env & Hrun & Hx).
    destruct (Hpy ToyPython.interpreter (ToyPython.ready ToyPython.session)
                ToyPython.session env eq_refl Hrun) as (He & _).
    eexists. split; [rewrite He; exact Hx | reflexivity].
  - split; [reflexivity|]. eexists. split.
    + apply (Hr ToyR.interpreter (ToyR.ready ToyR.wordy) ToyR.wordy
               [("x", UseWebR.details "variable" ["character"] (ToyPython.letters 120))]
               (UseWebR.rList []) (UseWebR.rList [])
               "x" "variable" ["character"] (ToyPython.letters 120)
               eq_refl eq_refl).
      * apply (bool_decide_unpack _). vm_compute. exact I.
      * left. reflexivity.
      * discriminate.
      * discriminate.
    + reflexivity.
Defined.

(** C7 as stated fails: in the Python snapshot a representation of 101
    characters is stored as 103 characters, and in the R snapshot a summary
    line of 120 characters is stored whole, without dots; both exceed the cap
    of 100. *)
Lemma representation_exceeds_cap :
  let env := UsePyodide.environment
               (UsePyodide.updateEnvironment (ToyPython.ready ToyPython.session)) in
  let renv := UseWebR.environment (UseWebR.updateEnvironment (ToyR.ready ToyR.wordy)) in
  (exists entry,
      env !! "long" = Some entry
      /\ String.length (UsePyodide.envRepr entry) = 103%nat
      /\ ~ (String.length (UsePyodide.envRepr entry) <= 100)%nat)
  /\ (exists entry,
        UseWebR.own renv !! "x" = Some entry
        /\ UseWebR.str entry = ToyPython.letters 120
        /\ ~ (String.length (UseWebR.str entry) <= 100)%nat).
Proof.
  split.
  - eexists. split; [vm_compute; reflexivity|]. split; [reflexivity|].
    vm_compute. intros H. repeat (apply le_S_n in H). inversion H.
  - eexists. split; [reflexivity|]. split; [reflexivity|].
    vm_compute. intros H. repeat (apply le_S_n in H). inversion H.
Qed.

(** ** Viewing an object *)

Section PythonView.
Import UsePyodide.
Context {I : Interpreter}.

(** A name outside the identifier pattern: one error line, no call to the
    interpreter, the table as it was. *)
Lemma py_viewObjectByName_invalid (x : string) (s : state) :
  Js.nonEmptyOf Js.isWordChar x = false ->
  viewObjectByName x s
  = log stderr ("Error: Invalid object name for viewer: " ++ x)%string s.
Proof.
  intros Hx. unfold viewObjectByName. rewrite Hx. destruct (pyodide s); reflexivity.
Qed.

(** A name that is not bound, or bound to a value without [to_json]: the
    table as it was, and an error line at the end of the console. *)
Lemma py_viewObjectByName_not_tabular (x : string) (s : state) (p : py) :
  pyodide s = Some p ->
  Js.nonEmptyOf Js.isWordChar x = true ->
  (result (readGlobal x p) = Resolved None
   \/ exists value, result (readGlobal x p) = Resolved (Some value)
                    /\ toJson value = NoToJson) ->
  let s' := viewObjectByName x s in
  tableData s' = tableData s
  /\ exists more,
       consoleOutput s'
       = consoleOutput s ++ more
         ++ [mkLine stderr ("Could not view object '" ++ x ++ "': "
                            ++ "Object '" ++ x
                            ++ "' is not a DataFrame or does not exist.")%string].
Proof.
  intros Hp Hx Hnone s'. subst s'. unfold viewObjectByName. rewrite Hp, Hx.
  destruct (py_await_spec (viewScript x) s p Hp)
    as ((_ & K2 & _ & _ & _ & [more K6]) & _ & R).
  destruct (await (viewScript x) s) as [s1 tableJson]. simpl in K2, K6, R.
  assert (Hr : tableJson = Resolved None).
  { rewrite R. destruct Hnone as [H | (value & H & Hj)]; rewrite H; [|rewrite Hj];
      reflexivity. }
  rewrite Hr. simpl. split; [exact K2|].
  exists more. rewrite K6, <- app_assoc. reflexivity.
Qed.

End PythonView.

Section RView.
Import UseWebR.
Context {I : Interpreter}.

Lemma r_viewObjectByName_invalid (x : string) (s : state) :
  Js.nonEmptyOf (fun c => Js.isWordChar c || Ascii.eqb c "."%char) x = false ->
  viewObjectByName x s
  = log stderr ("Error: Invalid object name for View(): " ++ x)%string s.
Proof. intros Hx. unfold viewObjectByName. rewrite Hx. reflexivity. Qed.

Lemma r_viewObjectByName_missing (x : string) (s : state) :
  Js.nonEmptyOf (fun c => Js.isWordChar c || Ascii.eqb c "."%char) x = true ->
  find x (viewableDataFrames s) = FoundNothing ->
  viewObjectByName x s
  = log stderr ("Data for object '" ++ x
                ++ "' not found. It might not be a data.frame or is not in the global environment.")%string s.
Proof. intros Hx Hf. unfold viewObjectByName. rewrite Hx, Hf. reflexivity. Qed.

Lemma readDataFrames_untouched (entries : list (string * Js.value)) :
  forall (pre : list Js.value) (acc : Dict Table) (key : string),
    ~ In key (List.map fst entries) ->
    own (readDataFrames (List.map (fun e => Js.Str (fst e)) entries)
                        (Z.of_nat (List.length pre))
                        (pre ++ List.map snd entries) acc) !! key
    = own acc !! key.
Proof.
  induction entries as [|[k v] entries IH]; intros pre acc key Hnot; simpl; [reflexivity|].
  assert (Hk : k <> key) by (intros ->; apply Hnot; left; reflexivity).
  assert (Hrest : ~ In key (List.map fst entries)) by (intros H; apply Hnot; right; exact H).
  replace (Z.of_nat (List.length pre) + 1) with (Z.of_nat (List.length (pre ++ [v])))
    by (rewrite length_app; simpl; lia).
  replace (pre ++ v :: List.map snd entries) with ((pre ++ [v]) ++ List.map snd entries)
    by (rewrite <- app_assoc; reflexivity).
  rewrite IH by exact Hrest.
  destruct (rObjectToTable _); [|reflexivity].
  unfold assign. destruct (String.eqb k "__proto__" && _); simpl; [reflexivity|].
  apply lookup_insert_ne. exact Hk.
Qed.

(** A data frame of the report that converts to a table is stored under its
    name. *)
Lemma readDataFrames_stores (entries : list (string * Js.value)) :
  forall (pre : list Js.value) (acc : Dict Table) (key : string)
         (frame : Js.value) (table : Table),
    NoDup (List.map fst entries) ->
    In (key, frame) entries ->
    rObjectToTable frame = Some table ->
    key <> "__proto__" ->
    own (readDataFrames (List.map (fun e => Js.Str (fst e)) entries)
                        (Z.of_nat (List.length pre))
                        (pre ++ List.map snd entries) acc) !! key
    = Some table.
Proof.
  induction entries as [|[k v] entries IH];
    intros pre acc key frame table Hnd Hin Ht Hnp; simpl in *; [contradiction|].
  apply NoDup_cons in Hnd. destruct Hnd as [Hfresh Hnd].
  replace (Z.of_nat (List.length pre) + 1) with (Z.of_nat (List.length (pre ++ [v])))
    by (rewrite length_app; simpl; lia).
  replace (pre ++ v :: List.map snd entries) with ((pre ++ [v]) ++ List.map snd entries)
    by (rewrite <- app_assoc; reflexivity).
  destruct Hin as [Heq | Hin].
  - inversion Heq; subst k v.
    rewrite readDataFrames_untouched by (rewrite <- list_elem_of_In; exact Hfresh).
    rewrite <- app_assoc. simpl. rewrite index_after, Ht.
    unfold assign. apply String.eqb_neq in Hnp. rewrite Hnp. simpl.
    apply lookup_insert_eq.
  - eapply IH; eassumption.
Qed.

End RView.

(** C5, what the R backend does for a name that passes the pattern, names no
    stored data frame, and is a property every object inherits: in a session
    showing the table of [df], [viewObjectByName("constructor")] appends no
    line to the console and replaces the table by one without rows and
    columns. *)
Theorem r_viewObject_inherited_name :
  let s := UseWebR.viewObjectByName "df"
             (UseWebR.updateEnvironment (ToyR.ready ToyR.session)) in
  let s' := UseWebR.viewObjectByName "constructor" s in
  UseWebR.own (UseWebR.viewableDataFrames s) !! "constructor" = None
  /\ UseWebR.tableData s
     = Some {| name := "df";
               data := Some [ [("a", Js.Num 1); ("b", Js.Num 3)];
                              [("a", Js.Num 2); ("b", Js.Num 4)] ];
               columns := Some [Js.Str "a"; Js.Str "b"] |}
  /\ UseWebR.consoleOutput s' = UseWebR.consoleOutput s
  /\ UseWebR.tableData s'
     = Some {| name := "constructor"; data := None; columns := None |}.
Proof. repeat split. Qed.

(** C6 (as amended).  Viewing, in the R backend, a tabular object [df] with
    columns [a], [b] and two rows produces a table whose columns are [a],
    [b] and whose two rows are in source order, with no index column. *)
Theorem viewObject_table_shape :
  forall (R : UseWebR.Interpreter) (s : UseWebR.state) (w : UseWebR.webr)
         (envJs packagesJs : Js.value) (frames : list (string * Js.value))
         (a0 b0 a1 b1 : Js.value),
    UseWebR.webR s = Some w ->
    UseWebR.result (UseWebR.inspect w)
    = Resolved (UseWebR.rList [("env", envJs);
                               ("packages", packagesJs);
                               ("dataframes", UseWebR.rList frames)]) ->
    NoDup (List.map fst frames) ->
    In ("df", UseWebR.rList [("a", UseWebR.rVector "double" [a0; a1]);
                             ("b", UseWebR.rVector "double" [b0; b1])]) frames ->
    UseWebR.tableData
      (UseWebR.viewObjectByName "df" (UseWebR.updateEnvironment s))
    = Some {| name := "df";
              data := Some [ [("a", a0); ("b", b0)]; [("a", a1); ("b", b1)] ];
              columns := Some [Js.Str "a"; Js.Str "b"] |}.
Proof.
  intros R s w envJs packagesJs frames a0 b0 a1 b1 Hw Hrun Hnd Hin.
  unfold UseWebR.updateEnvironment. rewrite Hw.
  destruct (r_await_spec UseWebR.inspect s w Hw) as (_ & _ & _ & Hres).
  destruct (UseWebR.await UseWebR.inspect s) as [s1 resultJs]. simpl in Hres.
  rewrite Hrun in Hres. subst resultJs.
  unfold UseWebR.viewObjectByName. simpl Js.nonEmptyOf. cbv iota.
  assert (Hfind : UseWebR.find "df"
                    (UseWebR.viewableDataFrames
                       (UseWebR.readResult
                          (UseWebR.rList [("env", envJs); ("packages", packagesJs);
                                          ("dataframes", UseWebR.rList frames)]) s1))
                  = UseWebR.FoundTable
                      (UseWebR.mkRTable
                         [ [("a", a0); ("b", b0)]; [("a", a1); ("b", b1)] ]
                         [Js.Str "a"; Js.Str "b"])).
  { unfold UseWebR.find.
    change (UseWebR.own
              (UseWebR.viewableDataFrames
                 (UseWebR.readResult
                    (UseWebR.rList [("env", envJs); ("packages", packagesJs);
                                    ("dataframes", UseWebR.rList frames)]) s1)))
      with (UseWebR.own
              (UseWebR.readDataFrames
                 (List.map (fun e => Js.Str (fst e)) frames)
                 (Z.of_nat (List.length (@nil Js.value)))
                 ([] ++ List.map snd frames) UseWebR.emptyDict)).
    rewrite (readDataFrames_stores frames [] UseWebR.emptyDict "df" _
               (UseWebR.mkRTable
                  [ [("a", a0); ("b", b0)]; [("a", a1); ("b", b1)] ]
                  [Js.Str "a"; Js.Str "b"]) Hnd Hin eq_refl ltac:(discriminate)).
    reflexivity. }
  rewrite Hfind. reflexivity.
Qed.

(** C6, on an R session holding the data frame [df]. *)
Lemma viewObject_table_shape_witness :
  let t := ToyR.ready ToyR.session in
  UseWebR.webR t = Some ToyR.session
  /\ UseWebR.tableData
       (UseWebR.viewObjectByName "df" (UseWebR.updateEnvironment t))
     = Some {| name := "df";
               data := Some [ [("a", Js.Num 1); ("b", Js.Num 3)];
                              [("a", Js.Num 2); ("b", Js.Num 4)] ];
               columns := Some [Js.Str "a"; Js.Str "b"] |}.
Proof.
  split; [reflexivity|].
  apply (viewObject_table_shape ToyR.interpreter (ToyR.ready ToyR.session) ToyR.session
           _ _ [("df", ToyR.frame)]
           (Js.Num 1) (Js.Num 3) (Js.Num 2) (Js.Num 4) eq_refl eq_refl).
  - apply (bool_decide_unpack _). vm_compute. exact I.
  - left. reflexivity.
Defined.

(** C6 as stated fails for the R backend: the table produced for [df] has
    the columns [a], [b], without a leading [#]. *)
Lemma r_table_has_no_index_column :
  let s := UseWebR.viewObjectByName "df"
             (UseWebR.updateEnvironment (ToyR.ready ToyR.session)) in
  exists t, UseWebR.tableData s = Some t
            /\ columns t = Some [Js.Str "a"; Js.Str "b"]
            /\ columns t <> Some [Js.Str "#"; Js.Str "a"; Js.Str "b"].
Proof.
  eexists. split; [reflexivity|]. split; [reflexivity|]. discriminate.
Qed.

(** ** The session store: edits and the command history *)

Lemma app_edit_resets_cursor (value : option string) (s : App.state) :
  App.historyIndex (App.step (App.Edit value) s) = -1.
Proof.
  unfold App.step, App.commit.
  assert (H : App.historyIndex (App.handle (App.Edit value) s) = -1).
  { simpl. unfold App.editorOnChange.
    destruct (App.historyIndex s =? -1) eqn:E; simpl; [apply Z.eqb_eq; exact E | reflexivity]. }
  assert (Hp : App.panelEffect (App.handle (App.Edit value) s)
               = App.handle (App.Edit value) s).
  { unfold App.panelEffect. rewrite H. reflexivity. }
  rewrite Hp. destruct (App.depsChanged s _); [reflexivity | exact H].
Qed.

(** Every change of the text of the active language, whoever asks for it,
    makes the session effect run: the command history is emptied. *)
Lemma app_code_change_empties_history (newCode : string) (s : App.state) :
  newCode <> (match App.language s with
              | App.r => App.rCode s
              | App.python => App.pythonCode s
              end) ->
  App.commandHistory (App.commit s (App.handleCodeChange newCode s)) = [].
Proof.
  intros Hne. unfold App.commit.
  assert (Hd : App.depsChanged s (App.handleCodeChange newCode s) = true).
  { unfold App.depsChanged, App.handleCodeChange. simpl.
    destruct (App.language s); simpl.
    - assert (E : String.eqb (App.rCode s) newCode = false)
        by (apply String.eqb_neq; congruence).
      rewrite E. reflexivity.
    - assert (E : String.eqb (App.pythonCode s) newCode = false)
        by (apply String.eqb_neq; congruence).
      rewrite E. simpl. apply orb_true_r. }
  rewrite Hd. reflexivity.
Qed.

(** In the console input box an edit leaves the history alone. *)
Lemma console_edit_keeps_history (text : string) (s : Recall.state) :
  Recall.commandHistory (ConsolePanel.edit text s) = Recall.commandHistory s.
Proof.
  unfold ConsolePanel.edit, Recall.resetOnMismatch.
  destruct (_ && _); reflexivity.
Qed.

(** What every state of the session satisfies: the editor shows the text of
    the active language, and the history is empty or holds the one command
    that text was submitted as. *)
Lemma app_step_invariant (e : App.event) (s : App.state) :
  App.editorCode s = App.activeCode s ->
  (App.commandHistory s = [] \/ App.commandHistory s = [Js.trim (App.editorCode s)]) ->
  let s' := App.step e s in
  App.editorCode s' = App.activeCode s'
  /\ (App.commandHistory s' = []
      \/ App.commandHistory s' = [Js.trim (App.editorCode s')]).
Proof.
  intros Hcode Hhist s'. subst s'. unfold App.step, App.commit.
  assert (Hpanel : forall t, App.editorCode (App.panelEffect t) = App.editorCode t
                             /\ App.activeCode (App.panelEffect t) = App.activeCode t
                             /\ App.commandHistory (App.panelEffect t)
                                = App.commandHistory t).
  { intros t. unfold App.panelEffect. destruct (_ && _); repeat split. }
  destruct (App.depsChanged s (App.handle e s)) eqn:Hd.
  - split; [|left; reflexivity].
    unfold App.syncEffect, App.activeCode. simpl. reflexivity.
  - destruct (Hpanel (App.handle e s)) as (P1 & P2 & P3). rewrite P1, P2, P3.
    unfold App.depsChanged in Hd.
    apply orb_false_iff in Hd. destruct Hd as [Hd Hpy].
    apply orb_false_iff in Hd. destruct Hd as [Hlang Hr].
    apply negb_false_iff in Hlang, Hr, Hpy.
    apply String.eqb_eq in Hr, Hpy.
    destruct e as [value| |l]; simpl in *.
    + unfold App.editorOnChange in *. unfold App.activeCode in *.
      destruct (negb (App.historyIndex s =? -1)); simpl in *;
        destruct (App.language s); simpl in *;
        (split; [reflexivity|]);
        (destruct Hhist as [H|H]; [left; exact H | right; congruence]).
    + unfold App.handleRun.
      destruct (negb (String.eqb (Js.trim (App.editorCode s)) "")); simpl; [|auto].
      split; [exact Hcode|]. right. unfold Recall.pushCommand.
      destruct Hhist as [H|H]; rewrite H; simpl; [reflexivity|].
      rewrite String.eqb_refl. reflexivity.
    + unfold App.activeCode in *. simpl.
      destruct (App.language s), l; simpl in *; try discriminate; auto.
Qed.

(** Whatever sequence of edits, runs and language switches the editor goes
    through, its history never holds more than one command. *)
Lemma app_history_at_most_one (INITIAL_R_CODE INITIAL_PYTHON_CODE : string)
    (events : list App.event) :
  (List.length
     (App.commandHistory
        (App.stepAll events (App.initial INITIAL_R_CODE INITIAL_PYTHON_CODE))) <= 1)%nat.
Proof.
  assert (H : forall s,
             App.editorCode s = App.activeCode s ->
             (App.commandHistory s = []
              \/ App.commandHistory s = [Js.trim (App.editorCode s)]) ->
             (List.length (App.commandHistory (App.stepAll events s)) <= 1)%nat).
  { induction events as [|e events IH]; intros s Hc Hh; simpl.
    - destruct Hh as [H|H]; rewrite H; simpl; lia.
    - destruct (app_step_invariant e s Hc Hh) as [Hc' Hh']. apply IH; assumption. }
  apply H; [reflexivity | left; reflexivity].
Qed.

(** C4, what the editor does: after one run the history holds the submitted
    command; typing one more character then resets the cursor to "none" and
    leaves the history empty. *)
Theorem editor_edit_empties_history :
  let s0 := App.initial "x <- 1" "print(1)" in
  let s1 := App.step App.Run s0 in
  let s2 := App.step (App.Edit (Some "x <- 12")) s1 in
  App.commandHistory s1 = ["x <- 1"]
  /\ App.historyIndex s2 = -1
  /\ App.commandHistory s2 = [].
Proof. repeat split. Qed.

(** ** Sorting the table view *)

Section SortFacts.
Context {A : Type} (compareFn : A -> A -> Z) (R : A -> A -> Prop).

Hypothesis keep_ok : forall x y, compareFn x y <= 0 -> R x y.
Hypothesis swap_ok : forall x y, 0 < compareFn x y -> R y x.

Lemma insert_permutation (x : A) (l : list A) :
  Permutation (ArraySort.insert compareFn x l) (x :: l).
Proof.
  induction l as [|y l IH]; simpl; [reflexivity|].
  destruct (compareFn x y <=? 0); [reflexivity|].
  rewrite IH. apply perm_swap.
Qed.

Lemma sort_permutation (l : list A) : Permutation (ArraySort.sort compareFn l) l.
Proof.
  induction l as [|x l IH]; simpl; [reflexivity|].
  unfold ArraySort.sort in *. simpl.
  rewrite insert_permutation. apply perm_skip. exact IH.
Qed.

Lemma insert_sorted (x : A) (l : list A) :
  Sorted R l -> Sorted R (ArraySort.insert compareFn x l).
Proof.
  induction l as [|y l IH]; intros Hs; simpl.
  - repeat constructor.
  - destruct (compareFn x y <=? 0) eqn:E.
    + apply Z.leb_le in E. constructor; [exact Hs | constructor; apply keep_ok; exact E].
    + apply Z.leb_gt in E. inversion Hs as [|? ? Hs' Hhd]; subst.
      constructor; [apply IH; exact Hs'|].
      destruct l as [|z l]; simpl.
      * constructor. apply swap_ok. exact E.
      * destruct (compareFn x z <=? 0).
        -- constructor. apply swap_ok. exact E.
        -- inversion Hhd; subst. constructor. assumption.
Qed.

Lemma sort_sorted (l : list A) : Sorted R (ArraySort.sort compareFn l).
Proof.
  induction l as [|x l IH]; [constructor|].
  unfold ArraySort.sort in *. simpl. apply insert_sorted. exact IH.
Qed.

End SortFacts.

(** A relation that is transitive on the elements of a list orders the whole
    list as soon as it orders neighbours. *)
Lemma Sorted_strongly_on {A : Type} (R : A -> A -> Prop) (Q : A -> Prop) (l : list A) :
  (forall a b c, Q a -> Q b -> Q c -> R a b -> R b c -> R a c) ->
  Forall Q l -> Sorted R l -> StronglySorted R l.
Proof.
  intros Htrans HQ Hs. induction Hs as [|x l Hs IH Hhd]; [constructor|].
  apply Forall_cons_iff in HQ. destruct HQ as [Qx Ql].
  specialize (IH Ql). constructor; [exact IH|].
  destruct l as [|y l]; [constructor|].
  inversion Hhd; subst. inversion IH; subst.
  apply Forall_cons_iff in Ql. destruct Ql as [Qy Ql].
  constructor; [assumption|].
  rewrite Forall_forall in *. intros z Hz.
  apply (Htrans x y z); auto.
Qed.

Lemma ltString_asym (a b : string) :
  Js.ltString a b = true -> Js.ltString b a = false.
Proof.
  revert b. induction a as [|x a IH]; intros [|y b]; simpl; try congruence.
  destruct (nat_of_ascii x <? nat_of_ascii y)%nat eqn:E1;
    destruct (nat_of_ascii y <? nat_of_ascii x)%nat eqn:E2; try congruence.
  - apply Nat.ltb_lt in E1. apply Nat.ltb_lt in E2. lia.
  - apply IH.
Qed.

(** [a <= b] and [b <= c] give [a <= c], where [a <= b] is "not [b < a]". *)
Lemma ltString_chain (a b c : string) :
  Js.ltString b a = false -> Js.ltString c b = false -> Js.ltString c a = false.
Proof.
  revert b c.
  induction a as [|x a IH]; intros b c; destruct b as [|y b]; destruct c as [|z c];
    simpl; try congruence;
    repeat match goal with
           | |- context [(?m <? ?n)%nat] => destruct (Nat.ltb_spec m n)
           end;
    try congruence; try lia; apply IH.
Qed.

Section ViewerFacts.
Import ViewerPanel.

Lemma compareRows_keep (k : string) (d : SortDirection) (a b : Row) :
  compareRows k d a b <= 0 -> above k d a b.
Proof.
  unfold compareRows, above.
  destruct (nullish (Js.get k a)) eqn:Na; [lia|].
  destruct (nullish (Js.get k b)) eqn:Nb; [left; reflexivity|].
  intros H. right. split; [reflexivity|]. split; [reflexivity|].
  unfold precedes.
  destruct (Js.get k a) as [| |ba|za|sa|la|oa|ta]; try discriminate Na;
    destruct (Js.get k b) as [| |bb|zb|sb|lb|ob|tb]; try discriminate Nb;
    try (destruct d; lia);
    match type of H with
    | context [Js.ltString ?x ?y] =>
        destruct (Js.ltString x y) eqn:E1;
        [ destruct d; [apply ltString_asym; exact E1 | lia]
        | destruct (Js.ltString y x) eqn:E2; destruct d;
          first [lia | reflexivity | assumption] ]
    end.
Qed.

Lemma compareRows_swap (k : string) (d : SortDirection) (a b : Row) :
  0 < compareRows k d a b -> above k d b a.
Proof.
  unfold compareRows, above.
  destruct (nullish (Js.get k a)) eqn:Na; [left; reflexivity|].
  destruct (nullish (Js.get k b)) eqn:Nb; [lia|].
  intros H. right. split; [reflexivity|]. split; [reflexivity|].
  unfold precedes.
  destruct (Js.get k a) as [| |ba|za|sa|la|oa|ta]; try discriminate Na;
    destruct (Js.get k b) as [| |bb|zb|sb|lb|ob|tb]; try discriminate Nb;
    try (destruct d; lia);
    match type of H with
    | context [Js.ltString ?x ?y] =>
        destruct (Js.ltString x y) eqn:E1;
        [ destruct d; [lia | apply ltString_asym; exact E1]
        | destruct (Js.ltString y x) eqn:E2; destruct d;
          first [lia | reflexivity | assumption] ]
    end.
Qed.

(** In a list whose neighbours are in order, rows with an empty cell come
    after all the others. *)
Lemma sorted_empty_cells_last (k : string) (d : SortDirection) (l : list Row) :
  Sorted (above k d) l ->
  exists valued empty,
    l = valued ++ empty
    /\ Forall (fun row => nullish (Js.get k row) = false) valued
    /\ Forall (fun row => nullish (Js.get k row) = true) empty.
Proof.
  intros Hs. induction Hs as [|x l Hs IH Hhd].
  - exists [], []. repeat split; constructor.
  - destruct IH as (valued & empty & -> & Hv & He).
    destruct (nullish (Js.get k x)) eqn:Nx.
    + exists [], (x :: valued ++ empty). split; [reflexivity|].
      split; [constructor|]. constructor; [exact Nx|].
      destruct valued as [|y valued]; [exact He|].
      exfalso. inversion Hhd as [|? ? Hab]; subst.
      apply Forall_cons_iff in Hv. destruct Hv as [Ny _].
      destruct Hab as [H | (H & _)]; congruence.
    + exists (x :: valued), empty. split; [reflexivity|].
      split; [constructor; assumption | exact He].
Qed.

Lemma above_chain_numbers (k : string) (d : SortDirection) (a b c : Row) :
  (nullish (Js.get k a) = true \/ exists z, Js.get k a = Js.Num z) ->
  (nullish (Js.get k b) = true \/ exists z, Js.get k b = Js.Num z) ->
  (nullish (Js.get k c) = true \/ exists z, Js.get k c = Js.Num z) ->
  above k d a b -> above k d b c -> above k d a c.
Proof.
  unfold above. intros Ha Hb Hc Hab Hbc.
  destruct Hbc as [Nc | (Nb & Nc & Pbc)]; [left; exact Nc|].
  destruct Hab as [Nb' | (Na & _ & Pab)]; [congruence|].
  right. split; [exact Na|]. split; [exact Nc|].
  destruct Ha as [Ha | [za Ha]]; [congruence|].
  destruct Hb as [Hb | [zb Hb]]; [congruence|].
  destruct Hc as [Hc | [zc Hc]]; [congruence|].
  rewrite Ha, Hb in Pab. rewrite Hb, Hc in Pbc. rewrite Ha, Hc.
  unfold precedes in *. destruct d; lia.
Qed.

Lemma precedes_text (d : SortDirection) (a b : Js.value) :
  (forall z, a <> Js.Num z) ->
  precedes d a b
  = match d with
    | ascending =>
        Js.ltString (Js.toLowerCase (Js.toString b)) (Js.toLowerCase (Js.toString a))
        = false
    | descending =>
        Js.ltString (Js.toLowerCase (Js.toString a)) (Js.toLowerCase (Js.toString b))
        = false
    end.
Proof.
  intros Ha. unfold precedes. destruct a; try reflexivity.
  exfalso. apply (Ha z). reflexivity.
Qed.

Lemma above_chain_texts (k : string) (d : SortDirection) (a b c : Row) :
  (forall z, Js.get k a <> Js.Num z) ->
  (forall z, Js.get k b <> Js.Num z) ->
  (forall z, Js.get k c <> Js.Num z) ->
  above k d a b -> above k d b c -> above k d a c.
Proof.
  unfold above. intros Ha Hb Hc Hab Hbc.
  destruct Hbc as [Nc | (Nb & Nc & Pbc)]; [left; exact Nc|].
  destruct Hab as [Nb' | (Na & _ & Pab)]; [congruence|].
  right. split; [exact Na|]. split; [exact Nc|].
  rewrite precedes_text in * by assumption.
  destruct d.
  - eapply ltString_chain; eassumption.
  - eapply ltString_chain; eassumption.
Qed.

Lemma sameKey_refl (k : string) : sameKey (Some k) k = true.
Proof. apply String.eqb_refl. Qed.

End ViewerFacts.


(** C9.  With a sort key selected, the rows displayed are the rows of the
    table, rearranged so that each row may stand above the next: rows whose
    cell in that column is [null] or [undefined] come after all the others,
    in both directions, and among the others two numbers are in numeric
    order and any other pair is in the order of the lower-cased texts,
    reversed when descending.  In a column of numbers, or a column without
    numbers, that orders every pair of displayed rows.  The sort works on a
    new array: every array that was in memory, the rows of the table among
    them, is as it was.  Requesting the column that is sorted ascending
    turns the direction to descending, any other request sorts ascending,
    and a request changes the sort state only. *)
Theorem viewer_sorts_a_copy :
  (forall (m : list (list Row)) (t : ViewerPanel.TableProp) (l : nat)
          (rows : list Row) (k : string) (d : ViewerPanel.SortDirection),
      ViewerPanel.propData t = Some l ->
      m !! l = Some rows ->
      let p := ViewerPanel.mkPanel (Some t) (ViewerPanel.mkSort (Some k) d) in
      let m' := fst (ViewerPanel.sortedData p m) in
      let shown := ViewerPanel.displayed p m in
      m' !! snd (ViewerPanel.sortedData p m) = Some shown
      /\ Permutation shown rows
      /\ Sorted (ViewerPanel.above k d) shown
      /\ (exists valued empty,
            shown = valued ++ empty
            /\ Forall (fun row => ViewerPanel.nullish (Js.get k row) = false) valued
            /\ Forall (fun row => ViewerPanel.nullish (Js.get k row) = true) empty)
      /\ (ViewerPanel.numericColumn k rows \/ ViewerPanel.textColumn k rows ->
          StronglySorted (ViewerPanel.above k d) shown)
      /\ m' !! l = Some rows
      /\ (forall l0 rows0, m !! l0 = Some rows0 -> m' !! l0 = Some rows0))
  /\ (forall (p : ViewerPanel.panel) (k : string),
      ViewerPanel.tableData (ViewerPanel.requestSort k p) = ViewerPanel.tableData p
      /\ ViewerPanel.key (ViewerPanel.sortConfig (ViewerPanel.requestSort k p)) = Some k
      /\ (ViewerPanel.sortConfig p = ViewerPanel.mkSort (Some k) ViewerPanel.ascending ->
          ViewerPanel.direction (ViewerPanel.sortConfig (ViewerPanel.requestSort k p))
          = ViewerPanel.descending)
      /\ (ViewerPanel.sortConfig p <> ViewerPanel.mkSort (Some k) ViewerPanel.ascending ->
          ViewerPanel.direction (ViewerPanel.sortConfig (ViewerPanel.requestSort k p))
          = ViewerPanel.ascending)).
Proof.
  split.
  - intros m t l rows k d Hdata Hrows p m' shown.
    assert (Hl : (l < List.length m)%nat) by (eapply lookup_lt_Some; exact Hrows).
    assert (Hcopy : (m ++ [rows]) !! List.length m = Some rows).
    { rewrite lookup_app_r by lia. rewrite Nat.sub_diag. reflexivity. }
    assert (Hm' : m' = <[List.length m := ArraySort.sort (ViewerPanel.compareRows k d) rows]>
                         (m ++ [rows])).
    { subst m' p. unfold ViewerPanel.sortedData, ViewerPanel.spread. simpl.
      rewrite Hdata, Hrows. simpl. unfold ViewerPanel.sortInPlace.
      rewrite Hcopy. reflexivity. }
    assert (Hloc : snd (ViewerPanel.sortedData p m) = List.length m).
    { subst p. unfold ViewerPanel.sortedData, ViewerPanel.spread. simpl.
      rewrite Hdata. reflexivity. }
    assert (Hget : m' !! List.length m
                   = Some (ArraySort.sort (ViewerPanel.compareRows k d) rows)).
    { rewrite Hm'. apply list_lookup_insert_eq. rewrite length_app. simpl. lia. }
    assert (Hshown : shown = ArraySort.sort (ViewerPanel.compareRows k d) rows).
    { subst shown. unfold ViewerPanel.displayed. fold m'. rewrite Hloc, Hget. reflexivity. }
    pose proof (sort_sorted (ViewerPanel.compareRows k d) (ViewerPanel.above k d)
                  (compareRows_keep k d) (compareRows_swap k d) rows) as Hs.
    pose proof (sort_permutation (ViewerPanel.compareRows k d) rows) as Hp.
    assert (Hold : forall l0 rows0, m !! l0 = Some rows0 -> m' !! l0 = Some rows0).
    { intros l0 rows0 H0.
      assert (Hl0 : (l0 < List.length m)%nat) by (eapply lookup_lt_Some; exact H0).
      rewrite Hm'. rewrite list_lookup_insert_ne by lia.
      rewrite lookup_app_l by lia. exact H0. }
    rewrite Hloc, Hshown.
    split; [exact Hget|]. split; [exact Hp|]. split; [exact Hs|].
    split; [apply (sorted_empty_cells_last k d); exact Hs|].
    split; [|split; [apply Hold; exact Hrows | exact Hold]].
    intros [Hn | Ht].
    + apply (Sorted_strongly_on _
               (fun row => ViewerPanel.nullish (Js.get k row) = true
                           \/ exists z, Js.get k row = Js.Num z)).
      * intros a b c. apply above_chain_numbers.
      * unfold ViewerPanel.numericColumn in Hn. rewrite Forall_forall in *.
        intros row Hin. apply Hn. rewrite <- Hp. exact Hin.
      * exact Hs.
    + apply (Sorted_strongly_on _ (fun row => forall z, Js.get k row <> Js.Num z)).
      * intros a b c. apply above_chain_texts.
      * unfold ViewerPanel.textColumn in Ht. rewrite Forall_forall in *.
        intros row Hin. apply Ht. rewrite <- Hp. exact Hin.
      * exact Hs.
  - intros p k. split; [reflexivity|]. split; [reflexivity|]. split.
    + intros Hc. unfold ViewerPanel.requestSort. rewrite Hc. simpl.
      rewrite String.eqb_refl. reflexivity.
    + intros Hc. unfold ViewerPanel.requestSort. simpl.
      destruct (ViewerPanel.sortConfig p) as [[k'|] [|]]; simpl; try reflexivity;
        destruct (String.eqb k' k) eqn:E; simpl; try reflexivity.
      apply String.eqb_eq in E. subst. congruence.
Qed.

(** C9, on a table with a number column that has an empty cell. *)
Lemma viewer_sorts_a_copy_witness :
  let rows := [ [("n", Js.Num 3)]; [("n", Js.Null)]; [("n", Js.Num 1)]; [("n", Js.Num 2)] ] in
  let held := ViewerPanel.hold (mkTable "df" (Some rows) (Some [Js.Str "n"])) [] in
  let m := fst held in
  let p := ViewerPanel.mkPanel (Some (snd held))
             (ViewerPanel.mkSort (Some "n") ViewerPanel.ascending) in
  ViewerPanel.propData (snd held) = Some 0%nat
  /\ m !! 0%nat = Some rows
  /\ ViewerPanel.displayed p m
     = [ [("n", Js.Num 1)]; [("n", Js.Num 2)]; [("n", Js.Num 3)]; [("n", Js.Null)] ]
  /\ ViewerPanel.displayed (ViewerPanel.requestSort "n" p) m
     = [ [("n", Js.Num 3)]; [("n", Js.Num 2)]; [("n", Js.Num 1)]; [("n", Js.Null)] ]
  /\ fst (ViewerPanel.sortedData p m) !! 0%nat = Some rows
  /\ StronglySorted (ViewerPanel.above "n" ViewerPanel.ascending)
       (ViewerPanel.displayed p m)
  /\ ViewerPanel.direction (ViewerPanel.sortConfig (ViewerPanel.requestSort "n" p))
     = ViewerPanel.descending.
Proof.
  split; [reflexivity|]. split; [reflexivity|]. split; [reflexivity|].
  split; [reflexivity|].
  destruct viewer_sorts_a_copy as [Hsort Hrequest].
  destruct (Hsort
              [[ [("n", Js.Num 3)]; [("n", Js.Null)]; [("n", Js.Num 1)]; [("n", Js.Num 2)] ]]
              (ViewerPanel.mkProp "df" (Some 0%nat) (Some [Js.Str "n"])) 0%nat
              [ [("n", Js.Num 3)]; [("n", Js.Null)]; [("n", Js.Num 1)]; [("n", Js.Num 2)] ]
              "n" ViewerPanel.ascending eq_refl eq_refl)
    as (_ & _ & _ & _ & Hstrong & Hkept & _).
  split; [exact Hkept|]. split.
  - apply Hstrong. left. unfold ViewerPanel.numericColumn.
    repeat (apply List.Forall_cons;
            [first [left; reflexivity | right; eexists; reflexivity]|]).
    apply List.Forall_nil.
  - destruct (Hrequest
                (ViewerPanel.mkPanel
                   (Some (ViewerPanel.mkProp "df" (Some 0%nat) (Some [Js.Str "n"])))
                   (ViewerPanel.mkSort (Some "n") ViewerPanel.ascending)) "n")
      as (_ & _ & Htoggle & _).
    exact (Htoggle eq_refl).
Defined.

(** ** Trimming *)

Lemma trimStart_first (s : string) (c : ascii) :
  firstChar (Js.trimStart s) = Some c -> Js.isWhiteSpace c = false.
Proof.
  induction s as [|x s IH]; simpl; [discriminate|].
  destruct (Js.isWhiteSpace x) eqn:E; [exact IH|].
  simpl. intros H. inversion H; subst. exact E.
Qed.

Lemma trimEndAux_last (s r : string) :
  Js.trimEndAux s = Some r ->
  exists c, lastChar r = Some c /\ Js.isWhiteSpace c = false.
Proof.
  revert r. induction s as [|x s IH]; intros r; simpl; [discriminate|].
  destruct (Js.trimEndAux s) as [r'|] eqn:E.
  - intros H. inversion H; subst. destruct (IH r' eq_refl) as (c & Hc & Hw).
    exists c. split; [|exact Hw]. simpl. destruct r'; [discriminate | exact Hc].
  - destruct (Js.isWhiteSpace x) eqn:Ex; [discriminate|].
    intros H. inversion H; subst. exists x. split; [reflexivity | exact Ex].
Qed.

Lemma trimEndAux_first (s r : string) :
  Js.trimEndAux s = Some r -> firstChar r = firstChar s.
Proof.
  destruct s as [|x s]; simpl; [discriminate|].
  destruct (Js.trimEndAux s); [|destruct (Js.isWhiteSpace x)];
    intros H; inversion H; reflexivity.
Qed.

(** A text that ends in a character that is not white space is left alone. *)
Lemma trimEndAux_fixed (s : string) (c : ascii) :
  lastChar s = Some c -> Js.isWhiteSpace c = false -> Js.trimEndAux s = Some s.
Proof.
  induction s as [|x s IH]; simpl; [discriminate|].
  destruct s as [|y s].
  - intros H Hw. inversion H; subst. simpl. rewrite Hw. reflexivity.
  - intros H Hw. rewrite (IH H Hw). reflexivity.
Qed.

Lemma trimStart_fixed (s : string) (c : ascii) :
  firstChar s = Some c -> Js.isWhiteSpace c = false -> Js.trimStart s = s.
Proof.
  destruct s as [|x s]; simpl; [discriminate|].
  intros H Hw. inversion H; subst. rewrite Hw. reflexivity.
Qed.

(** What [trim] returns is empty or has a character that is not white
    space at each end. *)
Lemma trim_trimmed (s : string) : Js.trim s <> "" -> trimmed (Js.trim s).
Proof.
  unfold Js.trim, Js.trimEnd.
  destruct (Js.trimEndAux (Js.trimStart s)) as [r|] eqn:E; [|congruence].
  intros Hne. split.
  - rewrite (trimEndAux_first _ _ E).
    destruct (firstChar (Js.trimStart s)) as [c|] eqn:Hc.
    + exists c. split; [reflexivity | apply (trimStart_first s); exact Hc].
    + destruct (Js.trimStart s); [discriminate E | discriminate Hc].
  - apply (trimEndAux_last _ _ E).
Qed.

Lemma trimmed_fixed (s : string) : trimmed s -> Js.trim s = s.
Proof.
  intros [(c & Hc & Hw) (d & Hd & Hv)]. unfold Js.trim, Js.trimEnd.
  rewrite (trimStart_fixed s c Hc Hw), (trimEndAux_fixed s d Hd Hv). reflexivity.
Qed.

Lemma trim_idem (s : string) : Js.trim (Js.trim s) = Js.trim s.
Proof.
  destruct (String.eqb (Js.trim s) "") eqn:E.
  - apply String.eqb_eq in E. rewrite E. reflexivity.
  - apply String.eqb_neq in E. apply trimmed_fixed, trim_trimmed. exact E.
Qed.

Lemma trimEndAux_blank (s : string) :
  Js.allChars Js.isWhiteSpace s = true -> Js.trimEndAux s = None.
Proof.
  induction s as [|x s IH]; simpl; [reflexivity|].
  intros H. apply andb_true_iff in H. destruct H as [Hx Hs].
  rewrite (IH Hs), Hx. reflexivity.
Qed.

Lemma trimStart_blank (s : string) :
  Js.allChars Js.isWhiteSpace s = true -> Js.trimStart s = "".
Proof.
  induction s as [|x s IH]; simpl; [reflexivity|].
  intros H. apply andb_true_iff in H. destruct H as [Hx Hs].
  rewrite Hx. apply IH. exact Hs.
Qed.

(** A text of white space only trims to the empty text. *)
Lemma trim_blank (s : string) :
  Js.allChars Js.isWhiteSpace s = true -> Js.trim s = "".
Proof. intros H. unfold Js.trim. rewrite (trimStart_blank s H). reflexivity. Qed.

Lemma trimEndAux_none (s : string) :
  Js.trimEndAux s = None -> Js.allChars Js.isWhiteSpace s = true.
Proof.
  induction s as [|x s IH]; simpl; [reflexivity|].
  destruct (Js.trimEndAux s); [discriminate|].
  destruct (Js.isWhiteSpace x); [|discriminate].
  intros _. apply IH. reflexivity.
Qed.

Lemma trimStart_empty (s : string) :
  Js.trimStart s = "" -> Js.allChars Js.isWhiteSpace s = true.
Proof.
  induction s as [|x s IH]; simpl; [reflexivity|].
  destruct (Js.isWhiteSpace x); [exact IH | discriminate].
Qed.

Lemma trimStart_suffix_blank (s : string) :
  Js.allChars Js.isWhiteSpace (Js.trimStart s) = true ->
  Js.allChars Js.isWhiteSpace s = true.
Proof.
  induction s as [|x s IH]; simpl; [reflexivity|].
  destruct (Js.isWhiteSpace x) eqn:E; simpl; [exact IH|].
  rewrite E. discriminate.
Qed.

(** [trim] gives the empty text for white space only. *)
Lemma trim_empty_iff (s : string) :
  Js.trim s = "" <-> Js.allChars Js.isWhiteSpace s = true.
Proof.
  split; [|apply trim_blank].
  unfold Js.trim, Js.trimEnd.
  destruct (Js.trimEndAux (Js.trimStart s)) as [r|] eqn:E.
  - intros ->. destruct (trimEndAux_last _ _ E) as (c & Hc & _). discriminate.
  - intros _. apply trimStart_suffix_blank, trimEndAux_none. exact E.
Qed.

(** ** The history of the console input box *)

Section ConsoleHistory.
Import Recall.

Lemma stringAt_in_range (h : list string) (i : Z) :
  0 <= i < Z.of_nat (List.length h) -> stringAt h i <> None.
Proof.
  intros Hi. unfold stringAt.
  destruct (i <? 0) eqn:E; [apply Z.ltb_lt in E; lia|].
  apply nth_error_Some. lia.
Qed.

Lemma pushCommand_In (c x : string) (h : list string) :
  In x (pushCommand c h) <-> x = c \/ (x <> c /\ In x h).
Proof.
  unfold pushCommand. simpl. rewrite filter_In, negb_true_iff, String.eqb_neq.
  split.
  - intros [H | [H1 H2]]; [left; congruence | right; auto].
  - intros [H | [H1 H2]]; [left; congruence | right; auto].
Qed.

Lemma filter_NoDup_keeps (p : string -> bool) (h : list string) :
  NoDup h -> NoDup (List.filter p h).
Proof.
  induction 1 as [|x h Hx Hnd IH]; simpl; [constructor|].
  destruct (p x); [|exact IH].
  constructor; [|exact IH].
  rewrite list_elem_of_In, filter_In. rewrite list_elem_of_In in Hx. tauto.
Qed.

Lemma pushCommand_NoDup (c : string) (h : list string) :
  NoDup h -> NoDup (pushCommand c h).
Proof.
  intros Hnd. unfold pushCommand. constructor.
  - rewrite list_elem_of_In, filter_In, negb_true_iff, String.eqb_neq. tauto.
  - apply filter_NoDup_keeps. exact Hnd.
Qed.

Lemma filter_absent (c : string) (h : list string) :
  ~ In c h -> List.filter (fun x => negb (String.eqb x c)) h = h.
Proof.
  induction h as [|x h IH]; simpl; [reflexivity|].
  intros Hnot.
  assert (E : String.eqb x c = false) by (apply String.eqb_neq; intros ->; tauto).
  rewrite E. simpl. rewrite IH by tauto. reflexivity.
Qed.

Lemma filter_twice (p : string -> bool) (h : list string) :
  List.filter p (List.filter p h) = List.filter p h.
Proof.
  induction h as [|x h IH]; simpl; [reflexivity|].
  destruct (p x) eqn:E; simpl; [rewrite E, IH; reflexivity | exact IH].
Qed.

Lemma pushCommand_present (c : string) (h : list string) :
  NoDup h -> In c h -> Permutation (pushCommand c h) h.
Proof.
  unfold pushCommand. induction 1 as [|x h Hx Hnd IH]; simpl; [contradiction|].
  rewrite list_elem_of_In in Hx.
  intros [-> | Hin].
  - rewrite String.eqb_refl. simpl. rewrite filter_absent by exact Hx. reflexivity.
  - assert (E : String.eqb x c = false) by (apply String.eqb_neq; intros ->; tauto).
    rewrite E. simpl. rewrite perm_swap. apply perm_skip. apply IH. exact Hin.
Qed.

Lemma resetOnMismatch_inv (s : state) : ConsolePanel.wellFormed s -> ConsolePanel.wellFormed (resetOnMismatch s).
Proof.
  unfold resetOnMismatch. destruct (_ && _); [|auto].
  unfold ConsolePanel.wellFormed, ConsolePanel.inBounds. simpl. intros ((Hi & Hb & Ht) & Hnd & Hf).
  repeat split; auto; lia.
Qed.

Lemma older_inv (s : state) : ConsolePanel.wellFormed s -> ConsolePanel.wellFormed (older s).
Proof.
  unfold older. destruct (Z.of_nat (List.length (commandHistory s)) =? 0) eqn:E; [auto|].
  apply Z.eqb_neq in E.
  unfold ConsolePanel.wellFormed, ConsolePanel.inBounds. simpl. intros ((Hi & Hb & Ht) & Hnd & Hf).
  repeat split; auto; try lia.
  - apply stringAt_in_range. lia.
  - destruct (historyIndex s =? -1); assumption.
Qed.

Lemma newer_inv (s : state) : ConsolePanel.wellFormed s -> ConsolePanel.wellFormed (newer s).
Proof.
  unfold newer. destruct (historyIndex s =? -1) eqn:E; [auto|].
  apply Z.eqb_neq in E.
  unfold ConsolePanel.wellFormed, ConsolePanel.inBounds. simpl. intros ((Hi & Hb & Ht) & Hnd & Hf).
  repeat split; auto; try lia.
  destruct (historyIndex s - 1 <? 0) eqn:E1; [exact Ht|].
  apply Z.ltb_ge in E1. apply stringAt_in_range. lia.
Qed.

Lemma handleKeyDown_inv (e : ConsolePanel.key) (s : state) :
  ConsolePanel.wellFormed s ->
  ConsolePanel.wellFormed (fst (ConsolePanel.handleKeyDown e s))
  /\ forall code, snd (ConsolePanel.handleKeyDown e s) = Some code -> trimmed code.
Proof.
  intros Hinv. destruct e; simpl.
  - destruct (buffer s) as [inputValue|]; [|split; [exact Hinv | discriminate]].
    destruct (String.eqb (Js.trim inputValue) "") eqn:E; simpl;
      [split; [exact Hinv | discriminate]|].
    apply String.eqb_neq in E. pose proof (trim_trimmed _ E) as Ht.
    split; [|intros code H; inversion H; subst; exact Ht].
    destruct Hinv as ((Hi & Hb & Htmp) & Hnd & Hf).
    unfold ConsolePanel.wellFormed, ConsolePanel.inBounds. simpl.
    repeat split; try discriminate; try lia.
    + apply pushCommand_NoDup. exact Hnd.
    + constructor; [exact Ht|].
      rewrite List.Forall_forall in *. intros x Hx. apply filter_In in Hx. apply Hf, Hx.
  - split; [apply older_inv; exact Hinv | discriminate].
  - split; [apply newer_inv; exact Hinv | discriminate].
  - split; [exact Hinv | discriminate].
Qed.

Lemma console_step_inv (ev : ConsolePanel.event) (s : state) :
  ConsolePanel.wellFormed s -> ConsolePanel.wellFormed (ConsolePanel.step ev s).
Proof.
  intros Hinv. destruct ev as [e|text]; simpl.
  - apply resetOnMismatch_inv, handleKeyDown_inv. exact Hinv.
  - apply resetOnMismatch_inv.
    destruct Hinv as ((Hi & Hb & Htmp) & Hnd & Hf).
    unfold ConsolePanel.wellFormed, ConsolePanel.inBounds. simpl.
    repeat split; auto; try lia.
Qed.

Lemma console_stepAll_inv (events : list ConsolePanel.event) (s : state) :
  ConsolePanel.wellFormed s ->
  ConsolePanel.wellFormed (ConsolePanel.stepAll events s)
  /\ Forall trimmed (ConsolePanel.submitted events s).
Proof.
  revert s. induction events as [|ev events IH]; intros s Hinv; simpl.
  - split; [exact Hinv | constructor].
  - destruct (IH _ (console_step_inv ev s Hinv)) as [H1 H2].
    split; [exact H1|]. apply Forall_app. split; [|exact H2].
    destruct ev as [e|text]; [|constructor].
    destruct (snd (ConsolePanel.handleKeyDown e s)) as [code|] eqn:E; [|constructor].
    constructor; [|constructor].
    apply (proj2 (handleKeyDown_inv e s Hinv)). exact E.
Qed.

(** With the cursor at "none", [ArrowUp] recalls the newest entry. *)
Lemma press_up_recalls_newest (c : string) (h : list string) (b t : option string) :
  buffer (ConsolePanel.press ConsolePanel.ArrowUp (mk b (c :: h) (-1) t)) = Some c.
Proof.
  unfold ConsolePanel.press. simpl. unfold older.
  assert (E : (Z.of_nat (List.length (commandHistory (mk b (c :: h) (-1) t))) =? 0) = false)
    by (apply Z.eqb_neq; simpl; lia).
  rewrite E. simpl historyIndex. simpl commandHistory.
  replace (Z.min (-1 + 1) (Z.of_nat (List.length (c :: h)) - 1)) with 0
    by (simpl List.length; lia).
  rewrite resetOnMismatch_idle by reflexivity. reflexivity.
Qed.

End ConsoleHistory.

(** X1.  Whatever is typed and whichever keys are pressed in the console
    input box of the R panel, starting from its first render: the history
    cursor is "none" (-1) or the index of a history entry, the input and the
    draft are never [undefined], the history holds no command twice, and
    every history entry and every command handed to [runCode] is a text with
    a character that is not white space at each end (so none is empty). *)
Theorem console_history_is_well_formed (events : list ConsolePanel.event) :
  let s := ConsolePanel.stepAll events ConsolePanel.initial in
  -1 <= Recall.historyIndex s < Z.of_nat (List.length (Recall.commandHistory s))
  /\ Recall.buffer s <> None
  /\ Recall.tempUserCode s <> None
  /\ NoDup (Recall.commandHistory s)
  /\ Forall trimmed (Recall.commandHistory s)
  /\ Forall trimmed (ConsolePanel.submitted events ConsolePanel.initial).
Proof.
  assert (H0 : ConsolePanel.wellFormed ConsolePanel.initial).
  { unfold ConsolePanel.wellFormed, ConsolePanel.inBounds. simpl.
    repeat split; try discriminate; try lia; constructor. }
  destruct (console_stepAll_inv events _ H0) as (((Hi & Hb & Ht) & Hnd & Hf) & Hs).
  simpl. repeat split; auto; lia.
Qed.

(** X2.  Submitting from the console input box a command that is already
    in the history moves it to the front: the history keeps the same
    entries (it does not grow), the other entries keep their relative order,
    and the command is the entry the next [ArrowUp] recalls.  A command that
    is not in the history is put in front of it. *)
Theorem console_resubmission_moves_to_front
    (s : Recall.state) (inputValue : string) :
  Recall.buffer s = Some inputValue ->
  Js.trim inputValue <> "" ->
  NoDup (Recall.commandHistory s) ->
  let code := Js.trim inputValue in
  let s' := ConsolePanel.press ConsolePanel.Enter s in
  snd (ConsolePanel.handleKeyDown ConsolePanel.Enter s) = Some code
  /\ Recall.buffer (ConsolePanel.press ConsolePanel.ArrowUp s') = Some code
  /\ List.filter (fun c => negb (String.eqb c code)) (Recall.commandHistory s')
     = List.filter (fun c => negb (String.eqb c code)) (Recall.commandHistory s)
  /\ (In code (Recall.commandHistory s) ->
      Permutation (Recall.commandHistory s') (Recall.commandHistory s)
      /\ List.length (Recall.commandHistory s') = List.length (Recall.commandHistory s))
  /\ (~ In code (Recall.commandHistory s) ->
      Recall.commandHistory s' = code :: Recall.commandHistory s).
Proof.
  intros Hb Hne Hnd code s'.
  assert (E : String.eqb (Js.trim inputValue) "" = false) by (apply String.eqb_neq; exact Hne).
  assert (Hs' : s' = Recall.mk (Some "") (Recall.pushCommand code (Recall.commandHistory s))
                       (-1) (Some "")).
  { subst s'. unfold ConsolePanel.press. simpl. rewrite Hb, E. reflexivity. }
  split; [simpl; rewrite Hb, E; reflexivity|].
  rewrite Hs'. split; [|split; [|split]].
  - apply press_up_recalls_newest.
  - simpl. rewrite String.eqb_refl. simpl. apply filter_twice.
  - simpl. intros Hin. split.
    + apply pushCommand_present; assumption.
    + apply (Permutation_length (pushCommand_present code _ Hnd Hin)).
  - simpl. intros Hnot. unfold Recall.pushCommand.
    rewrite filter_absent by exact Hnot. reflexivity.
Qed.

(** X2, on a history of three commands. *)
Lemma console_resubmission_moves_to_front_witness :
  let s := Recall.mk (Some " b ") ["a"; "b"; "c"] (-1) (Some "") in
  Recall.buffer s = Some " b "
  /\ Js.trim " b " <> ""
  /\ NoDup (Recall.commandHistory s)
  /\ Recall.commandHistory (ConsolePanel.press ConsolePanel.Enter s) = ["b"; "a"; "c"]
  /\ Permutation (Recall.commandHistory (ConsolePanel.press ConsolePanel.Enter s))
       ["a"; "b"; "c"].
Proof.
  split; [reflexivity|]. split; [discriminate|].
  assert (Hnd : NoDup ["a"; "b"; "c"]) by (apply (bool_decide_unpack _); vm_compute; exact I).
  split; [exact Hnd|]. split; [reflexivity|].
  destruct (console_resubmission_moves_to_front
              (Recall.mk (Some " b ") ["a"; "b"; "c"] (-1) (Some "")) " b "
              eq_refl ltac:(discriminate) Hnd) as (_ & _ & _ & Hin & _).
  apply Hin. simpl. tauto.
Defined.

(** ** The session store: runs and language switches *)

(** X3.  [Run] hands the editor text, trimmed, to the backend of the active
    language, and puts it at the front of the history with the cursor at
    "none"; the text handed over has a character that is not white space at
    each end.  When the editor holds white space only (or nothing), [Run]
    calls no backend and changes nothing. *)
Theorem run_submits_the_trimmed_text (s : App.state) :
  let code := Js.trim (App.editorCode s) in
  (Js.allChars Js.isWhiteSpace (App.editorCode s) = true ->
   App.handleRun s = (s, None))
  /\ (Js.allChars Js.isWhiteSpace (App.editorCode s) = false ->
      snd (App.handleRun s) = Some (App.language s, code)
      /\ trimmed code
      /\ stringAt (App.commandHistory (fst (App.handleRun s))) 0 = Some code
      /\ App.historyIndex (fst (App.handleRun s)) = -1
      /\ App.editorCode (fst (App.handleRun s)) = App.editorCode s).
Proof.
  intros code. unfold App.handleRun. fold code. split.
  - intros Hb. apply trim_empty_iff in Hb. subst code. rewrite Hb. reflexivity.
  - intros Hb.
    assert (Hne : code <> "").
    { intros H. apply trim_empty_iff in H. congruence. }
    assert (E : String.eqb code "" = false) by (apply String.eqb_neq; exact Hne).
    rewrite E. simpl. repeat split.
    + apply trim_trimmed. exact Hne.
    + apply trim_trimmed. exact Hne.
Qed.

Section LanguageSwitch.

Lemma panelEffect_codes (s : App.state) :
  App.language (App.panelEffect s) = App.language s
  /\ App.rCode (App.panelEffect s) = App.rCode s
  /\ App.pythonCode (App.panelEffect s) = App.pythonCode s
  /\ App.editorCode (App.panelEffect s) = App.editorCode s
  /\ App.commandHistory (App.panelEffect s) = App.commandHistory s.
Proof. unfold App.panelEffect. destruct (_ && _); repeat split. Qed.

Lemma commit_codes (prev next : App.state) :
  App.language (App.commit prev next) = App.language next
  /\ App.rCode (App.commit prev next) = App.rCode next
  /\ App.pythonCode (App.commit prev next) = App.pythonCode next.
Proof.
  unfold App.commit. destruct (panelEffect_codes next) as (L & R & P & _).
  destruct (App.depsChanged prev next); simpl; auto.
Qed.

(** An event other than a switch leaves the language and the text of every
    other language alone. *)
Lemma step_keeps_other_text (e : App.event) (l : App.Language) (s : App.state) :
  App.isSwitch e = false ->
  App.sameLanguage l (App.language s) = false ->
  App.language (App.step e s) = App.language s
  /\ App.codeOf l (App.step e s) = App.codeOf l s.
Proof.
  intros He Hl. unfold App.step.
  destruct (commit_codes s (App.handle e s)) as (L & R & P).
  unfold App.codeOf.
  destruct e as [value| |l']; simpl in *; try discriminate.
  - unfold App.editorOnChange, App.handleCodeChange in *.
    destruct (negb (App.historyIndex s =? -1)); simpl in *;
      destruct (App.language s), l; simpl in *; try discriminate; auto.
  - unfold App.handleRun in *.
    destruct (negb (String.eqb (Js.trim (App.editorCode s)) "")); simpl in *;
      destruct l; auto.
Qed.

Lemma stepAll_keeps_other_text (events : list App.event) (l : App.Language) :
  forall s : App.state,
    forallb (fun e => negb (App.isSwitch e)) events = true ->
    App.sameLanguage l (App.language s) = false ->
    App.language (App.stepAll events s) = App.language s
    /\ App.codeOf l (App.stepAll events s) = App.codeOf l s.
Proof.
  induction events as [|e events IH]; intros s Hev Hl; simpl; [auto|].
  simpl in Hev. apply andb_true_iff in Hev. destruct Hev as [He Hev].
  apply negb_true_iff in He.
  destruct (step_keeps_other_text e l s He Hl) as [L C].
  destruct (IH (App.step e s) Hev) as [L' C']; [rewrite L; exact Hl|].
  unfold App.stepAll in *. simpl. split; congruence.
Qed.

(** A switch shows the text kept for the language switched to. *)
Lemma switch_shows_kept_text (l : App.Language) (s : App.state) :
  App.sameLanguage (App.language s) l = false ->
  let s' := App.step (App.SwitchLanguage l) s in
  App.language s' = l
  /\ App.editorCode s' = App.codeOf l s
  /\ App.rCode s' = App.rCode s /\ App.pythonCode s' = App.pythonCode s
  /\ App.commandHistory s' = [] /\ App.historyIndex s' = -1.
Proof.
  intros Hl. unfold App.step, App.commit. simpl.
  assert (Hd : App.depsChanged s (App.setLanguage l s) = true).
  { unfold App.depsChanged. simpl. rewrite Hl. reflexivity. }
  rewrite Hd.
  destruct (panelEffect_codes (App.setLanguage l s)) as (L & R & P & _).
  unfold App.syncEffect, App.codeOf. rewrite L, R, P. simpl.
  destruct l; repeat split.
Qed.

End LanguageSwitch.

(** X4.  The editor keeps one text per language.  A text typed in the
    editor for language [l] is shown again after a switch to the other
    language, any editing and running there, and a switch back: nothing done
    while the other language is active changes it.  Each of the two switches
    empties the command history and puts the cursor at "none". *)
Theorem language_switch_round_trip
    (l l' : App.Language) (value : string) (events : list App.event) (s : App.state) :
  App.language s = l ->
  App.sameLanguage l l' = false ->
  forallb (fun e => negb (App.isSwitch e)) events = true ->
  let typed := App.step (App.Edit (Some value)) s in
  let away := App.step (App.SwitchLanguage l') typed in
  let back := App.step (App.SwitchLanguage l) (App.stepAll events away) in
  App.editorCode typed = value
  /\ App.editorCode away = App.codeOf l' s
  /\ App.commandHistory away = []
  /\ App.language back = l
  /\ App.editorCode back = value
  /\ App.codeOf l back = value
  /\ App.commandHistory back = [] /\ App.historyIndex back = -1.
Proof.
  intros Hs Hl Hev typed away back.
  assert (Htyped : App.language typed = l /\ App.codeOf l typed = value
                   /\ App.codeOf l' typed = App.codeOf l' s
                   /\ App.editorCode typed = value).
  { subst typed. unfold App.step.
    destruct (commit_codes s (App.handle (App.Edit (Some value)) s)) as (L & R & P).
    unfold App.codeOf. rewrite L, R, P. simpl.
    unfold App.commit.
    destruct (panelEffect_codes (App.editorOnChange (Some value) s)) as (L1 & R1 & P1 & E1 & _).
    assert (Hed : App.editorCode (App.editorOnChange (Some value) s) = value).
    { unfold App.editorOnChange. destruct (negb _); reflexivity. }
    assert (Hlang : App.language (App.editorOnChange (Some value) s) = l).
    { unfold App.editorOnChange. destruct (negb _); simpl; exact Hs. }
    assert (Hr : App.codeOf l (App.editorOnChange (Some value) s) = value).
    { unfold App.codeOf, App.editorOnChange.
      destruct (negb _); simpl; rewrite Hs; destruct l; reflexivity. }
    assert (Ho : App.codeOf l' (App.editorOnChange (Some value) s) = App.codeOf l' s).
    { unfold App.codeOf, App.editorOnChange.
      destruct (negb _); simpl; rewrite Hs; destruct l, l'; try discriminate; reflexivity. }
    unfold App.codeOf in Hr, Ho.
    split; [exact Hlang|]. split; [exact Hr|]. split; [exact Ho|].
    destruct (App.depsChanged s (App.editorOnChange (Some value) s)).
    - unfold App.syncEffect. simpl. rewrite L1, R1, P1, Hlang.
      destruct l; exact Hr.
    - rewrite E1. exact Hed. }
  destruct Htyped as (T1 & T2 & T3 & T4).
  assert (Hll' : App.sameLanguage (App.language typed) l' = false) by (rewrite T1; exact Hl).
  destruct (switch_shows_kept_text l' typed Hll') as (A1 & A2 & A3 & A4 & A5 & A6).
  fold away in A1, A2, A3, A4, A5, A6.
  assert (Hk : App.codeOf l away = value).
  { unfold App.codeOf in *. destruct l; congruence. }
  assert (Hl'a : App.sameLanguage l (App.language away) = false) by (rewrite A1; exact Hl).
  destruct (stepAll_keeps_other_text events l away Hev Hl'a) as (B1 & B2).
  assert (Hb : App.sameLanguage (App.language (App.stepAll events away)) l = false).
  { rewrite B1, A1. destruct l, l'; try discriminate; reflexivity. }
  destruct (switch_shows_kept_text l _ Hb) as (C1 & C2 & C3 & C4 & C5 & C6).
  fold back in C1, C2, C3, C4, C5, C6.
  split; [exact T4|]. split; [rewrite A2; exact T3|]. split; [exact A5|].
  split; [exact C1|]. split; [rewrite C2, B2; exact Hk|].
  split; [|auto].
  unfold App.codeOf in *. destruct l; congruence.
Qed.

(** X4, on a session: an R text, a visit to Python with an edit and a run,
    and the way back. *)
Lemma language_switch_round_trip_witness :
  let s := App.initial "x <- 1" "print(1)" in
  let events := [App.Edit (Some "print(2)"); App.Run] in
  let back := App.step (App.SwitchLanguage App.r)
                (App.stepAll events
                   (App.step (App.SwitchLanguage App.python)
                      (App.step (App.Edit (Some "x <- 12")) s))) in
  App.language s = App.r
  /\ App.sameLanguage App.r App.python = false
  /\ forallb (fun e => negb (App.isSwitch e)) events = true
  /\ App.editorCode back = "x <- 12"
  /\ App.pythonCode back = "print(2)".
Proof.
  split; [reflexivity|]. split; [reflexivity|]. split; [reflexivity|].
  split; [|reflexivity].
  exact (proj1 (proj2 (proj2 (proj2 (proj2
           (language_switch_round_trip App.r App.python "x <- 12"
              [App.Edit (Some "print(2)"); App.Run] (App.initial "x <- 1" "print(1)")
              eq_refl eq_refl eq_refl)))))).
Defined.

(** ** The plot viewer *)

Section PlotPanelFacts.
Import PlotPanel.

Lemma count_pos (p : panel) : plots p <> [] -> 0 < count p.
Proof. unfold count. destruct (plots p); [congruence | simpl; lia]. Qed.

Lemma count_zero (p : panel) : plots p = [] -> count p = 0.
Proof. unfold count. intros ->. reflexivity. Qed.

Lemma lengthEffect_inRange (p : panel) : inRange (lengthEffect p).
Proof.
  unfold lengthEffect. destruct (0 <? count p) eqn:E.
  - apply Z.ltb_lt in E. right. unfold count in *. simpl. lia.
  - apply Z.ltb_ge in E. left. unfold count in E. destruct (plots p); [reflexivity | simpl in E; lia].
Qed.

Lemma render_inRange (newPlots : list PlotData) (p : panel) :
  inRange p -> inRange (render newPlots p).
Proof.
  intros Hp. unfold render.
  destruct (Nat.eqb (List.length newPlots) (List.length (plots p))) eqn:E;
    [|apply lengthEffect_inRange].
  apply Nat.eqb_eq in E. destruct Hp as [H | H].
  - left. simpl. rewrite H in E. destruct newPlots; [reflexivity | discriminate].
  - right. unfold count in *. simpl. rewrite E. exact H.
Qed.

Lemma step_inRange (f : flavour) (ev : event) (p : panel) :
  inRange p -> inRange (step f ev p).
Proof.
  intros Hp. destruct ev as [newPlots| | |e|]; simpl.
  - apply render_inRange. exact Hp.
  - destruct ((1 <? count p) && _) eqn:E; [|exact Hp].
    apply andb_true_iff in E. destruct E as [E _]. apply Z.ltb_lt in E.
    destruct Hp as [H | H]; [rewrite (count_zero p H) in E; lia|].
    right. unfold handleNextPlot, count in *. simpl. lia.
  - destruct ((1 <? count p) && _) eqn:E; [|exact Hp].
    apply andb_true_iff in E. destruct E as [E _]. apply Z.ltb_lt in E.
    destruct Hp as [H | H]; [rewrite (count_zero p H) in E; lia|].
    right. unfold handlePrevPlot, count in *. simpl. lia.
  - destruct f; [|exact Hp].
    destruct (0 <? count p) eqn:E; [|exact Hp].
    unfold handleKeyDown. destruct (count p <=? 1) eqn:E1; [exact Hp|].
    apply Z.leb_gt in E1.
    destruct Hp as [H | H]; [rewrite (count_zero p H) in E1; lia|].
    destruct e; [| |right; exact H].
    + right. unfold handleNextPlot, count in *. simpl. lia.
    + right. unfold handlePrevPlot, count in *. simpl. lia.
  - destruct (0 <? count p) eqn:E; [|exact Hp].
    apply Z.ltb_lt in E.
    apply render_inRange. right. unfold count in *. simpl. lia.
Qed.

Lemma stepAll_inRange (f : flavour) (events : list event) (p : panel) :
  inRange p -> inRange (stepAll f events p).
Proof.
  revert p. induction events as [|ev events IH]; intros p Hp; [exact Hp|].
  apply IH, step_inRange. exact Hp.
Qed.

Lemma inRange_currentPlot (p : panel) :
  inRange p -> plots p <> [] ->
  exists plot, currentPlot p = Some plot /\ In plot (plots p).
Proof.
  intros [H | H] Hne; [congruence|].
  unfold currentPlot. destruct (currentPlotIndex p <? 0) eqn:E; [apply Z.ltb_lt in E; lia|].
  destruct (nth_error (plots p) (Z.to_nat (currentPlotIndex p))) as [plot|] eqn:En.
  - exists plot. split; [reflexivity|]. eapply nth_error_In. exact En.
  - apply nth_error_None in En. unfold count in H. lia.
Qed.

End PlotPanelFacts.

(** X5.  In the plot viewer of either panel, whatever the parent hands
    down and whatever the user clicks or presses after the panel is mounted:
    as long as there is a plot, the index shown is the index of a plot, so
    the picture displayed, the "Plot i of n" label (with [1 <= i <= n]) and the
    file offered by the export button all refer to an existing plot. *)
Theorem plot_viewer_shows_an_existing_plot
    (f : PlotPanel.flavour) (plots0 : list PlotData) (events : list PlotPanel.event) :
  let p := PlotPanel.stepAll f events (PlotPanel.mount plots0) in
  PlotPanel.plots p <> [] ->
  1 <= PlotPanel.currentPlotIndex p + 1 <= PlotPanel.count p
  /\ exists plot,
       In plot (PlotPanel.plots p)
       /\ PlotPanel.currentPlot p = Some plot
       /\ exists fileName,
            PlotPanel.handleExportPlot f p = Some (fileName, dataUrl plot).
Proof.
  intros p Hne.
  assert (Hp : PlotPanel.inRange p).
  { apply stepAll_inRange. apply lengthEffect_inRange. }
  destruct (inRange_currentPlot p Hp Hne) as (plot & Hc & Hin).
  split.
  - destruct Hp as [H | H]; [congruence | lia].
  - exists plot. split; [exact Hin|]. split; [exact Hc|].
    unfold PlotPanel.handleExportPlot. rewrite Hc. eexists. reflexivity.
Qed.

(** X5, on a panel that receives a third plot, is stepped back twice and
    forward once. *)
Lemma plot_viewer_shows_an_existing_plot_witness :
  let a := mkPlot "plot-0" "data:image/png;base64,AAAA" in
  let b := mkPlot "plot-1" "data:image/png;base64,BBBB" in
  let c := mkPlot "plot-2" "data:image/png;base64,CCCC" in
  let p := PlotPanel.stepAll PlotPanel.RPlots
             [PlotPanel.Render [a; b; c]; PlotPanel.ClickPrev;
              PlotPanel.KeyDown PlotPanel.ArrowLeft; PlotPanel.ClickNext]
             (PlotPanel.mount [a; b]) in
  PlotPanel.plots p <> []
  /\ PlotPanel.currentPlot p = Some b
  /\ 1 <= PlotPanel.currentPlotIndex p + 1 <= PlotPanel.count p.
Proof.
  split; [discriminate|]. split; [reflexivity|].
  exact (proj1 (plot_viewer_shows_an_existing_plot PlotPanel.RPlots
                  [mkPlot "plot-0" "data:image/png;base64,AAAA";
                   mkPlot "plot-1" "data:image/png;base64,BBBB"]
                  [PlotPanel.Render [mkPlot "plot-0" "data:image/png;base64,AAAA";
                                     mkPlot "plot-1" "data:image/png;base64,BBBB";
                                     mkPlot "plot-2" "data:image/png;base64,CCCC"];
                   PlotPanel.ClickPrev; PlotPanel.KeyDown PlotPanel.ArrowLeft;
                   PlotPanel.ClickNext]
                  ltac:(discriminate))).
Defined.

(** X6.  In the plot viewer, a render that changes the number of plots to
    a positive number makes the last plot the current one, while a render
    with as many plots as before keeps the index.  On a panel holding
    several plots whose current plot is not the last, stepping forward and
    then back returns to the plot that was current; the forward button does
    nothing on the last plot and the back button nothing on the first; and
    in the R panel the right and left arrow keys do what the two buttons do,
    while the Python panel ignores them. *)
Theorem plot_viewer_navigation (f : PlotPanel.flavour) (p : PlotPanel.panel) :
  PlotPanel.inRange p ->
  (forall older newest,
      List.length (older ++ [newest]) <> List.length (PlotPanel.plots p) ->
      PlotPanel.currentPlot (PlotPanel.step f (PlotPanel.Render (older ++ [newest])) p)
      = Some newest)
  /\ (forall newPlots,
        List.length newPlots = List.length (PlotPanel.plots p) ->
        PlotPanel.currentPlotIndex (PlotPanel.step f (PlotPanel.Render newPlots) p)
        = PlotPanel.currentPlotIndex p)
  /\ (PlotPanel.currentPlotIndex p < PlotPanel.count p - 1 ->
      PlotPanel.step f PlotPanel.ClickPrev (PlotPanel.step f PlotPanel.ClickNext p) = p)
  /\ (PlotPanel.currentPlotIndex p = PlotPanel.count p - 1 ->
      PlotPanel.step f PlotPanel.ClickNext p = p)
  /\ (PlotPanel.currentPlotIndex p = 0 ->
      PlotPanel.step f PlotPanel.ClickPrev p = p)
  /\ PlotPanel.step PlotPanel.RPlots (PlotPanel.KeyDown PlotPanel.ArrowRight) p
     = PlotPanel.step PlotPanel.RPlots PlotPanel.ClickNext p
  /\ PlotPanel.step PlotPanel.RPlots (PlotPanel.KeyDown PlotPanel.ArrowLeft) p
     = PlotPanel.step PlotPanel.RPlots PlotPanel.ClickPrev p
  /\ (forall e, PlotPanel.step PlotPanel.PythonPlots (PlotPanel.KeyDown e) p = p).
Proof.
  intros Hp. destruct p as [plots idx].
  unfold PlotPanel.inRange, PlotPanel.count in Hp. simpl in Hp.
  split; [|split; [|split; [|split; [|split; [|split; [|split]]]]]].
  - intros older newest Hlen. simpl in Hlen. simpl. unfold PlotPanel.render. simpl.
    destruct (Nat.eqb_spec (List.length (older ++ [newest])) (List.length plots)) as [E|E];
      [congruence|].
    unfold PlotPanel.lengthEffect, PlotPanel.count. simpl.
    rewrite length_app. simpl.
    destruct (0 <? Z.of_nat (List.length older + 1)) eqn:E0; [|apply Z.ltb_ge in E0; lia].
    unfold PlotPanel.currentPlot. simpl.
    destruct (Z.of_nat (List.length older + 1) - 1 <? 0) eqn:E1; [apply Z.ltb_lt in E1; lia|].
    replace (Z.to_nat (Z.of_nat (List.length older + 1) - 1)) with (List.length older) by lia.
    rewrite nth_error_app2 by lia. rewrite Nat.sub_diag. reflexivity.
  - intros newPlots Hlen. simpl in Hlen. simpl. unfold PlotPanel.render. simpl.
    rewrite Hlen, Nat.eqb_refl. reflexivity.
  - simpl. unfold PlotPanel.count. simpl. intros Hlt.
    destruct Hp as [-> | Hp]; [simpl in Hlt; simpl; reflexivity|].
    assert (E1 : (1 <? Z.of_nat (List.length plots)) = true) by (apply Z.ltb_lt; lia).
    assert (E2 : (idx =? Z.of_nat (List.length plots) - 1) = false) by (apply Z.eqb_neq; lia).
    rewrite E1, E2. simpl. unfold PlotPanel.handleNextPlot, PlotPanel.count. simpl.
    rewrite E1.
    assert (E3 : (Z.min (idx + 1) (Z.of_nat (List.length plots) - 1) =? 0) = false)
      by (apply Z.eqb_neq; lia).
    rewrite E3. simpl. unfold PlotPanel.handlePrevPlot. simpl. f_equal. lia.
  - simpl. unfold PlotPanel.count. simpl. intros ->.
    rewrite Z.eqb_refl, andb_false_r. reflexivity.
  - simpl. intros ->. rewrite andb_false_r. reflexivity.
  - simpl. unfold PlotPanel.handleKeyDown, PlotPanel.count. simpl.
    destruct Hp as [-> | Hp]; [reflexivity|].
    assert (E0 : (0 <? Z.of_nat (List.length plots)) = true) by (apply Z.ltb_lt; lia).
    rewrite E0.
    destruct (Z.of_nat (List.length plots) <=? 1) eqn:E1.
    + apply Z.leb_le in E1.
      assert (E2 : (1 <? Z.of_nat (List.length plots)) = false) by (apply Z.ltb_ge; lia).
      rewrite E2. reflexivity.
    + apply Z.leb_gt in E1.
      assert (E2 : (1 <? Z.of_nat (List.length plots)) = true) by (apply Z.ltb_lt; lia).
      rewrite E2. simpl.
      destruct (idx =? Z.of_nat (List.length plots) - 1) eqn:E3; simpl; [|reflexivity].
      apply Z.eqb_eq in E3. unfold PlotPanel.handleNextPlot, PlotPanel.count. simpl.
      f_equal. lia.
  - simpl. unfold PlotPanel.handleKeyDown, PlotPanel.count. simpl.
    destruct Hp as [-> | Hp]; [reflexivity|].
    assert (E0 : (0 <? Z.of_nat (List.length plots)) = true) by (apply Z.ltb_lt; lia).
    rewrite E0.
    destruct (Z.of_nat (List.length plots) <=? 1) eqn:E1.
    + apply Z.leb_le in E1.
      assert (E2 : (1 <? Z.of_nat (List.length plots)) = false) by (apply Z.ltb_ge; lia).
      rewrite E2. reflexivity.
    + apply Z.leb_gt in E1.
      assert (E2 : (1 <? Z.of_nat (List.length plots)) = true) by (apply Z.ltb_lt; lia).
      rewrite E2. simpl.
      destruct (idx =? 0) eqn:E3; simpl; [|reflexivity].
      apply Z.eqb_eq in E3. unfold PlotPanel.handlePrevPlot. simpl. f_equal. lia.
  - intros e. reflexivity.
Qed.

(** X6, on a panel showing the second of three plots. *)
Lemma plot_viewer_navigation_witness :
  let a := mkPlot "plot-0" "data:image/png;base64,AAAA" in
  let b := mkPlot "plot-1" "data:image/png;base64,BBBB" in
  let c := mkPlot "plot-2" "data:image/png;base64,CCCC" in
  let p := PlotPanel.mk [a; b; c] 1 in
  PlotPanel.inRange p
  /\ PlotPanel.step PlotPanel.RPlots PlotPanel.ClickPrev
       (PlotPanel.step PlotPanel.RPlots PlotPanel.ClickNext p) = p
  /\ PlotPanel.currentPlot
       (PlotPanel.step PlotPanel.RPlots (PlotPanel.Render ([a] ++ [b])) p) = Some b.
Proof.
  assert (Hp : PlotPanel.inRange
                 (PlotPanel.mk [mkPlot "plot-0" "data:image/png;base64,AAAA";
                                mkPlot "plot-1" "data:image/png;base64,BBBB";
                                mkPlot "plot-2" "data:image/png;base64,CCCC"] 1)).
  { right. unfold PlotPanel.count. simpl. lia. }
  split; [exact Hp|].
  destruct (plot_viewer_navigation PlotPanel.RPlots _ Hp) as (Hnew & _ & Hback & _).
  split.
  - apply Hback. unfold PlotPanel.count. simpl. lia.
  - apply Hnew. simpl. discriminate.
Defined.

(** ** The Python hook, line by line *)

Section PythonExact.
Import UsePyodide.
Context {I : Interpreter}.

Lemma py_fold_batched (out : list Batched) (s : state) :
  List.fold_left (fun acc b => batched b acc) out s
  = setConsoleOutput (consoleOutput s ++ shown out) s.
Proof.
  revert s. induction out as [|b out IH]; intros s; simpl.
  - unfold shown. simpl. rewrite app_nil_r. destruct s; reflexivity.
  - rewrite IH. unfold batched, shown. simpl.
    destruct (String.eqb (msg b) ""); simpl; [reflexivity|].
    unfold log. simpl. rewrite <- app_assoc. reflexivity.
Qed.

(** An awaited call leaves the interpreter in its new state and what it
    printed on the console; nothing else changes. *)
Lemma py_await_exact {A : Type} (call : py -> Ran py A) (s : state) (p : py) :
  pyodide s = Some p ->
  await call s
  = (setConsoleOutput (consoleOutput s ++ shown (printed (call p)))
       (setPyodide (Some (after (call p))) s),
     result (call p)).
Proof.
  intros Hp. unfold await. rewrite Hp. rewrite py_fold_batched. reflexivity.
Qed.

Lemma py_updateEnvironment_exact (s : state) (p : py) :
  pyodide s = Some p ->
  updateEnvironment s
  = mk (Some (after (inspectScope p))) (plotIdCounter s) (isLoading s) false
       (consoleOutput s ++ shown (printed (inspectScope p)))
       (refreshedFrom p (environment s)) (tableData s) (plots s).
Proof.
  intros Hp. unfold updateEnvironment. rewrite Hp.
  rewrite (py_await_exact inspectScope (setIsEnvLoading true s) p Hp).
  unfold refreshedFrom. simpl.
  destruct (result (inspectScope p)); reflexivity.
Qed.

End PythonExact.

(** ** Views and plot identifiers in the Python hook *)

Section PythonOps.
Import UsePyodide.
Context {I : Interpreter}.

(** The state [viewPlotByName] hands to its last step. *)
Lemma py_viewPlotByName_exact (x : string) (s : state) (p : py) :
  pyodide s = Some p ->
  Js.nonEmptyOf Js.isWordChar x = true ->
  let ran := readGlobal x p in
  let s1 := setConsoleOutput (consoleOutput s ++ shown (printed ran))
              (setPyodide (Some (after ran)) s) in
  viewPlotByName x s
  = match result (plotScript x p) with
    | Resolved (Some b64) =>
        if String.eqb b64 ""
        then log stderr ("Could not view plot object '" ++ x ++ "': "
                         ++ "Object '" ++ x ++ "' is not a Figure or does not exist.")%string s1
        else setPlots (plots s ++ [mkPlot (plotId (plotIdCounter s))
                                          ("data:image/png;base64," ++ b64)%string])
               (setPlotIdCounter (S (plotIdCounter s)) s1)
    | Resolved None =>
        log stderr ("Could not view plot object '" ++ x ++ "': "
                    ++ "Object '" ++ x ++ "' is not a Figure or does not exist.")%string s1
    | Rejected e =>
        log stderr ("Could not view plot object '" ++ x ++ "': " ++ e)%string s1
    end.
Proof.
  intros Hp Hx ran s1. unfold viewPlotByName. rewrite Hp, Hx.
  rewrite (py_await_exact (plotScript x) s p Hp). reflexivity.
Qed.

Lemma py_viewObjectByName_exact (x : string) (s : state) (p : py) :
  pyodide s = Some p ->
  Js.nonEmptyOf Js.isWordChar x = true ->
  let ran := readGlobal x p in
  let s1 := setConsoleOutput (consoleOutput s ++ shown (printed ran))
              (setPyodide (Some (after ran)) s) in
  viewObjectByName x s
  = match result (viewScript x p) with
    | Resolved (Some parsed) =>
        setTableData
          (Some {| name := x;
                   columns := Some (List.map Js.Str ("#" :: splitColumns parsed));
                   data := Some (tableRows parsed 0 (splitData parsed)) |}) s1
    | Resolved None =>
        log stderr ("Could not view object '" ++ x ++ "': "
                    ++ "Object '" ++ x ++ "' is not a DataFrame or does not exist.")%string s1
    | Rejected e =>
        log stderr ("Could not view object '" ++ x ++ "': " ++ e)%string s1
    end.
Proof.
  intros Hp Hx ran s1. unfold viewObjectByName. rewrite Hp, Hx.
  rewrite (py_await_exact (viewScript x) s p Hp). reflexivity.
Qed.

(** Viewing never touches the interpreter handle's presence, the loading
    flag, the environment; [viewObjectByName] leaves the plots alone. *)
Lemma py_viewObjectByName_plots (x : string) (s : state) :
  plots (viewObjectByName x s) = plots s
  /\ plotIdCounter (viewObjectByName x s) = plotIdCounter s.
Proof.
  destruct (pyodide s) as [p|] eqn:Hp.
  - destruct (Js.nonEmptyOf Js.isWordChar x) eqn:Hx.
    + rewrite (py_viewObjectByName_exact x s p Hp Hx).
      destruct (result (viewScript x p)) as [[parsed|]|e]; split; reflexivity.
    + unfold viewObjectByName. rewrite Hp, Hx. split; reflexivity.
  - unfold viewObjectByName. rewrite Hp. split; reflexivity.
Qed.

End PythonOps.

(** ** Plot identifiers *)

Lemma plotId_inj (m n : nat) : plotId m = plotId n -> m = n.
Proof.
  unfold plotId. intros H. simpl in H. inversion H as [H1].
  apply (inj pretty). exact H1.
Qed.

Lemma freshIds_nil (counter : nat) : freshIds counter [].
Proof. split; [constructor | intros plot []]. Qed.

Lemma freshIds_snoc (counter : nat) (plots : list PlotData) (url : string) :
  freshIds counter plots ->
  freshIds (S counter) (plots ++ [mkPlot (plotId counter) url]).
Proof.
  intros [Hnd Hb]. split.
  - rewrite List.map_app. simpl. apply NoDup_app. split; [exact Hnd|].
    split; [|apply NoDup_singleton].
    intros i Hi Hin. apply list_elem_of_In in Hi. apply in_map_iff in Hi.
    destruct Hi as (plot & <- & Hplot).
    apply list_elem_of_In in Hin. destruct Hin as [Hin | []].
    destruct (Hb plot Hplot) as (n & Hn & Hid).
    rewrite Hid in Hin. apply plotId_inj in Hin. lia.
  - intros plot Hin. apply in_app_iff in Hin. destruct Hin as [Hin | [<- | []]].
    + destruct (Hb plot Hin) as (n & Hn & Hid). exists n. split; [lia | exact Hid].
    + exists counter. split; [lia | reflexivity].
Qed.

Lemma freshIds_plotObjectsFrom (newPlots : list string) :
  forall (counter : nat) (plots : list PlotData),
    freshIds counter plots ->
    freshIds (counter + List.length newPlots)
      (plots ++ UsePyodide.plotObjectsFrom counter newPlots).
Proof.
  induction newPlots as [|x rest IH]; intros counter plots H; simpl.
  - rewrite app_nil_r, Nat.add_0_r. exact H.
  - replace (counter + S (List.length rest))%nat with (S counter + List.length rest)%nat by lia.
    change (plots ++ mkPlot (plotId counter) ("data:image/png;base64," ++ x)%string
                  :: UsePyodide.plotObjectsFrom (S counter) rest)
      with (plots ++ [mkPlot (plotId counter) ("data:image/png;base64," ++ x)%string]
                  ++ UsePyodide.plotObjectsFrom (S counter) rest).
    rewrite app_assoc. apply IH. apply freshIds_snoc. exact H.
Qed.

Lemma freshIds_newPlotsFrom (imgs : list (option string)) :
  forall (counter : nat) (plots : list PlotData),
    freshIds counter plots ->
    freshIds (snd (UseWebR.newPlotsFrom counter imgs))
      (plots ++ fst (UseWebR.newPlotsFrom counter imgs)).
Proof.
  induction imgs as [|[url|] rest IH]; intros counter plots H; simpl.
  - rewrite app_nil_r. exact H.
  - specialize (IH (S counter) _ (freshIds_snoc counter plots url H)).
    destruct (UseWebR.newPlotsFrom (S counter) rest) as [more counter']. simpl in *.
    rewrite <- app_assoc in IH. exact IH.
  - apply IH. exact H.
Qed.

Section PythonIds.
Import UsePyodide.
Context {I : Interpreter}.

Lemma py_perform_freshIds (o : op) (s : state) :
  freshIds (plotIdCounter s) (plots s) ->
  freshIds (plotIdCounter (perform o s)) (plots (perform o s))
  /\ (plotIdCounter s <= plotIdCounter (perform o s))%nat.
Proof.
  intros H. destruct o; simpl.
  - destruct (pyodide s) as [p|] eqn:Hp; [destruct (isLoading s) eqn:Hl|].
    + unfold runCode. rewrite Hp, Hl. auto.
    + destruct (py_runCode_spec code isInteractive s p Hp Hl) as (_ & _ & _ & q & _ & _ & R).
      simpl in R.
      assert (Hcase : (plots (runCode code isInteractive s) = plots s
                       /\ plotIdCounter (runCode code isInteractive s) = plotIdCounter s)
                      \/ exists newPlots,
                           plots (runCode code isInteractive s)
                           = (if isInteractive then [] else plots s)
                             ++ plotObjectsFrom (plotIdCounter s) newPlots
                           /\ plotIdCounter (runCode code isInteractive s)
                              = (plotIdCounter s + List.length newPlots)%nat).
      { destruct (result (if negb isInteractive then closeAll p
                          else mkRan _ _ p [] (Resolved tt))) as [[]|e0].
        - destruct (result (runUser code _)) as [[]|e1].
          + destruct R as (_ & R). destruct (result (renderFigures _)) as [newPlots|e2].
            * right. exists newPlots. exact R.
            * left. exact R.
          + left. destruct R as (_ & R). exact R.
        - left. destruct R as (_ & R). exact R. }
      destruct Hcase as [[E1 E2] | (newPlots & E1 & E2)]; rewrite E1, E2.
      * auto.
      * split; [|lia]. destruct isInteractive.
        -- apply (freshIds_plotObjectsFrom newPlots (plotIdCounter s) []), freshIds_nil.
        -- apply freshIds_plotObjectsFrom. exact H.
    + unfold runCode. rewrite Hp. auto.
  - destruct (py_viewObjectByName_plots x s) as [E1 E2]. rewrite E1, E2. auto.
  - destruct (pyodide s) as [p|] eqn:Hp.
    + destruct (Js.nonEmptyOf Js.isWordChar x) eqn:Hx.
      * rewrite (py_viewPlotByName_exact x s p Hp Hx).
        destruct (result (plotScript x p)) as [[b64|]|e]; [|auto|auto].
        destruct (String.eqb b64 ""); [auto|]. simpl.
        split; [apply freshIds_snoc; exact H | lia].
      * unfold viewPlotByName. rewrite Hp, Hx. auto.
    + unfold viewPlotByName. rewrite Hp. auto.
  - split; [apply freshIds_nil | lia].
  - auto.
  - auto.
Qed.

End PythonIds.

(** ** The R hook, line by line *)

Lemma string_app_assoc (a b c : string) : ((a ++ b) ++ c = a ++ (b ++ c))%string.
Proof.
  induction a as [|x a IH]; [reflexivity|].
  change (String x ((a ++ b) ++ c) = String x (a ++ (b ++ c)))%string.
  f_equal. exact IH.
Qed.

(** A line break at the end does not survive [trimEnd]. *)
Lemma trimEnd_newline (t : string) : Js.trimEnd (t ++ newline)%string = Js.trimEnd t.
Proof.
  unfold Js.trimEnd.
  assert (H : Js.trimEndAux (t ++ newline)%string = Js.trimEndAux t).
  { induction t as [|c t IH]; simpl; [reflexivity|]. rewrite IH. reflexivity. }
  rewrite H. reflexivity.
Qed.

Section RExact.
Import UseWebR.
Context {I : Interpreter}.

(** The text [runCode] accumulates for one stream is the stream's messages
    joined by line breaks, with one more line break at the end. *)
Lemma messagesOf_joined (kind : string) (out : list (string * string)) :
  messagesOf kind out
  = match dataOf kind out with
    | [] => ""
    | _ :: _ => (Js.joinWith newline (dataOf kind out) ++ newline)%string
    end.
Proof.
  induction out as [|[t d] rest IH]; simpl; [reflexivity|].
  unfold dataOf in *. simpl.
  destruct (String.eqb t kind); simpl; [|exact IH].
  rewrite IH.
  destruct (List.map snd (List.filter (fun m => String.eqb (fst m) kind) rest))
    as [|d' ds]; simpl.
  - reflexivity.
  - rewrite !string_app_assoc. reflexivity.
Qed.

Lemma logIfAny_captured (t : OutputType) (kind : string) (out : list (string * string))
    (s : state) :
  logIfAny t (Js.trimEnd (messagesOf kind out)) s
  = setConsoleOutput (consoleOutput s ++ capturedLine t kind out) s.
Proof.
  unfold logIfAny, capturedLine.
  assert (E : Js.trimEnd (messagesOf kind out)
              = Js.trimEnd (Js.joinWith newline (dataOf kind out))).
  { rewrite messagesOf_joined. destruct (dataOf kind out) as [|d ds]; [reflexivity|].
    apply trimEnd_newline. }
  rewrite E. destruct (String.eqb _ ""); [|reflexivity].
  rewrite app_nil_r. destruct s; reflexivity.
Qed.

(** What a run that goes past the first line of [runCode] leaves in the
    console, the plots and the plot counter. *)
Lemma r_runCode_exact (code : string) (s : state) (w : webr) :
  webR s = Some w -> isLoading s = false -> shelter s = true ->
  let ran := captureR (codeToExecute code) w in
  let s' := runCode code s in
  isLoading s' = false /\ shelter s' = true
  /\ match result ran with
     | Resolved captureResult =>
         consoleOutput s'
         = consoleOutput s ++ [mkLine input code]
           ++ capturedLine stdout "stdout" (output captureResult)
           ++ capturedLine stderr "stderr" (output captureResult)
         /\ plots s'
            = plots s ++ fst (newPlotsFrom (plotIdCounter s) (images captureResult))
         /\ plotIdCounter s'
            = snd (newPlotsFrom (plotIdCounter s) (images captureResult))
     | Rejected e =>
         consoleOutput s' = consoleOutput s ++ [mkLine input code; mkLine stderr e]
         /\ plots s' = plots s /\ plotIdCounter s' = plotIdCounter s
     end.
Proof.
  intros Hw Hl Hs ran s'. subst s'. unfold runCode. rewrite Hw, Hl, Hs. simpl.
  assert (Hw0 : webR (log input code s) = Some w) by exact Hw.
  destruct (r_await_spec (captureR (codeToExecute code)) _ w Hw0) as (K & W & E & R).
  destruct (await (captureR (codeToExecute code)) (log input code s)) as [s1 captured].
  simpl in K, W, E, R. subst captured. fold ran in W |- *.
  destruct K as (K1 & K2 & K3 & K4 & K5). simpl in K1, K2, K3, K4, K5.
  destruct (result ran) as [captureResult|e].
  - rewrite !logIfAny_captured.
    set (s1b := setConsoleOutput _ (setConsoleOutput _ s1)).
    assert (Hb : consoleOutput s1b
                 = consoleOutput s ++ [mkLine input code]
                   ++ capturedLine stdout "stdout" (output captureResult)
                   ++ capturedLine stderr "stderr" (output captureResult)
                 /\ plots s1b = plots s /\ plotIdCounter s1b = plotIdCounter s
                 /\ webR s1b = Some (after ran) /\ isLoading s1b = false
                 /\ shelter s1b = true).
    { subst s1b. simpl. rewrite K1. rewrite <- !app_assoc. simpl.
      repeat split; congruence. }
    destruct Hb as (C & P & N & W1 & L1 & S1). clearbody s1b.
    destruct (0 <? List.length (images captureResult))%nat eqn:Hn.
    + destruct (newPlotsFrom (plotIdCounter s1b) (images captureResult))
        as [newPlots counter] eqn:Hnew.
      match goal with |- context [updateEnvironment ?m] => set (mid := m) end.
      assert (Wm : webR mid = Some (after ran)) by exact W1.
      destruct (r_updateEnvironment_spec mid _ Wm) as ((U1 & U2 & U3 & U4 & U5) & _).
      rewrite U1, U2, U3, U4, U5. subst mid. simpl. rewrite N in Hnew. rewrite Hnew. simpl.
      repeat split; first [congruence | exact C].
    + destruct (r_updateEnvironment_spec s1b _ W1) as ((U1 & U2 & U3 & U4 & U5) & _).
      rewrite U1, U2, U3, U4, U5.
      apply Nat.ltb_ge in Hn.
      destruct (images captureResult); [|simpl in Hn; lia]. simpl.
      rewrite app_nil_r. repeat split; first [congruence | exact C].
  - assert (Wm : webR (log stderr e s1) = Some (after ran)) by exact W.
    destruct (r_updateEnvironment_spec _ _ Wm) as ((U1 & U2 & U3 & U4 & U5) & _).
    rewrite U1, U2, U3, U4, U5. simpl. rewrite K1, <- app_assoc. simpl.
    repeat split; congruence.
Qed.

Lemma r_perform_freshIds (o : op) (s : state) :
  freshIds (plotIdCounter s) (plots s) ->
  freshIds (plotIdCounter (perform o s)) (plots (perform o s))
  /\ (plotIdCounter s <= plotIdCounter (perform o s))%nat.
Proof.
  intros H. destruct o; simpl.
  - destruct (webR s) as [w|] eqn:Hw;
      [destruct (isLoading s) eqn:Hl; [|destruct (shelter s) eqn:Hs]|].
    + unfold runCode. rewrite Hw, Hl. auto.
    + destruct (r_runCode_exact code s w Hw Hl Hs) as (_ & _ & R). simpl in R.
      destruct (result (captureR (codeToExecute code) w)) as [captureResult|e].
      * destruct R as (_ & P & N). rewrite P, N. split.
        -- apply freshIds_newPlotsFrom. exact H.
        -- rewrite newPlotsFrom_counter. lia.
      * destruct R as (_ & P & N). rewrite P, N. auto.
    + unfold runCode. rewrite Hw, Hl, Hs. auto.
    + unfold runCode. rewrite Hw. auto.
  - unfold viewObjectByName. destruct (negb _); [auto|].
    destruct (find x (viewableDataFrames s)); auto.
  - split; [apply freshIds_nil | lia].
  - auto.
  - auto.
Qed.

End RExact.

(** ** Plot identifiers *)

(** X7.  Along any sequence of operations of the Python hook (runs in
    either mode, views of tables and figures, the three clears), starting
    from a state whose plots carry distinct identifiers issued below the plot
    counter: no two plots in the list carry the same identifier, every
    identifier in the list was issued below the counter, and the counter
    never goes back; so an identifier is never issued twice, not even after
    the plots are cleared. *)
Theorem python_plot_ids_never_repeat
    (P : UsePyodide.Interpreter) (ops : list UsePyodide.op) (s : UsePyodide.state) :
  freshIds (UsePyodide.plotIdCounter s) (UsePyodide.plots s) ->
  let s' := UsePyodide.performAll ops s in
  NoDup (List.map id (UsePyodide.plots s'))
  /\ (forall plot, In plot (UsePyodide.plots s') ->
        exists n, (n < UsePyodide.plotIdCounter s')%nat /\ id plot = plotId n)
  /\ (UsePyodide.plotIdCounter s <= UsePyodide.plotIdCounter s')%nat.
Proof.
  revert s. induction ops as [|o ops IH]; intros s H; simpl.
  - destruct H as [H1 H2]. auto.
  - destruct (py_perform_freshIds o s H) as [Hf Hle].
    destruct (IH _ Hf) as (A & B & C). simpl in A, B, C.
    split; [exact A|]. split; [exact B | lia].
Qed.

(** X7, on a session: a script drawing two figures, a clear, an
    interactive statement, and a view of a name that is not bound. *)
Lemma python_plot_ids_never_repeat_witness :
  let s := ToyPython.ready ToyPython.session in
  let s' := UsePyodide.performAll
              [UsePyodide.RunCode (program ["plt.figure(1)"; "plt.figure(2)"]) false;
               UsePyodide.ClearPlots;
               UsePyodide.RunCode "plt.figure(1)" true;
               UsePyodide.ViewPlotByName "nothing"] s in
  freshIds (UsePyodide.plotIdCounter s) (UsePyodide.plots s)
  /\ List.map id (UsePyodide.plots s') = ["plot-2"; "plot-3"]
  /\ NoDup (List.map id (UsePyodide.plots s')).
Proof.
  split; [apply freshIds_nil|]. split; [reflexivity|].
  exact (proj1 (python_plot_ids_never_repeat ToyPython.interpreter
                  [UsePyodide.RunCode (program ["plt.figure(1)"; "plt.figure(2)"]) false;
                   UsePyodide.ClearPlots;
                   UsePyodide.RunCode "plt.figure(1)" true;
                   UsePyodide.ViewPlotByName "nothing"]
                  (ToyPython.ready ToyPython.session) (freshIds_nil 0))).
Defined.

(** X8.  The same for the R hook: along any sequence of its operations no
    two plots in the list carry the same identifier, every identifier was
    issued below the counter, and the counter never goes back. *)
Theorem r_plot_ids_never_repeat
    (R : UseWebR.Interpreter) (ops : list UseWebR.op) (s : UseWebR.state) :
  freshIds (UseWebR.plotIdCounter s) (UseWebR.plots s) ->
  let s' := UseWebR.performAll ops s in
  NoDup (List.map id (UseWebR.plots s'))
  /\ (forall plot, In plot (UseWebR.plots s') ->
        exists n, (n < UseWebR.plotIdCounter s')%nat /\ id plot = plotId n)
  /\ (UseWebR.plotIdCounter s <= UseWebR.plotIdCounter s')%nat.
Proof.
  revert s. induction ops as [|o ops IH]; intros s H; simpl.
  - destruct H as [H1 H2]. auto.
  - destruct (r_perform_freshIds o s H) as [Hf Hle].
    destruct (IH _ Hf) as (A & B & C). simpl in A, B, C.
    split; [exact A|]. split; [exact B | lia].
Qed.

(** X8, on a session: a plot, a clear, two more plots. *)
Lemma r_plot_ids_never_repeat_witness :
  let s := ToyR.ready ToyR.session in
  let s' := UseWebR.performAll
              [UseWebR.RunCode "plot(1:10)"; UseWebR.ClearPlots;
               UseWebR.RunCode "plot(1:10)"; UseWebR.RunCode "plot(1:10)"] s in
  freshIds (UseWebR.plotIdCounter s) (UseWebR.plots s)
  /\ List.map id (UseWebR.plots s') = ["plot-1"; "plot-2"]
  /\ NoDup (List.map id (UseWebR.plots s')).
Proof.
  split; [apply freshIds_nil|]. split; [reflexivity|].
  exact (proj1 (r_plot_ids_never_repeat ToyR.interpreter
                  [UseWebR.RunCode "plot(1:10)"; UseWebR.ClearPlots;
                   UseWebR.RunCode "plot(1:10)"; UseWebR.RunCode "plot(1:10)"]
                  (ToyR.ready ToyR.session) (freshIds_nil 0))).
Defined.

(** X9.  [viewPlotByName] on a name of letters, digits and underscores:
    when the name is bound to a figure whose picture can be rendered, exactly
    one plot is added at the end of the list, with the next identifier and
    the picture as a PNG data URL, and the hook writes no line of its own;
    when the name is not bound or bound to something that is not a figure,
    or the rendering fails, the plots and the counter are as before and one
    error line is the last line of the console.  The table and the
    environment snapshot are never touched. *)
Theorem viewPlotByName_adds_one_plot
    (P : UsePyodide.Interpreter) (x : string) (s : UsePyodide.state) (p : UsePyodide.py) :
  UsePyodide.pyodide s = Some p ->
  Js.nonEmptyOf Js.isWordChar x = true ->
  let ran := UsePyodide.readGlobal x p in
  let s' := UsePyodide.viewPlotByName x s in
  UsePyodide.tableData s' = UsePyodide.tableData s
  /\ UsePyodide.environment s' = UsePyodide.environment s
  /\ (forall value b64,
        UsePyodide.result ran = Resolved (Some value) ->
        UsePyodide.isFigure value = true ->
        UsePyodide.savefig value = Resolved b64 -> b64 <> "" ->
        UsePyodide.plots s'
        = UsePyodide.plots s
          ++ [mkPlot (plotId (UsePyodide.plotIdCounter s))
                     ("data:image/png;base64," ++ b64)%string]
        /\ UsePyodide.plotIdCounter s' = S (UsePyodide.plotIdCounter s)
        /\ UsePyodide.consoleOutput s'
           = UsePyodide.consoleOutput s ++ UsePyodide.shown (UsePyodide.printed ran))
  /\ ((UsePyodide.result ran = Resolved None
       \/ exists value, UsePyodide.result ran = Resolved (Some value)
                        /\ UsePyodide.isFigure value = false) ->
      UsePyodide.plots s' = UsePyodide.plots s
      /\ UsePyodide.plotIdCounter s' = UsePyodide.plotIdCounter s
      /\ UsePyodide.consoleOutput s'
         = UsePyodide.consoleOutput s ++ UsePyodide.shown (UsePyodide.printed ran)
           ++ [mkLine stderr
                 ("Could not view plot object '" ++ x ++ "': "
                  ++ "Object '" ++ x ++ "' is not a Figure or does not exist.")%string])
  /\ (forall value e,
        UsePyodide.result ran = Resolved (Some value) ->
        UsePyodide.isFigure value = true ->
        UsePyodide.savefig value = Rejected e ->
        UsePyodide.plots s' = UsePyodide.plots s
        /\ UsePyodide.plotIdCounter s' = UsePyodide.plotIdCounter s
        /\ UsePyodide.consoleOutput s'
           = UsePyodide.consoleOutput s ++ UsePyodide.shown (UsePyodide.printed ran)
             ++ [mkLine stderr
                   ("Could not view plot object '" ++ x ++ "': " ++ e)%string]).
Proof.
  intros Hp Hx ran s'. subst s'.
  rewrite (py_viewPlotByName_exact x s p Hp Hx). fold ran.
  unfold UsePyodide.plotScript. simpl. fold ran.
  split; [|split; [|split; [|split]]].
  - destruct (UsePyodide.result ran) as [[value|]|e]; [|reflexivity|reflexivity].
    destruct (UsePyodide.isFigure value); [|reflexivity].
    destruct (UsePyodide.savefig value) as [b64|e]; [|reflexivity].
    destruct (String.eqb b64 ""); reflexivity.
  - destruct (UsePyodide.result ran) as [[value|]|e]; [|reflexivity|reflexivity].
    destruct (UsePyodide.isFigure value); [|reflexivity].
    destruct (UsePyodide.savefig value) as [b64|e]; [|reflexivity].
    destruct (String.eqb b64 ""); reflexivity.
  - intros value b64 Hr Hf Hs Hne. rewrite Hr, Hf, Hs.
    apply String.eqb_neq in Hne. rewrite Hne. simpl. auto.
  - intros [Hr | (value & Hr & Hf)]; rewrite Hr; [|rewrite Hf]; simpl;
      rewrite <- app_assoc; auto.
  - intros value e Hr Hf Hs. rewrite Hr, Hf, Hs. simpl. rewrite <- app_assoc. auto.
Qed.

(** X9, on a session holding the figure [fig] and the number [x]. *)
Lemma viewPlotByName_adds_one_plot_witness :
  let s := ToyPython.ready ToyPython.gallery in
  UsePyodide.pyodide s = Some ToyPython.gallery
  /\ Js.nonEmptyOf Js.isWordChar "fig" = true
  /\ UsePyodide.plots (UsePyodide.viewPlotByName "fig" s)
     = [mkPlot "plot-0" "data:image/png;base64,AAAA"]
  /\ UsePyodide.plots (UsePyodide.viewPlotByName "x" s) = [].
Proof.
  split; [reflexivity|]. split; [reflexivity|].
  split.
  - destruct (viewPlotByName_adds_one_plot ToyPython.interpreter "fig"
                (ToyPython.ready ToyPython.gallery) ToyPython.gallery eq_refl eq_refl)
      as (_ & _ & Hfig & _).
    exact (proj1 (Hfig ToyPython.figure "AAAA" eq_refl eq_refl eq_refl ltac:(discriminate))).
  - reflexivity.
Defined.

(** ** Console transcripts *)

Ltac refresh_at q :=
  match goal with
  | |- context [UsePyodide.updateEnvironment ?m] =>
      rewrite (py_updateEnvironment_exact m q eq_refl)
  end.

(** X10.  What a run of the Python hook leaves on the console, when the
    hook is ready and (for a script run) closing the figures succeeds: the
    echoed input, then whatever the interpreter printed while closing the
    figures, while executing the source, while rendering the figures (only
    when the execution succeeded) and while listing the environment, each
    batch in the order printed and empty batches dropped.  The hook writes
    no line of its own: when the execution raises, the error message is on
    the console only as far as the interpreter printed it. *)
Theorem python_run_transcript
    (P : UsePyodide.Interpreter) (code : string) (isInteractive : bool)
    (s : UsePyodide.state) (p : UsePyodide.py) :
  UsePyodide.pyodide s = Some p -> UsePyodide.isLoading s = false ->
  let before := if negb isInteractive then UsePyodide.closeAll p
                else UsePyodide.mkRan _ _ p [] (Resolved tt) in
  let exec := UsePyodide.runUser code (UsePyodide.after before) in
  let drawn := UsePyodide.renderFigures (UsePyodide.after exec) in
  let s' := UsePyodide.runCode code isInteractive s in
  UsePyodide.result before = Resolved tt ->
  (forall e, UsePyodide.result exec = Rejected e ->
     UsePyodide.consoleOutput s'
     = UsePyodide.consoleOutput s ++ [mkLine input code]
       ++ UsePyodide.shown (UsePyodide.printed before)
       ++ UsePyodide.shown (UsePyodide.printed exec)
       ++ UsePyodide.shown
            (UsePyodide.printed (UsePyodide.inspectScope (UsePyodide.after exec))))
  /\ (UsePyodide.result exec = Resolved tt ->
      UsePyodide.consoleOutput s'
      = UsePyodide.consoleOutput s ++ [mkLine input code]
        ++ UsePyodide.shown (UsePyodide.printed before)
        ++ UsePyodide.shown (UsePyodide.printed exec)
        ++ UsePyodide.shown (UsePyodide.printed drawn)
        ++ UsePyodide.shown
             (UsePyodide.printed (UsePyodide.inspectScope (UsePyodide.after drawn))))
  /\ UsePyodide.isEnvLoading s' = false.
Proof.
  intros Hp Hl before exec drawn s' Hb. subst s'.
  unfold UsePyodide.runCode. rewrite Hp, Hl.
  set (s0 := UsePyodide.log input code s).
  assert (Hp0 : UsePyodide.pyodide s0 = Some p) by exact Hp.
  assert (H1 : exists s1,
             (if negb isInteractive then UsePyodide.await UsePyodide.closeAll s0
              else (s0, Resolved tt)) = (s1, Resolved tt)
             /\ UsePyodide.pyodide s1 = Some (UsePyodide.after before)
             /\ UsePyodide.consoleOutput s1
                = UsePyodide.consoleOutput s ++ [mkLine input code]
                  ++ UsePyodide.shown (UsePyodide.printed before)).
  { subst before. destruct isInteractive; simpl in *.
    - exists s0. split; [reflexivity|]. split; [exact Hp|].
      unfold UsePyodide.shown. simpl. reflexivity.
    - rewrite (py_await_exact UsePyodide.closeAll s0 p Hp0), Hb.
      eexists. split; [reflexivity|]. split; [reflexivity|].
      simpl. rewrite <- app_assoc. reflexivity. }
  destruct H1 as (s1 & E1 & P1 & C1).
  unfold UsePyodide.runCodeTry. rewrite E1.
  rewrite (py_await_exact (UsePyodide.runUser code) s1 _ P1). fold exec.
  split; [|split].
  - intros e He. rewrite He.
    refresh_at (UsePyodide.after exec).
    simpl. rewrite C1, <- !app_assoc. reflexivity.
  - intros He. rewrite He.
    match goal with
    | |- context [UsePyodide.await UsePyodide.renderFigures ?m] =>
        rewrite (py_await_exact UsePyodide.renderFigures m (UsePyodide.after exec) eq_refl)
    end.
    fold drawn.
    destruct (UsePyodide.result drawn) as [newPlots|e2].
    + destruct isInteractive.
      * refresh_at (UsePyodide.after drawn).
        simpl. rewrite C1, <- !app_assoc. reflexivity.
      * destruct (0 <? List.length (UsePyodide.plotObjectsFrom _ newPlots))%nat;
          refresh_at (UsePyodide.after drawn);
          simpl; rewrite C1, <- !app_assoc; reflexivity.
    + refresh_at (UsePyodide.after drawn).
      simpl. rewrite C1, <- !app_assoc. reflexivity.
  - destruct (UsePyodide.result exec) as [[]|e].
    + match goal with
      | |- context [UsePyodide.await UsePyodide.renderFigures ?m] =>
          rewrite (py_await_exact UsePyodide.renderFigures m (UsePyodide.after exec) eq_refl)
      end.
      fold drawn.
      destruct (UsePyodide.result drawn) as [newPlots|e2].
      * destruct isInteractive;
          [|destruct (0 <? List.length (UsePyodide.plotObjectsFrom _ newPlots))%nat];
          refresh_at (UsePyodide.after drawn);
          reflexivity.
      * refresh_at (UsePyodide.after drawn).
        reflexivity.
    + refresh_at (UsePyodide.after exec).
      reflexivity.
Qed.

(** X10, on a session: a script that prints and then raises. *)
Lemma python_run_transcript_witness :
  let s := ToyPython.ready ToyPython.session in
  let s' := UsePyodide.runCode
              (program ["print('hello')"; "raise ValueError('boom')"]) false s in
  UsePyodide.pyodide s = Some ToyPython.session
  /\ UsePyodide.isLoading s = false
  /\ UsePyodide.result (@UsePyodide.closeAll ToyPython.interpreter ToyPython.session)
     = Resolved tt
  /\ UsePyodide.consoleOutput s'
     = [ mkLine input (program ["print('hello')"; "raise ValueError('boom')"]);
         mkLine stdout "hello" ].
Proof.
  split; [reflexivity|]. split; [reflexivity|]. split; [reflexivity|].
  destruct (python_run_transcript ToyPython.interpreter
              (program ["print('hello')"; "raise ValueError('boom')"]) false
              (ToyPython.ready ToyPython.session) ToyPython.session
              eq_refl eq_refl eq_refl) as (Hfail & _).
  exact (Hfail "ValueError: boom" eq_refl).
Defined.

(** X11.  What a run of the R hook leaves on the console, when the hook is
    ready.  When the capture succeeds: the echoed input; then one [stdout]
    line holding the data of all captured [stdout] messages joined by line
    breaks, without trailing white space, and left out when that text is
    empty; then one [stderr] line made the same way of the [stderr] messages.
    Messages of the two streams that alternate in the capture are thus
    regrouped, and messages of any other type are dropped.  When the capture
    fails: the echoed input and one [stderr] line with the error message. *)
Theorem r_run_transcript
    (R : UseWebR.Interpreter) (code : string) (s : UseWebR.state) (w : UseWebR.webr) :
  UseWebR.webR s = Some w -> UseWebR.isLoading s = false -> UseWebR.shelter s = true ->
  let ran := UseWebR.captureR (UseWebR.codeToExecute code) w in
  let s' := UseWebR.runCode code s in
  (forall captureResult,
      UseWebR.result ran = Resolved captureResult ->
      UseWebR.consoleOutput s'
      = UseWebR.consoleOutput s ++ [mkLine input code]
        ++ UseWebR.capturedLine stdout "stdout" (UseWebR.output captureResult)
        ++ UseWebR.capturedLine stderr "stderr" (UseWebR.output captureResult))
  /\ (forall e,
        UseWebR.result ran = Rejected e ->
        UseWebR.consoleOutput s'
        = UseWebR.consoleOutput s ++ [mkLine input code; mkLine stderr e]).
Proof.
  intros Hw Hl Hs ran s'.
  destruct (r_runCode_exact code s w Hw Hl Hs) as (_ & _ & H). fold ran s' in H.
  split.
  - intros captureResult Hr. rewrite Hr in H. apply H.
  - intros e Hr. rewrite Hr in H. apply H.
Qed.

(** X11, on a session: a statement that prints. *)
Lemma r_run_transcript_witness :
  let s := ToyR.ready ToyR.session in
  UseWebR.webR s = Some ToyR.session
  /\ UseWebR.isLoading s = false /\ UseWebR.shelter s = true
  /\ UseWebR.consoleOutput (UseWebR.runCode "print('hello')" s)
     = [mkLine input "print('hello')"; mkLine stdout "[1] 'hello'"].
Proof.
  split; [reflexivity|]. split; [reflexivity|]. split; [reflexivity|].
  destruct (r_run_transcript ToyR.interpreter "print('hello')" (ToyR.ready ToyR.session)
              ToyR.session eq_refl eq_refl eq_refl) as (Hok & _).
  exact (Hok (UseWebR.mkCapture [("stdout", "[1] 'hello'")] []) eq_refl).
Defined.

(** X12.  The start-up of the Python hook, from its first render.  It
    always ends with the loading flag off.  When [loadPyodide] fails there is
    no interpreter, [runCode] stays without effect, the environment flag
    stays on, and the console holds the start-up line and the error line.
    When the interpreter loads and the packages do not, the error line is
    the last line and the hook nevertheless accepts [runCode].  When both
    load, the console holds the three start-up lines, between and after them
    what the interpreter printed, and the environment is the one the
    environment script finds. *)
Theorem pyodide_start_up (P : UsePyodide.Interpreter) (L : UsePyodide.Loader) :
  let s' := UsePyodide.initializePyodide L UsePyodide.initial in
  UsePyodide.isLoading s' = false
  /\ (forall e,
        UsePyodide.loadPyodide L = Rejected e ->
        UsePyodide.pyodide s' = None /\ UsePyodide.ready s' = false
        /\ UsePyodide.isEnvLoading s' = true
        /\ UsePyodide.environment s' = ∅
        /\ UsePyodide.consoleOutput s'
           = [ mkLine system "Initializing Pyodide...";
               mkLine stderr ("Failed to initialize Pyodide: " ++ e)%string ])
  /\ (forall p e,
        UsePyodide.loadPyodide L = Resolved p ->
        UsePyodide.result (UsePyodide.loadPackage L p) = Rejected e ->
        UsePyodide.pyodide s' = Some (UsePyodide.after (UsePyodide.loadPackage L p))
        /\ UsePyodide.ready s' = true
        /\ UsePyodide.environment s' = ∅
        /\ UsePyodide.consoleOutput s'
           = [ mkLine system "Initializing Pyodide...";
               mkLine system "Loading packages..." ]
             ++ UsePyodide.shown (UsePyodide.printed (UsePyodide.loadPackage L p))
             ++ [ mkLine stderr ("Failed to initialize Pyodide: " ++ e)%string ])
  /\ (forall p,
        UsePyodide.loadPyodide L = Resolved p ->
        UsePyodide.result (UsePyodide.loadPackage L p) = Resolved tt ->
        let q := UsePyodide.after (UsePyodide.loadPackage L p) in
        UsePyodide.pyodide s' = Some (UsePyodide.after (UsePyodide.inspectScope q))
        /\ UsePyodide.ready s' = true
        /\ UsePyodide.isEnvLoading s' = false
        /\ UsePyodide.environment s' = UsePyodide.refreshedFrom q ∅
        /\ UsePyodide.consoleOutput s'
           = [ mkLine system "Initializing Pyodide...";
               mkLine system "Loading packages..." ]
             ++ UsePyodide.shown (UsePyodide.printed (UsePyodide.loadPackage L p))
             ++ [ mkLine system "Pyodide Initialized. Ready to execute Python code." ]
             ++ UsePyodide.shown (UsePyodide.printed (UsePyodide.inspectScope q))).
Proof.
  intros s'. subst s'. unfold UsePyodide.initializePyodide.
  change (UsePyodide.pyodide UsePyodide.initial) with (@None UsePyodide.py).
  cbv beta iota zeta.
  destruct (UsePyodide.loadPyodide L) as [p|e] eqn:HL.
  - match goal with
    | |- context [UsePyodide.await (UsePyodide.loadPackage L) ?m] =>
        rewrite (py_await_exact (UsePyodide.loadPackage L) m p eq_refl)
    end.
    destruct (UsePyodide.result (UsePyodide.loadPackage L p)) as [[]|e] eqn:HP.
    + refresh_at (UsePyodide.after (UsePyodide.loadPackage L p)).
      split; [reflexivity|]. split; [discriminate|]. split.
      { intros p0 e0 Hp0 He0. inversion Hp0; subst p0. congruence. }
      intros p0 Hp0 _. inversion Hp0; subst p0. simpl.
      repeat split. rewrite <- !app_assoc. reflexivity.
    + split; [reflexivity|]. split; [discriminate|]. split.
      2:{ intros p0 Hp0 He0. inversion Hp0; subst p0. congruence. }
      intros p0 e0 Hp0 He0. inversion Hp0; subst p0. rewrite HP in He0.
      inversion He0; subst e0. simpl. repeat split.
  - split; [reflexivity|]. split; [|split; discriminate].
    intros e0 He0. inversion He0; subst e0. repeat split.
Qed.

Lemma awaitUnheard_exact {R : UseWebR.Interpreter} {A : Type}
    (call : UseWebR.webr -> UseWebR.Ran UseWebR.webr A) (s : UseWebR.state)
    (w : UseWebR.webr) :
  UseWebR.webR s = Some w ->
  UseWebR.awaitUnheard call s
  = (UseWebR.setWebR (Some (UseWebR.after (call w))) s, UseWebR.result (call w)).
Proof. intros Hw. unfold UseWebR.awaitUnheard. rewrite Hw. reflexivity. Qed.

Ltac unheard w :=
  match goal with
  | |- context [UseWebR.awaitUnheard ?call ?m] =>
      rewrite (awaitUnheard_exact call m w eq_refl)
  end.

(** X13.  The start-up of the R hook, from its first render.  It always
    ends with the loading flag off.  [runCode] is accepted afterwards exactly
    when [new WebR()], [init()] and the creation of the shelter succeeded,
    whether or not the later steps did.  When one of the five steps fails the
    last line of the console is the error line; when all succeed the console
    holds the three start-up lines and the environment is the one the
    environment script reports. *)
Theorem webr_start_up (R : UseWebR.Interpreter) (L : UseWebR.Loader) :
  let s' := UseWebR.initializeWebR L UseWebR.initial in
  UseWebR.isLoading s' = false
  /\ (UseWebR.ready s' = true <->
      exists w, UseWebR.newWebR L = Resolved w
                /\ UseWebR.result (UseWebR.init L w) = Resolved tt
                /\ UseWebR.result (UseWebR.newShelter L (UseWebR.after (UseWebR.init L w)))
                   = Resolved tt)
  /\ (forall w,
        UseWebR.newWebR L = Resolved w ->
        let w1 := UseWebR.after (UseWebR.init L w) in
        let w2 := UseWebR.after (UseWebR.newShelter L w1) in
        let w3 := UseWebR.after (UseWebR.evalRVoid L "webr::shim_install()" w2) in
        let w4 := UseWebR.after
                    (UseWebR.evalRVoid L "webr::canvas(width = 600, height = 500)" w3) in
        UseWebR.result (UseWebR.init L w) = Resolved tt ->
        UseWebR.result (UseWebR.newShelter L w1) = Resolved tt ->
        UseWebR.result (UseWebR.evalRVoid L "webr::shim_install()" w2) = Resolved tt ->
        UseWebR.result (UseWebR.evalRVoid L "webr::canvas(width = 600, height = 500)" w3)
        = Resolved tt ->
        UseWebR.consoleOutput s'
        = [ mkLine system "Initializing WebR...";
            mkLine system "Setting up communication channels...";
            mkLine system "WebR Initialized. Ready to execute R code." ]
        /\ UseWebR.environment s' = UseWebR.refreshedFrom w4 UseWebR.emptyDict)
  /\ ((UseWebR.consoleOutput s'
       = [ mkLine system "Initializing WebR...";
           mkLine system "Setting up communication channels...";
           mkLine system "WebR Initialized. Ready to execute R code." ])
      \/ exists before e,
           UseWebR.consoleOutput s'
           = before ++ [mkLine stderr ("Failed to initialize WebR: " ++ e)%string]
           /\ UseWebR.environment s' = UseWebR.emptyDict).
Proof.
  intros s'. subst s'. unfold UseWebR.initializeWebR.
  change (UseWebR.webR UseWebR.initial) with (@None UseWebR.webr).
  cbv beta iota zeta.
  destruct (UseWebR.newWebR L) as [w|e] eqn:HN.
  2:{ split; [reflexivity|]. split; [|split; [discriminate|]].
      - split; [discriminate | intros (w & Hw & _); discriminate].
      - right. exists [], e. split; reflexivity. }
  unheard w.
  destruct (UseWebR.result (UseWebR.init L w)) as [[]|e] eqn:H1.
  2:{ split; [reflexivity|]. split; [|split].
      - split; [discriminate|].
        intros (w0 & Hw & Hi & _). inversion Hw; subst w0. congruence.
      - intros w0 Hw. inversion Hw; subst w0. congruence.
      - right. eexists [_], e. split; reflexivity. }
  unheard (UseWebR.after (UseWebR.init L w)).
  destruct (UseWebR.result (UseWebR.newShelter L (UseWebR.after (UseWebR.init L w))))
    as [[]|e] eqn:H2.
  2:{ split; [reflexivity|]. split; [|split].
      - split; [discriminate|].
        intros (w0 & Hw & _ & Hsh). inversion Hw; subst w0. congruence.
      - intros w0 Hw. inversion Hw; subst w0. congruence.
      - right. eexists [_], e. split; reflexivity. }
  unheard (UseWebR.after (UseWebR.newShelter L (UseWebR.after (UseWebR.init L w)))).
  match goal with
  | |- context [UseWebR.result (UseWebR.evalRVoid L "webr::shim_install()" ?x)] =>
      destruct (UseWebR.result (UseWebR.evalRVoid L "webr::shim_install()" x))
        as [[]|e] eqn:H3
  end.
  2:{ split; [reflexivity|]. split; [|split].
      - split; [intros _; exists w; auto | reflexivity].
      - intros w0 Hw. inversion Hw; subst w0. congruence.
      - right. eexists [_; _], e. split; reflexivity. }
  match goal with
  | |- context [UseWebR.awaitUnheard ?call ?m] =>
      rewrite (awaitUnheard_exact call m _ eq_refl)
  end.
  match goal with
  | |- context [UseWebR.result
                  (UseWebR.evalRVoid L "webr::canvas(width = 600, height = 500)" ?x)] =>
      destruct (UseWebR.result
                  (UseWebR.evalRVoid L "webr::canvas(width = 600, height = 500)" x))
        as [[]|e] eqn:H4
  end.
  2:{ split; [reflexivity|]. split; [|split].
      - split; [intros _; exists w; auto | reflexivity].
      - intros w0 Hw. inversion Hw; subst w0. congruence.
      - right. eexists [_; _], e. split; reflexivity. }
  match goal with
  | |- context [UseWebR.updateEnvironment ?m] => set (mid := m)
  end.
  destruct (r_updateEnvironment_spec mid _ eq_refl) as ((U1 & U2 & U3 & U4 & U5) & UW & UE).
  rewrite U1, U4. unfold UseWebR.ready. rewrite UW, U4, U5. simpl.
  split; [reflexivity|]. split; [|split].
  - split; [intros _; exists w; auto | reflexivity].
  - intros w0 Hw. inversion Hw; subst w0. intros _ _ _ _.
    split; [reflexivity|]. rewrite UE. reflexivity.
  - left. reflexivity.
Qed.

(** ** Before the interpreters are ready *)

(** X14.  Until the Python hook is ready (no interpreter, or still
    loading) [runCode] does nothing at all: no echo, no call.  As long as
    there is no interpreter, whatever operations are performed: there is
    still no interpreter, the environment and the plot counter are as they
    were, the plots and the table can only be cleared, every line that
    appears on the console is an error line, and [viewObjectByName] answers
    any name, well-formed or not, with the invalid-name error. *)
Theorem python_hook_before_it_is_ready (P : UsePyodide.Interpreter) :
  (forall code isInteractive s,
      UsePyodide.ready s = false -> UsePyodide.runCode code isInteractive s = s)
  /\ (forall ops s,
        UsePyodide.pyodide s = None ->
        let s' := UsePyodide.performAll ops s in
        UsePyodide.pyodide s' = None
        /\ UsePyodide.environment s' = UsePyodide.environment s
        /\ UsePyodide.plotIdCounter s' = UsePyodide.plotIdCounter s
        /\ (UsePyodide.plots s' = UsePyodide.plots s \/ UsePyodide.plots s' = [])
        /\ (UsePyodide.tableData s' = UsePyodide.tableData s
            \/ UsePyodide.tableData s' = None)
        /\ Forall (fun line => In line (UsePyodide.consoleOutput s) \/ type line = stderr)
             (UsePyodide.consoleOutput s')
        /\ forall x,
             UsePyodide.viewObjectByName x s'
             = UsePyodide.log stderr ("Error: Invalid object name for viewer: " ++ x)%string s').
Proof.
  split.
  - intros code isInteractive s Hr. unfold UsePyodide.ready in Hr.
    unfold UsePyodide.runCode.
    destruct (UsePyodide.pyodide s); [|reflexivity].
    apply negb_false_iff in Hr. rewrite Hr. reflexivity.
  - intros ops.
    assert (H : forall (s0 s : UsePyodide.state),
               UsePyodide.pyodide s = None ->
               UsePyodide.environment s = UsePyodide.environment s0 ->
               UsePyodide.plotIdCounter s = UsePyodide.plotIdCounter s0 ->
               (UsePyodide.plots s = UsePyodide.plots s0 \/ UsePyodide.plots s = []) ->
               (UsePyodide.tableData s = UsePyodide.tableData s0
                \/ UsePyodide.tableData s = None) ->
               Forall (fun line => In line (UsePyodide.consoleOutput s0) \/ type line = stderr)
                 (UsePyodide.consoleOutput s) ->
               let s' := UsePyodide.performAll ops s in
               UsePyodide.pyodide s' = None
               /\ UsePyodide.environment s' = UsePyodide.environment s0
               /\ UsePyodide.plotIdCounter s' = UsePyodide.plotIdCounter s0
               /\ (UsePyodide.plots s' = UsePyodide.plots s0 \/ UsePyodide.plots s' = [])
               /\ (UsePyodide.tableData s' = UsePyodide.tableData s0
                   \/ UsePyodide.tableData s' = None)
               /\ Forall (fun line => In line (UsePyodide.consoleOutput s0)
                                      \/ type line = stderr)
                    (UsePyodide.consoleOutput s')).
    { induction ops as [|o ops IH]; intros s0 s Hp He Hc Hpl Ht Hf; simpl; [auto 10|].
      apply IH; destruct o; simpl;
        unfold UsePyodide.runCode, UsePyodide.viewObjectByName, UsePyodide.viewPlotByName;
        rewrite ?Hp; simpl; auto;
        try (apply Forall_app; split; [exact Hf | constructor; [right; reflexivity | constructor]]). }
    intros s Hp s'.
    destruct (H s s Hp eq_refl eq_refl (or_introl eq_refl) (or_introl eq_refl))
      as (A & B & C & D & E & F).
    { apply List.Forall_forall. intros line Hin. left. exact Hin. }
    fold s' in A, B, C, D, E, F.
    repeat (split; [assumption|]).
    intros x. unfold UsePyodide.viewObjectByName. rewrite A. reflexivity.
Qed.

(** X15.  Until the R hook is ready (no interpreter, still loading, or no
    shelter) [runCode] does nothing at all.  As long as the hook is not
    ready, whatever operations are performed: it is still not ready, the
    environment, the packages, the stored data frames and the plot counter
    are as they were, the plots can only be cleared, and every line that
    appears on the console is an error line. *)
Theorem r_hook_before_it_is_ready (R : UseWebR.Interpreter) :
  (forall code s, UseWebR.ready s = false -> UseWebR.runCode code s = s)
  /\ (forall ops s,
        UseWebR.ready s = false ->
        let s' := UseWebR.performAll ops s in
        UseWebR.ready s' = false
        /\ UseWebR.environment s' = UseWebR.environment s
        /\ UseWebR.packages s' = UseWebR.packages s
        /\ UseWebR.viewableDataFrames s' = UseWebR.viewableDataFrames s
        /\ UseWebR.plotIdCounter s' = UseWebR.plotIdCounter s
        /\ (UseWebR.plots s' = UseWebR.plots s \/ UseWebR.plots s' = [])
        /\ Forall (fun line => In line (UseWebR.consoleOutput s) \/ type line = stderr)
             (UseWebR.consoleOutput s')).
Proof.
  assert (Hrun : forall code s, UseWebR.ready s = false -> UseWebR.runCode code s = s).
  { intros code s Hr. unfold UseWebR.ready in Hr. unfold UseWebR.runCode.
    destruct (UseWebR.webR s); [|reflexivity].
    destruct (UseWebR.isLoading s); [reflexivity|].
    destruct (UseWebR.shelter s); [discriminate | reflexivity]. }
  split; [exact Hrun|].
  intros ops.
  assert (H : forall (s0 s : UseWebR.state),
             UseWebR.ready s = false ->
             UseWebR.environment s = UseWebR.environment s0 ->
             UseWebR.packages s = UseWebR.packages s0 ->
             UseWebR.viewableDataFrames s = UseWebR.viewableDataFrames s0 ->
             UseWebR.plotIdCounter s = UseWebR.plotIdCounter s0 ->
             (UseWebR.plots s = UseWebR.plots s0 \/ UseWebR.plots s = []) ->
             Forall (fun line => In line (UseWebR.consoleOutput s0) \/ type line = stderr)
               (UseWebR.consoleOutput s) ->
             let s' := UseWebR.performAll ops s in
             UseWebR.ready s' = false
             /\ UseWebR.environment s' = UseWebR.environment s0
             /\ UseWebR.packages s' = UseWebR.packages s0
             /\ UseWebR.viewableDataFrames s' = UseWebR.viewableDataFrames s0
             /\ UseWebR.plotIdCounter s' = UseWebR.plotIdCounter s0
             /\ (UseWebR.plots s' = UseWebR.plots s0 \/ UseWebR.plots s' = [])
             /\ Forall (fun line => In line (UseWebR.consoleOutput s0)
                                    \/ type line = stderr)
                  (UseWebR.consoleOutput s')).
  { induction ops as [|o ops IH]; intros s0 s Hr He Hk Hv Hc Hpl Hf; simpl; [auto 10|].
    apply IH; destruct o; simpl; rewrite ?(Hrun code s Hr); auto;
      unfold UseWebR.viewObjectByName;
      try (destruct (negb _); [|destruct (UseWebR.find x (UseWebR.viewableDataFrames s))]);
      simpl; auto;
      try (apply Forall_app; split; [exact Hf | constructor; [right; reflexivity | constructor]]). }
  intros s Hr s'.
  apply (H s s Hr eq_refl eq_refl eq_refl eq_refl (or_introl eq_refl)).
  apply List.Forall_forall. intros line Hin. left. exact Hin.
Qed.

(** X16.  The console of the Python panel hands the input to [runCode] as
    typed, white space at the ends included, unless it holds white space
    only, in which case [Enter] does nothing.  It passes no options, so the
    command runs as a script: all figures are closed before it is executed
    and the figures open afterwards are added to the plots, which are never
    replaced; the interactive mode of the hook is not used by the panel. *)
Theorem python_console_runs_scripts
    (P : UsePyodide.Interpreter) (inputValue : string)
    (s : UsePyodide.state) (p : UsePyodide.py) :
  UsePyodide.pyodide s = Some p -> UsePyodide.isLoading s = false ->
  let pressed := PythonConsolePanel.press PythonConsolePanel.Enter inputValue s in
  let exec := UsePyodide.runUser inputValue
                (UsePyodide.after (UsePyodide.closeAll p)) in
  let drawn := UsePyodide.renderFigures (UsePyodide.after exec) in
  (Js.allChars Js.isWhiteSpace inputValue = true -> pressed = (inputValue, s))
  /\ (Js.allChars Js.isWhiteSpace inputValue = false ->
      fst pressed = ""
      /\ (exists more,
            UsePyodide.consoleOutput (snd pressed)
            = UsePyodide.consoleOutput s ++ mkLine input inputValue :: more)
      /\ forall newPlots,
           UsePyodide.result (UsePyodide.closeAll p) = Resolved tt ->
           UsePyodide.result exec = Resolved tt ->
           UsePyodide.result drawn = Resolved newPlots ->
           UsePyodide.plots (snd pressed)
           = UsePyodide.plots s
             ++ UsePyodide.plotObjectsFrom (UsePyodide.plotIdCounter s) newPlots).
Proof.
  intros Hp Hl pressed exec drawn. subst pressed.
  unfold PythonConsolePanel.press, PythonConsolePanel.handleKeyDown.
  split.
  - intros Hb. apply trim_empty_iff in Hb. rewrite Hb. reflexivity.
  - intros Hb.
    assert (E : String.eqb (Js.trim inputValue) "" = false).
    { apply String.eqb_neq. intros H. apply trim_empty_iff in H. congruence. }
    rewrite E. simpl. split; [reflexivity|].
    destruct (py_runCode_spec inputValue false s p Hp Hl) as (_ & _ & Hc & q & _ & _ & H).
    split; [exact Hc|].
    intros newPlots Hb0 Hx Hd. simpl in H. fold exec drawn in H.
    rewrite Hb0, Hx, Hd in H. apply H.
Qed.

(** X16, on a session: a command that opens a figure, and a blank input. *)
Lemma python_console_runs_scripts_witness :
  let s := ToyPython.ready ToyPython.session in
  let pressed := PythonConsolePanel.press PythonConsolePanel.Enter "plt.figure(1)" s in
  UsePyodide.pyodide s = Some ToyPython.session
  /\ UsePyodide.isLoading s = false
  /\ fst pressed = ""
  /\ PythonConsolePanel.press PythonConsolePanel.Enter "   " s = ("   ", s).
Proof.
  split; [reflexivity|]. split; [reflexivity|].
  destruct (python_console_runs_scripts ToyPython.interpreter "plt.figure(1)"
              (ToyPython.ready ToyPython.session) ToyPython.session eq_refl eq_refl)
    as (_ & Hrun).
  split; [exact (proj1 (Hrun eq_refl)) | reflexivity].
Defined.

(** ** Row objects *)

Lemma assoc_replace_same (k : string) (v : Js.value) (fields : list (string * Js.value)) :
  Js.assoc k (Js.replace k v fields) = Some v.
Proof.
  induction fields as [|[k' v'] rest IH]; simpl.
  - rewrite String.eqb_refl. reflexivity.
  - destruct (String.eqb k k') eqn:E; simpl; rewrite ?String.eqb_refl, ?E; auto.
Qed.

Lemma assoc_replace_other (k k' : string) (v : Js.value) (fields : list (string * Js.value)) :
  k' <> k -> Js.assoc k' (Js.replace k v fields) = Js.assoc k' fields.
Proof.
  intros Hne. induction fields as [|[k0 v0] rest IH]; simpl.
  - apply String.eqb_neq in Hne. rewrite Hne. reflexivity.
  - destruct (String.eqb k k0) eqn:E; simpl.
    + apply String.eqb_eq in E. subst k0.
      apply String.eqb_neq in Hne. rewrite Hne. reflexivity.
    + destruct (String.eqb k' k0); [reflexivity | exact IH].
Qed.

(** [o[k] = v] followed by [o[k]]. *)
Lemma get_set_same (k : string) (v : Js.value) (fields : list (string * Js.value)) :
  k <> "__proto__" -> Js.get k (Js.set k v fields) = v.
Proof.
  intros Hk. unfold Js.get, Js.set. apply String.eqb_neq in Hk. rewrite Hk.
  rewrite assoc_replace_same. reflexivity.
Qed.

(** [o[k] = v] followed by [o[k']] for another name. *)
Lemma get_set_other (k k' : string) (v : Js.value) (fields : list (string * Js.value)) :
  k' <> k -> Js.get k' (Js.set k v fields) = Js.get k' fields.
Proof.
  intros Hne. unfold Js.get, Js.set. destruct (String.eqb k "__proto__"); [reflexivity|].
  rewrite assoc_replace_other by exact Hne. reflexivity.
Qed.

Lemma index_nat (items : list Js.value) (i : nat) :
  Js.index items (Z.of_nat i)
  = match nth_error items i with Some v => v | None => Js.Undefined end.
Proof.
  unfold Js.index. destruct (Z.of_nat i <? 0) eqn:E; [apply Z.ltb_lt in E; lia|].
  rewrite Nat2Z.id. reflexivity.
Qed.

(** ** The rows of a Python table *)

Section PythonViewer.
Import UsePyodide.
Context {I : Interpreter}.

(** The viewer script never hands a text back. *)
Lemma viewScript_result (x : string) (p : py) :
  result (viewScript x p) = Resolved None
  \/ exists e, result (viewScript x p) = Rejected e.
Proof.
  unfold viewScript. simpl.
  destruct (result (readGlobal x p)) as [[value|]|e]; eauto.
  destruct (toJson value); eauto.
Qed.

End PythonViewer.

(** X17.  The table viewer of the Python backend never shows a table.  For
    every name and every state, [viewObjectByName] leaves the table, the
    plots and the environment as they were and ends by writing one error
    line on the console.  In particular, for a well-formed name bound to a
    data frame whose [to_json] succeeds, the line says that the object is
    not a DataFrame or does not exist: the viewer script ends in an [if]
    statement, so the text [to_json] returned never reaches the hook. *)
Theorem python_viewer_never_shows_a_table
    (P : UsePyodide.Interpreter) (x : string) (s : UsePyodide.state) :
  let s' := UsePyodide.viewObjectByName x s in
  UsePyodide.tableData s' = UsePyodide.tableData s
  /\ UsePyodide.plots s' = UsePyodide.plots s
  /\ UsePyodide.environment s' = UsePyodide.environment s
  /\ (exists more e,
        UsePyodide.consoleOutput s'
        = UsePyodide.consoleOutput s ++ more ++ [mkLine stderr e])
  /\ (forall p value parsed,
        UsePyodide.pyodide s = Some p ->
        Js.nonEmptyOf Js.isWordChar x = true ->
        UsePyodide.result (UsePyodide.readGlobal x p) = Resolved (Some value) ->
        UsePyodide.toJson value = UsePyodide.ToJsonSplit parsed ->
        UsePyodide.consoleOutput s'
        = UsePyodide.consoleOutput s
          ++ UsePyodide.shown (UsePyodide.printed (UsePyodide.readGlobal x p))
          ++ [mkLine stderr
                ("Could not view object '" ++ x ++ "': "
                 ++ "Object '" ++ x ++ "' is not a DataFrame or does not exist.")%string]).
Proof.
  intros s'. subst s'.
  destruct (UsePyodide.pyodide s) as [p|] eqn:Hp.
  2:{ unfold UsePyodide.viewObjectByName. rewrite Hp. simpl.
      repeat split; try reflexivity.
      - exists [], ("Error: Invalid object name for viewer: " ++ x)%string. reflexivity.
      - intros p value parsed H. discriminate H. }
  destruct (Js.nonEmptyOf Js.isWordChar x) eqn:Hx.
  2:{ unfold UsePyodide.viewObjectByName. rewrite Hp, Hx. simpl.
      repeat split; try reflexivity.
      - exists [], ("Error: Invalid object name for viewer: " ++ x)%string. reflexivity.
      - intros q value parsed _ H. discriminate H. }
  rewrite (py_viewObjectByName_exact x s p Hp Hx).
  destruct (viewScript_result x p) as [E | [e E]]; rewrite E; simpl.
  - repeat split; try reflexivity.
    + eexists. eexists. rewrite <- app_assoc. reflexivity.
    + intros q value parsed Hq _ _ _. inversion Hq; subst q.
      rewrite <- app_assoc. reflexivity.
  - repeat split; try reflexivity.
    + eexists. eexists. rewrite <- app_assoc. reflexivity.
    + intros q value parsed Hq _ Hg Hj. inversion Hq; subst q.
      unfold UsePyodide.viewScript in E. simpl in E. rewrite Hg, Hj in E. discriminate E.
Qed.

(** ** The rows of an R table *)

Section RRows.
Import UseWebR.

(** The cell [rObjectToTable] writes for row [i] of a column. *)
Lemma r_cell (name kind : string) (vs : list Js.value) (i : nat) :
  (if Js.truthy (Js.Str name) && Js.truthy (optValues (rVector kind vs))
      && below (Z.of_nat i) (Js.lengthOf (Js.prop "values" (rVector kind vs)))
   then Js.elem (Js.prop "values" (rVector kind vs)) (Z.of_nat i)
   else Js.Null)
  = if String.eqb name "" then Js.Null
    else match nth_error vs i with Some v => v | None => Js.Null end.
Proof.
  simpl. destruct (String.eqb name ""); simpl; [reflexivity|].
  destruct (Z.of_nat i <? Z.of_nat (List.length vs)) eqn:E.
  - apply Z.ltb_lt in E. rewrite index_nat.
    destruct (nth_error vs i) eqn:En; [reflexivity|].
    apply nth_error_None in En. lia.
  - apply Z.ltb_ge in E.
    assert (En : nth_error vs i = None) by (apply nth_error_None; lia).
    rewrite En. reflexivity.
Qed.

Lemma r_fillRow_untouched (cols : list (string * (string * list Js.value))) :
  forall (i : Z) (j : Z) (values : list Js.value) (row : Row) (key : string),
    ~ In key (List.map fst cols) ->
    Js.get key (fillRow i (List.map (fun c => Js.Str (fst c)) cols) j values row)
    = Js.get key row.
Proof.
  induction cols as [|[name [kind vs]] cols IH]; intros i j values row key Hnot; simpl;
    [reflexivity|].
  rewrite IH by (intros H; apply Hnot; right; exact H).
  apply get_set_other. intros ->. apply Hnot. left. reflexivity.
Qed.

Lemma r_fillRow_get (cols : list (string * (string * list Js.value))) :
  forall (i : nat) (pre : list Js.value) (row : Row) (name kind : string)
         (vs : list Js.value),
    NoDup (List.map fst cols) -> ~ In "__proto__" (List.map fst cols) ->
    In (name, (kind, vs)) cols ->
    Js.get name
      (fillRow (Z.of_nat i) (List.map (fun c => Js.Str (fst c)) cols)
         (Z.of_nat (List.length pre))
         (pre ++ List.map (fun c => rVector (fst (snd c)) (snd (snd c))) cols) row)
    = if String.eqb name "" then Js.Null
      else match nth_error vs i with Some v => v | None => Js.Null end.
Proof.
  induction cols as [|[name0 [kind0 vs0]] cols IH];
    intros i pre row name kind vs Hnd Hp Hin; [contradiction|].
  apply NoDup_cons in Hnd. destruct Hnd as [Hfresh Hnd].
  rewrite list_elem_of_In in Hfresh.
  cbn [List.map fst snd fillRow].
  replace (Z.of_nat (List.length pre) + 1)
    with (Z.of_nat (List.length (pre ++ [rVector kind0 vs0])))
    by (rewrite length_app; simpl; lia).
  replace (pre ++ rVector kind0 vs0
               :: List.map (fun c => rVector (fst (snd c)) (snd (snd c))) cols)
    with ((pre ++ [rVector kind0 vs0])
            ++ List.map (fun c => rVector (fst (snd c)) (snd (snd c))) cols)
    by (rewrite <- app_assoc; reflexivity).
  destruct Hin as [Heq | Hin].
  - inversion Heq; subst name0 kind0 vs0.
    rewrite r_fillRow_untouched by exact Hfresh.
    rewrite <- app_assoc. cbn [List.app]. rewrite index_after.
    rewrite r_cell. cbn [Js.toString].
    apply get_set_same. intros ->. apply Hp. left. reflexivity.
  - apply (IH i _ _ name kind vs Hnd); [|exact Hin].
    intros H. apply Hp. right. exact H.
Qed.

Lemma fillRows_length (count : nat) (i : Z) (cols values : list Js.value) :
  List.length (fillRows count i cols values) = count.
Proof.
  revert i. induction count as [|count IH]; intros i; simpl; [reflexivity|].
  rewrite IH. reflexivity.
Qed.

Lemma fillRows_nth (count : nat) (cols values : list Js.value) :
  forall (i0 i : nat) (row : Row),
    nth_error (fillRows count (Z.of_nat i0) cols values) i = Some row ->
    row = fillRow (Z.of_nat (i0 + i)) cols 0 values [].
Proof.
  induction count as [|count IH]; intros i0 i row Hi.
  - destruct i; discriminate.
  - destruct i as [|i]; simpl in Hi.
    + inversion Hi. rewrite Nat.add_0_r. reflexivity.
    + replace (Z.of_nat i0 + 1) with (Z.of_nat (S i0)) in Hi by lia.
      rewrite (IH (S i0) i row Hi).
      replace (S i0 + i)%nat with (i0 + S i)%nat by lia. reflexivity.
Qed.

(** What [rObjectToTable] makes of a data frame. *)
Lemma rObjectToTable_dataFrame (cols : list (string * (string * list Js.value))) :
  rObjectToTable (dataFrame cols)
  = Some (mkRTable
            (match cols with
             | [] => []
             | (_, (_, vs)) :: _ =>
                 fillRows (List.length vs) 0
                   (List.map (fun c => Js.Str (fst c)) cols)
                   (List.map (fun c => rVector (fst (snd c)) (snd (snd c))) cols)
             end)
            (List.map (fun c => Js.Str (fst c)) cols)).
Proof.
  unfold rObjectToTable, dataFrame, rList.
  destruct cols as [|[name [kind vs]] cols]; [reflexivity|].
  destruct vs as [|v vs]; simpl.
  - rewrite !List.map_map. reflexivity.
  - rewrite Nat2Z.id, !List.map_map. reflexivity.
Qed.

End RRows.

(** X18.  [rObjectToTable] on a data frame whose column names are distinct
    (and none is [__proto__]): the columns are the names in order, there are
    as many rows as the first column has values, and in row [i] the cell of a
    column is the column's [i]-th value; it is [null] when the column has
    fewer values than the first one, and [null] in every row for a column
    whose name is empty.  Values a column has beyond the length of the first
    column are left out. *)
Theorem r_table_cells (cols : list (string * (string * list Js.value))) :
  NoDup (List.map fst cols) ->
  ~ In "__proto__" (List.map fst cols) ->
  exists rows,
    UseWebR.rObjectToTable (UseWebR.dataFrame cols)
    = Some (UseWebR.mkRTable rows (List.map (fun c => Js.Str (fst c)) cols))
    /\ List.length rows = match cols with
                          | [] => 0%nat
                          | (_, (_, vs)) :: _ => List.length vs
                          end
    /\ forall i row name kind vs,
         nth_error rows i = Some row ->
         In (name, (kind, vs)) cols ->
         Js.get name row
         = if String.eqb name "" then Js.Null
           else match nth_error vs i with Some v => v | None => Js.Null end.
Proof.
  intros Hnd Hp. rewrite rObjectToTable_dataFrame.
  eexists. split; [reflexivity|]. split.
  - destruct cols as [|[name [kind vs]] cols]; [reflexivity | apply fillRows_length].
  - intros i row name kind vs Hrow Hin.
    destruct cols as [|[name0 [kind0 vs0]] cols]; [contradiction|].
    apply (fillRows_nth _ _ _ 0 i row) in Hrow. subst row.
    apply (r_fillRow_get _ i [] [] name kind vs Hnd Hp Hin).
Qed.

(** X18, on a frame whose second column is shorter than the first. *)
Lemma r_table_cells_witness :
  let cols := [ ("a", ("double", [Js.Num 1; Js.Num 2]));
                ("b", ("character", [Js.Str "x"])) ] in
  NoDup (List.map fst cols)
  /\ ~ In "__proto__" (List.map fst cols)
  /\ UseWebR.rObjectToTable (UseWebR.dataFrame cols)
     = Some (UseWebR.mkRTable
               [ [("a", Js.Num 1); ("b", Js.Str "x")];
                 [("a", Js.Num 2); ("b", Js.Null)] ]
               [Js.Str "a"; Js.Str "b"])
  /\ exists rows,
       UseWebR.rObjectToTable (UseWebR.dataFrame cols)
       = Some (UseWebR.mkRTable rows [Js.Str "a"; Js.Str "b"])
       /\ List.length rows = 2%nat.
Proof.
  assert (Hnd : NoDup ["a"; "b"]) by (apply (bool_decide_unpack _); vm_compute; exact I).
  assert (Hp : ~ In "__proto__" ["a"; "b"]) by (simpl; intros [H|[H|[]]]; discriminate).
  split; [exact Hnd|]. split; [exact Hp|]. split; [reflexivity|].
  destruct (r_table_cells [ ("a", ("double", [Js.Num 1; Js.Num 2]));
                            ("b", ("character", [Js.Str "x"])) ] Hnd Hp)
    as (rows & Ht & Hlen & _).
  exists rows. split; [exact Ht | exact Hlen].
Defined.

Section RStore.
Import UseWebR.
Context {I : Interpreter}.

Lemma readDataFrames_proto (entries : list (string * Js.value)) :
  forall (pre : list Js.value) (acc : Dict Table),
    ~ In "__proto__" (List.map fst entries) ->
    proto (readDataFrames (List.map (fun e => Js.Str (fst e)) entries)
                          (Z.of_nat (List.length pre))
                          (pre ++ List.map snd entries) acc)
    = proto acc.
Proof.
  induction entries as [|[k v] entries IH]; intros pre acc Hnot; simpl; [reflexivity|].
  replace (Z.of_nat (List.length pre) + 1) with (Z.of_nat (List.length (pre ++ [v])))
    by (rewrite length_app; simpl; lia).
  replace (pre ++ v :: List.map snd entries) with ((pre ++ [v]) ++ List.map snd entries)
    by (rewrite <- app_assoc; reflexivity).
  rewrite IH by (intros H; apply Hnot; right; exact H).
  destruct (rObjectToTable _); [|reflexivity].
  unfold assign.
  assert (E : String.eqb k "__proto__" = false).
  { apply String.eqb_neq. intros ->. apply Hnot. left. reflexivity. }
  rewrite E. reflexivity.
Qed.

Lemma readPackages_untouched (pkgs : list (string * string)) :
  forall (pre : list Js.value) (acc : Dict string) (key : string),
    ~ In key (List.map fst pkgs) ->
    own (readPackages (List.map (fun p => Js.Str (fst p)) pkgs)
                      (Z.of_nat (List.length pre))
                      (pre ++ List.map (fun p => rVector "character" [Js.Str (snd p)]) pkgs)
                      acc) !! key
    = own acc !! key.
Proof.
  induction pkgs as [|[k v] pkgs IH]; intros pre acc key Hnot; simpl; [reflexivity|].
  assert (Hk : k <> key) by (intros ->; apply Hnot; left; reflexivity).
  replace (Z.of_nat (List.length pre) + 1)
    with (Z.of_nat (List.length (pre ++ [rVector "character" [Js.Str v]])))
    by (rewrite length_app; simpl; lia).
  replace (pre ++ rVector "character" [Js.Str v]
               :: List.map (fun p => rVector "character" [Js.Str (snd p)]) pkgs)
    with ((pre ++ [rVector "character" [Js.Str v]])
            ++ List.map (fun p => rVector "character" [Js.Str (snd p)]) pkgs)
    by (rewrite <- app_assoc; reflexivity).
  rewrite IH by (intros H; apply Hnot; right; exact H).
  destruct (String.eqb k "") eqn:Ek; [reflexivity|].
  destruct (hasValues _); [|reflexivity].
  destruct (Js.index _ 0); try reflexivity.
  unfold assignPrimitive. destruct (String.eqb k "__proto__" && _); simpl; [reflexivity|].
  apply lookup_insert_ne. exact Hk.
Qed.

Lemma readPackages_proto (pkgs : list (string * string)) :
  forall (pre : list Js.value) (acc : Dict string),
    proto (readPackages (List.map (fun p => Js.Str (fst p)) pkgs)
                        (Z.of_nat (List.length pre))
                        (pre ++ List.map (fun p => rVector "character" [Js.Str (snd p)]) pkgs)
                        acc)
    = proto acc.
Proof.
  induction pkgs as [|[k v] pkgs IH]; intros pre acc; simpl; [reflexivity|].
  replace (Z.of_nat (List.length pre) + 1)
    with (Z.of_nat (List.length (pre ++ [rVector "character" [Js.Str v]])))
    by (rewrite length_app; simpl; lia).
  replace (pre ++ rVector "character" [Js.Str v]
               :: List.map (fun p => rVector "character" [Js.Str (snd p)]) pkgs)
    with ((pre ++ [rVector "character" [Js.Str v]])
            ++ List.map (fun p => rVector "character" [Js.Str (snd p)]) pkgs)
    by (rewrite <- app_assoc; reflexivity).
  rewrite IH.
  destruct (String.eqb k "") eqn:Ek; [reflexivity|].
  destruct (hasValues _); [|reflexivity].
  destruct (Js.index _ 0); try reflexivity.
  unfold assignPrimitive. destruct (String.eqb k "__proto__" && _); reflexivity.
Qed.

Lemma readPackages_stores (pkgs : list (string * string)) :
  forall (pre : list Js.value) (acc : Dict string) (key version : string),
    NoDup (List.map fst pkgs) ->
    In (key, version) pkgs ->
    key <> "" -> key <> "__proto__" ->
    own (readPackages (List.map (fun p => Js.Str (fst p)) pkgs)
                      (Z.of_nat (List.length pre))
                      (pre ++ List.map (fun p => rVector "character" [Js.Str (snd p)]) pkgs)
                      acc) !! key
    = Some version.
Proof.
  induction pkgs as [|[k v] pkgs IH];
    intros pre acc key version Hnd Hin Hne Hnp; simpl in *; [contradiction|].
  apply NoDup_cons in Hnd. destruct Hnd as [Hfresh Hnd].
  replace (Z.of_nat (List.length pre) + 1)
    with (Z.of_nat (List.length (pre ++ [rVector "character" [Js.Str v]])))
    by (rewrite length_app; simpl; lia).
  replace (pre ++ rVector "character" [Js.Str v]
               :: List.map (fun p => rVector "character" [Js.Str (snd p)]) pkgs)
    with ((pre ++ [rVector "character" [Js.Str v]])
            ++ List.map (fun p => rVector "character" [Js.Str (snd p)]) pkgs)
    by (rewrite <- app_assoc; reflexivity).
  destruct Hin as [Heq | Hin].
  - inversion Heq; subst k v.
    rewrite readPackages_untouched by (rewrite <- list_elem_of_In; exact Hfresh).
    rewrite <- app_assoc. simpl. rewrite index_after.
    apply String.eqb_neq in Hne. rewrite Hne. simpl.
    unfold assignPrimitive. apply String.eqb_neq in Hnp. rewrite Hnp. simpl.
    apply lookup_insert_eq.
  - apply IH; assumption.
Qed.

(** The [view] messages of an awaited call touch neither the packages nor
    the environment. *)
Lemma r_await_packages {A : Type} (call : webr -> Ran webr A) (s : state) :
  packages (fst (await call s)) = packages s.
Proof.
  unfold await. destruct (webR s) as [w|]; [|reflexivity]. simpl.
  assert (H : forall msgs t,
             packages (List.fold_left (fun acc m => handleViewCallback m acc) msgs t)
             = packages t).
  { induction msgs as [|m msgs IH]; intros t; simpl; [reflexivity|].
    rewrite IH. unfold handleViewCallback.
    destruct (viewData m) as [d|e]; [destruct (rObjectToTable d)|]; reflexivity. }
  rewrite H. reflexivity.
Qed.

(** What [updateEnvironment] stores for a report of the three sections. *)
Lemma r_updateEnvironment_sections (s : state) (w : webr) (v : Js.value) :
  webR s = Some w ->
  result (inspect w) = Resolved v ->
  isRList v = true ->
  let names := Js.elements (Js.prop "names" v) in
  let values := Js.elements (Js.prop "values" v) in
  let s' := updateEnvironment s in
  environment s' = envSection names values (environment s)
  /\ packages s' = packagesSection names values (packages s)
  /\ viewableDataFrames s'
     = dataframesSection names values (viewableDataFrames (fst (await inspect s)))
  /\ consoleOutput s' = consoleOutput s
  /\ (tableData s' = tableData (fst (await inspect s))).
Proof.
  intros Hw Hr Hv names values s'. subst s'. unfold updateEnvironment. rewrite Hw.
  pose proof (r_await_packages inspect s) as Hpk.
  destruct (r_await_spec inspect s w Hw) as ((K1 & _) & _ & E & R).
  destruct (await inspect s) as [s1 resultJs]. simpl in *. subst resultJs.
  rewrite Hr. unfold readResult. rewrite Hv. simpl.
  fold names values. rewrite E, Hpk. auto.
Qed.

End RStore.

(** ** The stores of the R hook *)

(** X19.  A [view] message whose data converts to a table shows that table
    under its title and stores it: [viewObjectByName] with the title (when
    the title is made of letters, digits, underscores and dots) then finds
    the same table and writes nothing, and the tables stored before are
    still found under their own names.  The console, the plots, the
    environment and the packages are left alone.  A message whose data
    cannot be read, or is not a list of columns, changes nothing. *)
Theorem view_message_stores_the_table
    (R : UseWebR.Interpreter) (m : UseWebR.ViewMessage) (s : UseWebR.state) :
  let s1 := UseWebR.handleViewCallback m s in
  (forall dataObj table,
      UseWebR.viewData m = Resolved dataObj ->
      UseWebR.rObjectToTable dataObj = Some table ->
      UseWebR.tableData s1 = Some (UseWebR.tableOf (UseWebR.viewTitle m) table)
      /\ UseWebR.find (UseWebR.viewTitle m) (UseWebR.viewableDataFrames s1)
         = UseWebR.FoundTable table
      /\ (Js.nonEmptyOf (fun c => Js.isWordChar c || Ascii.eqb c "."%char)
            (UseWebR.viewTitle m) = true ->
          UseWebR.viewObjectByName (UseWebR.viewTitle m) s1 = s1)
      /\ (forall k t,
            UseWebR.own (UseWebR.viewableDataFrames s) !! k = Some t ->
            k <> UseWebR.viewTitle m ->
            UseWebR.find k (UseWebR.viewableDataFrames s1) = UseWebR.FoundTable t)
      /\ UseWebR.consoleOutput s1 = UseWebR.consoleOutput s
      /\ UseWebR.plots s1 = UseWebR.plots s
      /\ UseWebR.environment s1 = UseWebR.environment s
      /\ UseWebR.packages s1 = UseWebR.packages s)
  /\ ((forall dataObj, UseWebR.viewData m = Resolved dataObj ->
                       UseWebR.rObjectToTable dataObj = None) ->
      s1 = s).
Proof.
  intros s1. subst s1. unfold UseWebR.handleViewCallback. split.
  - intros dataObj table Hd Ht. rewrite Hd, Ht. simpl.
    assert (Hfind : UseWebR.find (UseWebR.viewTitle m)
                      (UseWebR.spreadWith (UseWebR.viewTitle m) table
                         (UseWebR.viewableDataFrames s))
                    = UseWebR.FoundTable table).
    { unfold UseWebR.find, UseWebR.spreadWith. simpl.
      rewrite lookup_insert_eq. reflexivity. }
    split; [reflexivity|]. split; [exact Hfind|]. split; [|split].
    + intros Hx. unfold UseWebR.viewObjectByName. rewrite Hx. simpl.
      rewrite Hfind. reflexivity.
    + intros k t Hk Hne. unfold UseWebR.find, UseWebR.spreadWith. simpl.
      rewrite lookup_insert_ne by congruence. rewrite Hk. reflexivity.
    + repeat split.
  - intros Hnone. destruct (UseWebR.viewData m) as [dataObj|e]; [|reflexivity].
    rewrite (Hnone dataObj eq_refl). reflexivity.
Qed.

(** X20.  After a refresh from a report whose [dataframes] section lists
    frames under distinct names, none of them [__proto__]:
    [viewObjectByName] shows, for every listed name made of letters, digits,
    underscores and dots whose frame converts to a table, exactly that
    table, and writes nothing on the console; for a name of that form that
    is not listed and is not a name every object inherits, it leaves the
    table alone and writes the not-found error.  So a data frame that is no
    longer reported can no longer be opened. *)
Theorem r_view_opens_the_reported_frames
    (R : UseWebR.Interpreter) (s : UseWebR.state) (w : UseWebR.webr)
    (envJs packagesJs : Js.value) (frames : list (string * Js.value)) :
  UseWebR.webR s = Some w ->
  UseWebR.result (UseWebR.inspect w)
  = Resolved (UseWebR.rList [("env", envJs); ("packages", packagesJs);
                             ("dataframes", UseWebR.rList frames)]) ->
  NoDup (List.map fst frames) ->
  ~ In "__proto__" (List.map fst frames) ->
  let s1 := UseWebR.updateEnvironment s in
  (forall key frame table,
      In (key, frame) frames ->
      UseWebR.rObjectToTable frame = Some table ->
      Js.nonEmptyOf (fun c => Js.isWordChar c || Ascii.eqb c "."%char) key = true ->
      UseWebR.viewObjectByName key s1
      = UseWebR.setTableData (Some (UseWebR.tableOf key table)) s1)
  /\ (forall key,
        ~ In key (List.map fst frames) ->
        Js.inherited key = None ->
        Js.nonEmptyOf (fun c => Js.isWordChar c || Ascii.eqb c "."%char) key = true ->
        UseWebR.viewObjectByName key s1
        = UseWebR.log stderr
            ("Data for object '" ++ key
             ++ "' not found. It might not be a data.frame or is not in the global environment.")%string
            s1).
Proof.
  intros Hw Hr Hnd Hproto s1.
  destruct (r_updateEnvironment_sections s w _ Hw Hr eq_refl) as (_ & _ & Hv & _).
  fold s1 in Hv.
  assert (Hframes : UseWebR.viewableDataFrames s1
                    = UseWebR.readDataFrames
                        (List.map (fun e => Js.Str (fst e)) frames)
                        (Z.of_nat (List.length (@nil Js.value)))
                        ([] ++ List.map snd frames) UseWebR.emptyDict).
  { rewrite Hv. reflexivity. }
  split.
  - intros key frame table Hin Ht Hx.
    unfold UseWebR.viewObjectByName. rewrite Hx. simpl.
    assert (Hne : key <> "__proto__").
    { intros ->. apply Hproto. apply in_map_iff. exists ("__proto__", frame). auto. }
    unfold UseWebR.find. rewrite Hframes.
    rewrite (readDataFrames_stores frames [] UseWebR.emptyDict key frame table Hnd Hin Ht Hne).
    reflexivity.
  - intros key Hnot Hinh Hx.
    unfold UseWebR.viewObjectByName. rewrite Hx. simpl.
    unfold UseWebR.find. rewrite Hframes.
    rewrite (readDataFrames_untouched frames [] UseWebR.emptyDict key Hnot).
    rewrite (readDataFrames_proto frames [] UseWebR.emptyDict Hproto).
    simpl. unfold UseWebR.fromObjectPrototype. rewrite Hinh. reflexivity.
Qed.

(** X20, on the session holding the data frame [df]. *)
Lemma r_view_opens_the_reported_frames_witness :
  let s := ToyR.ready ToyR.session in
  let s1 := UseWebR.updateEnvironment s in
  UseWebR.webR s = Some ToyR.session
  /\ NoDup ["df"] /\ ~ In "__proto__" ["df"]
  /\ UseWebR.consoleOutput (UseWebR.viewObjectByName "df" s1) = []
  /\ UseWebR.consoleOutput (UseWebR.viewObjectByName "gone" s1)
     = [mkLine stderr
          "Data for object 'gone' not found. It might not be a data.frame or is not in the global environment."].
Proof.
  assert (Hnd : NoDup ["df"]) by (apply (bool_decide_unpack _); vm_compute; exact I).
  assert (Hp : ~ In "__proto__" ["df"]) by (simpl; intros [H|[]]; discriminate).
  split; [reflexivity|]. split; [exact Hnd|]. split; [exact Hp|].
  destruct (r_view_opens_the_reported_frames ToyR.interpreter (ToyR.ready ToyR.session)
              ToyR.session _ _ [("df", ToyR.frame)] eq_refl eq_refl Hnd Hp)
    as (Hfound & Hmissing).
  split.
  - rewrite (Hfound "df" ToyR.frame _ ltac:(left; reflexivity) eq_refl eq_refl).
    reflexivity.
  - rewrite (Hmissing "gone" ltac:(simpl; intros [H|[]]; discriminate) eq_refl eq_refl).
    reflexivity.
Defined.

(** X21.  After a refresh from a report whose [packages] section lists one
    version string under each of its (distinct) names, the package snapshot
    holds exactly that list: each listed name other than the empty name and
    [__proto__] with its version, and no other name. *)
Theorem r_packages_are_the_reported_ones
    (R : UseWebR.Interpreter) (s : UseWebR.state) (w : UseWebR.webr)
    (envJs dataframesJs : Js.value) (pkgs : list (string * string)) :
  UseWebR.webR s = Some w ->
  UseWebR.result (UseWebR.inspect w)
  = Resolved (UseWebR.rList [("env", envJs); ("packages", UseWebR.packageList pkgs);
                             ("dataframes", dataframesJs)]) ->
  NoDup (List.map fst pkgs) ->
  let s' := UseWebR.updateEnvironment s in
  (forall name version,
      In (name, version) pkgs -> name <> "" -> name <> "__proto__" ->
      UseWebR.own (UseWebR.packages s') !! name = Some version)
  /\ (forall name,
        ~ In name (List.map fst pkgs) ->
        UseWebR.own (UseWebR.packages s') !! name = None)
  /\ UseWebR.proto (UseWebR.packages s') = None.
Proof.
  intros Hw Hr Hnd s'.
  destruct (r_updateEnvironment_sections s w _ Hw Hr eq_refl) as (_ & Hp & _).
  fold s' in Hp.
  assert (Hpk : UseWebR.packages s'
                = UseWebR.readPackages
                    (List.map (fun p => Js.Str (fst p)) pkgs)
                    (Z.of_nat (List.length (@nil Js.value)))
                    ([] ++ List.map (fun p => UseWebR.rVector "character" [Js.Str (snd p)]) pkgs)
                    UseWebR.emptyDict).
  { rewrite Hp. unfold UseWebR.packagesSection, UseWebR.packageList, UseWebR.rList.
    simpl. rewrite !List.map_map. reflexivity. }
  rewrite Hpk. split; [|split].
  - intros name version Hin Hne Hnp. apply readPackages_stores; assumption.
  - intros name Hnot. rewrite readPackages_untouched by exact Hnot. reflexivity.
  - rewrite readPackages_proto. reflexivity.
Qed.

(** X21, on the session whose only package is [base]. *)
Lemma r_packages_are_the_reported_ones_witness :
  let s := ToyR.ready ToyR.session in
  UseWebR.webR s = Some ToyR.session
  /\ NoDup ["base"]
  /\ UseWebR.own (UseWebR.packages (UseWebR.updateEnvironment s)) !! "base" = Some "4.4.1"
  /\ UseWebR.own (UseWebR.packages (UseWebR.updateEnvironment s)) !! "stats" = None.
Proof.
  assert (Hnd : NoDup ["base"]) by (apply (bool_decide_unpack _); vm_compute; exact I).
  split; [reflexivity|]. split; [exact Hnd|].
  destruct (r_packages_are_the_reported_ones ToyR.interpreter (ToyR.ready ToyR.session)
              ToyR.session _ _ [("base", "4.4.1")] eq_refl eq_refl Hnd)
    as (Hin & Hout & _).
  split.
  - apply Hin; [left; reflexivity | discriminate | discriminate].
  - apply Hout. simpl. intros [H|[]]. discriminate.
Defined.

(** X22.  What a refresh of the R hook does with a report it cannot read.
    When the evaluation fails or its value is not a list, the environment
    and the packages are left as they were.  When the value is a list whose
    three sections are not named lists, the environment and the stored data
    frames are emptied, while the packages are left as they were.  When the
    value is a list without sections, the environment and the packages are
    left as they were.  In no case is anything written on the console. *)
Theorem r_refresh_with_an_unreadable_report
    (R : UseWebR.Interpreter) (s : UseWebR.state) (w : UseWebR.webr) :
  UseWebR.webR s = Some w ->
  let s' := UseWebR.updateEnvironment s in
  UseWebR.consoleOutput s' = UseWebR.consoleOutput s
  /\ ((exists e, UseWebR.result (UseWebR.inspect w) = Rejected e)
      \/ (exists v, UseWebR.result (UseWebR.inspect w) = Resolved v
                    /\ UseWebR.isRList v = false) ->
      UseWebR.environment s' = UseWebR.environment s
      /\ UseWebR.packages s' = UseWebR.packages s)
  /\ (forall envJs packagesJs dataframesJs,
        UseWebR.result (UseWebR.inspect w)
        = Resolved (UseWebR.rList [("env", envJs); ("packages", packagesJs);
                                   ("dataframes", dataframesJs)]) ->
        UseWebR.isNamedList envJs = false ->
        UseWebR.isNamedList packagesJs = false ->
        UseWebR.isNamedList dataframesJs = false ->
        UseWebR.environment s' = UseWebR.emptyDict
        /\ UseWebR.packages s' = UseWebR.packages s
        /\ UseWebR.viewableDataFrames s' = UseWebR.emptyDict)
  /\ (UseWebR.result (UseWebR.inspect w) = Resolved (UseWebR.rList []) ->
      UseWebR.environment s' = UseWebR.environment s
      /\ UseWebR.packages s' = UseWebR.packages s).
Proof.
  intros Hw s'.
  destruct (r_updateEnvironment_spec s w Hw) as ((K1 & _) & _ & He).
  fold s' in K1, He.
  split; [exact K1|]. split; [|split].
  - intros Hbad.
    assert (Hpk : UseWebR.packages s' = UseWebR.packages s).
    { subst s'. unfold UseWebR.updateEnvironment. rewrite Hw.
      pose proof (r_await_packages UseWebR.inspect s) as Hpk.
      destruct (r_await_spec UseWebR.inspect s w Hw) as (_ & _ & _ & Rr).
      destruct (UseWebR.await UseWebR.inspect s) as [s1 resultJs]. simpl in *.
      subst resultJs.
      destruct Hbad as [[e Hr] | (v & Hr & Hv)]; rewrite Hr; [exact Hpk|].
      unfold UseWebR.readResult. rewrite Hv. exact Hpk. }
    split; [|exact Hpk].
    rewrite He. destruct Hbad as [[e Hr] | (v & Hr & Hv)]; rewrite Hr; [reflexivity|].
    rewrite Hv. reflexivity.
  - intros envJs packagesJs dataframesJs Hr Henv Hpk Hdf.
    destruct (r_updateEnvironment_sections s w _ Hw Hr eq_refl) as (A & B & C & _).
    fold s' in A, B, C. rewrite A, B, C.
    unfold UseWebR.envSection, UseWebR.packagesSection, UseWebR.dataframesSection.
    change (Js.indexOf "env" _) with 0.
    change (Js.indexOf "packages" _) with 1.
    change (Js.indexOf "dataframes" _) with 2.
    change (Js.index _ 0) with envJs.
    change (Js.index _ 1) with packagesJs.
    change (Js.index _ 2) with dataframesJs.
    rewrite Henv, Hpk, Hdf, !andb_false_r. auto.
  - intros Hr.
    destruct (r_updateEnvironment_sections s w _ Hw Hr eq_refl) as (A & B & _).
    fold s' in A, B. rewrite A, B. split; reflexivity.
Qed.

(** X22, on a session whose environment script evaluates to [NULL]. *)
Lemma r_refresh_with_an_unreadable_report_witness :
  let s := UseWebR.updateEnvironment (ToyR.ready ToyR.session) in
  let broken := @UseWebR.setWebR ToyR.interpreter (Some (ToyR.mkToy Js.Null)) s in
  UseWebR.webR broken = Some (ToyR.mkToy Js.Null)
  /\ UseWebR.environment (UseWebR.updateEnvironment broken) = UseWebR.environment s
  /\ UseWebR.own (UseWebR.environment s) !! "df" <> None.
Proof.
  split; [reflexivity|].
  destruct (r_refresh_with_an_unreadable_report ToyR.interpreter
              (@UseWebR.setWebR ToyR.interpreter (Some (ToyR.mkToy Js.Null))
                 (UseWebR.updateEnvironment (ToyR.ready ToyR.session)))
              (ToyR.mkToy Js.Null) eq_refl) as (_ & Hbad & _).
  split.
  - apply Hbad. right. exists Js.Null. split; reflexivity.
  - discriminate.
Defined.

(** ** Rows with equal cells keep their order *)

Section StableSort.
Context {A : Type} (compareFn : A -> A -> Z) (P : A -> bool).

Lemma filter_insert (x : A) (l : list A) :
  (P x = true -> forall y, In y l -> P y = true -> compareFn x y <= 0) ->
  List.filter P (ArraySort.insert compareFn x l) = List.filter P (x :: l).
Proof.
  induction l as [|y l IH]; intros Htie; [reflexivity|].
  simpl. destruct (compareFn x y <=? 0) eqn:E; [reflexivity|].
  apply Z.leb_gt in E. simpl.
  assert (IH' : List.filter P (ArraySort.insert compareFn x l) = List.filter P (x :: l)).
  { apply IH. intros Px z Hz Pz. apply Htie; [exact Px | right; exact Hz | exact Pz]. }
  rewrite IH'. simpl.
  destruct (P x) eqn:Px; [|reflexivity].
  destruct (P y) eqn:Py; [|reflexivity].
  specialize (Htie eq_refl y (or_introl eq_refl) Py). lia.
Qed.

Lemma filter_sort (l : list A) :
  (forall x y, In x l -> In y l -> P x = true -> P y = true -> compareFn x y <= 0) ->
  List.filter P (ArraySort.sort compareFn l) = List.filter P l.
Proof.
  induction l as [|x l IH]; intros Htie; [reflexivity|].
  unfold ArraySort.sort in *. simpl.
  rewrite filter_insert.
  - simpl. rewrite IH; [reflexivity|].
    intros a b Ha Hb. apply Htie; right; assumption.
  - intros Px y Hy Py. apply Htie; [left; reflexivity | right | exact Px | exact Py].
    apply (Permutation_in y (sort_permutation compareFn l)). exact Hy.
Qed.

End StableSort.

Lemma ltString_irrefl (a : string) : Js.ltString a a = false.
Proof.
  destruct (Js.ltString a a) eqn:E; [|reflexivity].
  pose proof (ltString_asym a a E). congruence.
Qed.

Lemma compareRows_tie (k : string) (d : ViewerPanel.SortDirection) (a b : Row) :
  Js.get k a = Js.get k b ->
  ViewerPanel.nullish (Js.get k a) = false ->
  ViewerPanel.compareRows k d a b = 0.
Proof.
  intros Heq Hn. unfold ViewerPanel.compareRows. rewrite <- Heq, Hn.
  destruct (Js.get k a) as [| |ba|za|sa|la|oa|ta]; try discriminate Hn;
    try (destruct d; lia);
    cbv zeta; rewrite ltString_irrefl; reflexivity.
Qed.

(** X23.  Sorting the table view is stable.  When the sorted column has no
    empty cell and holds numbers only or no number at all (so that the
    comparison is a consistent order), the rows that share one value in
    that column are displayed in the order they have in the table, in
    either direction. *)
Theorem viewer_sort_is_stable
    (m : list (list Row)) (t : ViewerPanel.TableProp) (l : nat) (rows : list Row)
    (k : string) (d : ViewerPanel.SortDirection) (P : Row -> bool) (v : Js.value) :
  ViewerPanel.propData t = Some l ->
  m !! l = Some rows ->
  List.Forall (fun row => ViewerPanel.nullish (Js.get k row) = false) rows ->
  ViewerPanel.numericColumn k rows \/ ViewerPanel.textColumn k rows ->
  (forall row, P row = true -> Js.get k row = v) ->
  let p := ViewerPanel.mkPanel (Some t) (ViewerPanel.mkSort (Some k) d) in
  List.filter P (ViewerPanel.displayed p m) = List.filter P rows.
Proof.
  intros Hdata Hrows Hfull _ Hsame p.
  assert (Hshown : ViewerPanel.displayed p m
                   = ArraySort.sort (ViewerPanel.compareRows k d) rows).
  { subst p. unfold ViewerPanel.displayed, ViewerPanel.sortedData, ViewerPanel.spread.
    simpl. rewrite Hdata, Hrows. simpl. unfold ViewerPanel.sortInPlace.
    rewrite lookup_app_r by lia. rewrite Nat.sub_diag. simpl.
    rewrite list_lookup_insert_eq; [reflexivity|].
    rewrite length_app. simpl. lia. }
  rewrite Hshown. apply filter_sort.
  intros a b Ha Hb Pa Pb.
  rewrite (compareRows_tie k d a b); [lia | |].
  - rewrite (Hsame a Pa), (Hsame b Pb). reflexivity.
  - rewrite List.Forall_forall in Hfull. apply Hfull. exact Ha.
Qed.

(** X23, on three rows of which the first and the last share the value 2. *)
Lemma viewer_sort_is_stable_witness :
  let rows := [ [("n", Js.Num 2); ("id", Js.Str "first")];
                [("n", Js.Num 1); ("id", Js.Str "middle")];
                [("n", Js.Num 2); ("id", Js.Str "last")] ] in
  let p := ViewerPanel.mkPanel (Some (ViewerPanel.mkProp "df" (Some 0%nat) None))
             (ViewerPanel.mkSort (Some "n") ViewerPanel.descending) in
  let two := fun row : Row => match Js.get "n" row with Js.Num 2 => true | _ => false end in
  ViewerPanel.displayed p [rows]
  = [ [("n", Js.Num 2); ("id", Js.Str "first")];
      [("n", Js.Num 2); ("id", Js.Str "last")];
      [("n", Js.Num 1); ("id", Js.Str "middle")] ]
  /\ List.filter two (ViewerPanel.displayed p [rows]) = List.filter two rows.
Proof.
  split; [reflexivity|].
  apply (viewer_sort_is_stable
           [[ [("n", Js.Num 2); ("id", Js.Str "first")];
              [("n", Js.Num 1); ("id", Js.Str "middle")];
              [("n", Js.Num 2); ("id", Js.Str "last")] ]]
           (ViewerPanel.mkProp "df" (Some 0%nat) None) 0%nat _ "n"
           ViewerPanel.descending _ (Js.Num 2) eq_refl eq_refl).
  - repeat constructor.
  - left. unfold ViewerPanel.numericColumn.
    repeat (constructor; [right; eexists; reflexivity|]). constructor.
  - intros row. destruct (Js.get "n" row) as [| |?|z|?|?|?|?]; try discriminate.
    destruct z as [|q|q]; try discriminate.
    destruct q as [q|q|]; try discriminate.
    destruct q as [q|q|]; try discriminate. reflexivity.
Defined.
